(** * GrabPatent: the real-time token processor

    A shallow embedding of [realtime_token_processor.py] (class
    [RealTimeProcessor]) and the properties of its response decoder, its
    fast-path failure ledger, its operating-mode governor, its record fetcher
    and its batch loop.

    Conventions of the embedding:
    - a Python [str] is a list of Unicode code points ([list N]);
    - a Python object coming out of [json] is a value of [pyval];
    - a call that may raise returns [result]: [Ok v] or [Raise];
    - everything the program obtains from the browser, the network, the file
      system or the clock is an explicit argument (an environment record or a
      time stamp);
    - durations and time stamps are rationals ([Q]) where Python has floats. *)

From Stdlib Require Import List NArith ZArith QArith Qminmax Bool Arith Lia String Ascii DecimalString.
Import ListNotations.

Set Implicit Arguments.
Set Warnings "-register-all".

(** ** Results of calls that may raise *)

Inductive result (A : Type) : Type :=
| Ok (a : A)
| Raise.
Arguments Ok {A} a.
Arguments Raise {A}.

Definition bind {A B : Type} (r : result A) (k : A -> result B) : result B :=
  match r with
  | Ok a => k a
  | Raise => Raise
  end.

Notation "x <- e ;; k" := (bind e (fun x => k))
  (at level 61, e at next level, right associativity).
Notation "' pat <- e ;; k" := (bind e (fun x => match x with pat => k end))
  (at level 61, pat pattern, e at next level, right associativity).

(** [try: ... except Exception: d] *)
Definition try_except {A : Type} (r : result A) (d : A) : A :=
  match r with
  | Ok a => a
  | Raise => d
  end.

(** ** Python strings *)

Module PyStr.

Definition str := list N.

Definition str_eqb (a b : str) : bool :=
  if list_eq_dec N.eq_dec a b then true else false.

(** [x in xs] for a list or a set of strings *)
Definition mem (x : str) (xs : list str) : bool := existsb (str_eqb x) xs.

(** [bool(s)] *)
Definition nonempty (s : str) : bool :=
  match s with
  | [] => false
  | _ :: _ => true
  end.

(** [s.startswith(p)] *)
Fixpoint startswith (s p : str) : bool :=
  match p, s with
  | [], _ => true
  | _ :: _, [] => false
  | a :: p', b :: s' => N.eqb a b && startswith s' p'
  end.

(** [p in s] on strings: [p] occurs in [s] as a substring *)
Fixpoint contains (s p : str) : bool :=
  startswith s p ||
  match s with
  | [] => false
  | _ :: s' => contains s' p
  end.

(** [str.isspace] on one code point; this is also what [\s] matches in a
    [re] pattern over [str]. *)
Definition isspace (c : N) : bool :=
  ((9 <=? c) && (c <=? 13) || (28 <=? c) && (c <=? 32) || (c =? 133) || (c =? 160)
   || (c =? 5760) || (8192 <=? c) && (c <=? 8202) || (c =? 8232) || (c =? 8233)
   || (c =? 8239) || (c =? 8287) || (c =? 12288))%N.

Fixpoint lstrip (s : str) : str :=
  match s with
  | [] => []
  | c :: s' => if isspace c then lstrip s' else s
  end.

(** [s.strip()] *)
Definition strip (s : str) : str := rev (lstrip (rev (lstrip s))).

(** [s.lower()], on the ASCII letters; other code points are left as they
    are (the Unicode case tables are not modelled). *)
Definition lower_char (c : N) : N :=
  if ((65 <=? c) && (c <=? 90))%N then (c + 32)%N else c.

Definition lower (s : str) : str := map lower_char s.

(** [re.split] on a class of single characters, and [s.split(sep)] for a
    one-character separator: the pieces between the separators, empty pieces
    kept. *)
Fixpoint split_on (sep : N -> bool) (s : str) : list str :=
  match s with
  | [] => [[]]
  | c :: s' =>
      if sep c then [] :: split_on sep s'
      else match split_on sep s' with
           | [] => [[c]]
           | p :: ps => (c :: p) :: ps
           end
  end.

(** [s.split(sep, 1)] for a one-character separator that occurs in [s]:
    the text before the first separator and the text after it. *)
Fixpoint split_once (sep : N) (s : str) : option (str * str) :=
  match s with
  | [] => None
  | c :: s' =>
      if N.eqb c sep then Some ([], s')
      else match split_once sep s' with
           | Some (k, v) => Some (c :: k, v)
           | None => None
           end
  end.

(** [s.replace(old, new)]: the occurrences of [old] are found left to right
    and do not overlap; [skip] counts the characters of the occurrence just
    found that are still to be passed over.  (Python inserts [new] between
    all characters when [old] is empty; the program never does that, and
    this model leaves [s] as it is.) *)
Fixpoint replace_from (skip : nat) (s old new : str) : str :=
  match s with
  | [] => []
  | c :: s' =>
      match skip with
      | S k => replace_from k s' old new
      | O =>
          if startswith s old then new ++ replace_from (Nat.pred (List.length old)) s' old new
          else c :: replace_from 0 s' old new
      end
  end.

Definition replace (s old new : str) : str :=
  match old with
  | [] => s
  | _ :: _ => replace_from 0 s old new
  end.

(** The rest of [s] after a leading [p] *)
Fixpoint drop_prefix (s p : str) : option str :=
  match p, s with
  | [], _ => Some s
  | _ :: _, [] => None
  | a :: p', b :: s' => if N.eqb a b then drop_prefix s' p' else None
  end.

(** *** [bytes.decode('utf-8', 'replace')]

    The decoder reads a sequence of items: a byte, or a code point that is
    already decoded and ends the byte run before it.  An ill-formed or
    truncated sequence gives one U+FFFD for its maximal well-formed prefix
    and decoding resumes at the offending item, as CPython does. *)

Inductive item : Type :=
| Byte (b : N)
| Lit (c : N).

Definition U_FFFD : N := 65533%N.

(** Decoder state: [None] between characters; [Some (need, acc, lo, hi)]
    after a lead byte, when [need] continuation bytes are still expected, the
    bits read so far are [acc] and the next byte must lie in [lo..hi]. *)
Definition dstate : Type := option (nat * N * N * N).

Definition start (it : item) : str * dstate :=
  match it with
  | Lit c => ([c], None)
  | Byte b =>
      if (b <? 128)%N then ([b], None)
      else if (b <? 194)%N then ([U_FFFD], None)
      else if (b <? 224)%N then ([], Some (1%nat, (b - 192)%N, 128%N, 191%N))
      else if (b <? 240)%N then
        ([], Some (2%nat, (b - 224)%N,
                   (if (b =? 224)%N then 160%N else 128%N),
                   (if (b =? 237)%N then 159%N else 191%N)))
      else if (b <? 245)%N then
        ([], Some (3%nat, (b - 240)%N,
                   (if (b =? 240)%N then 144%N else 128%N),
                   (if (b =? 244)%N then 143%N else 191%N)))
      else ([U_FFFD], None)
  end.

Definition feed (st : dstate) (it : item) : str * dstate :=
  match st with
  | None => start it
  | Some (need, acc, lo, hi) =>
      match it with
      | Byte b =>
          if ((lo <=? b) && (b <=? hi))%N then
            let acc' := (acc * 64 + (b - 128))%N in
            match need with
            | S (S n) => ([], Some (S n, acc', 128%N, 191%N))
            | _ => ([acc'], None)
            end
          else let (out, st') := start it in (U_FFFD :: out, st')
      | Lit c => ([U_FFFD; c], None)
      end
  end.

Fixpoint decode_from (st : dstate) (l : list item) : str :=
  match l with
  | [] => match st with
          | None => []
          | Some _ => [U_FFFD]
          end
  | it :: r => let (out, st') := feed st it in out ++ decode_from st' r
  end.

Definition utf8_decode_replace (l : list item) : str := decode_from None l.

(** Code points of a string literal of this file (its bytes are UTF-8). *)
Definition lit (s : string) : str :=
  utf8_decode_replace (map (fun a => Byte (N_of_ascii a)) (list_ascii_of_string s)).

(** A JSON text written with a backquote for every double quote. *)
Definition lit_json (s : string) : str :=
  map (fun c => if (c =? 96)%N then 34%N else c) (lit s).

End PyStr.
Import PyStr.

(** ** [urllib.parse] *)

Module Urllib.

Definition hexval (c : N) : option N :=
  if ((48 <=? c) && (c <=? 57))%N then Some (c - 48)%N
  else if ((65 <=? c) && (c <=? 70))%N then Some (c - 55)%N
  else if ((97 <=? c) && (c <=? 102))%N then Some (c - 87)%N
  else None.

Definition lit_item (c : N) : item :=
  if (c <? 128)%N then Byte c else Lit c.

(** [unquote_to_bytes] over the ASCII runs of the text: [%XX] with two
    hexadecimal digits is the byte [XX]; any other [%] stands for itself. *)
Fixpoint pct_items (s : str) : list item :=
  match s with
  | [] => []
  | c :: r =>
      if (c =? 37)%N then
        match r with
        | h1 :: h2 :: r2 =>
            match hexval h1, hexval h2 with
            | Some a, Some b => Byte (16 * a + b)%N :: pct_items r2
            | _, _ => Byte c :: pct_items r
            end
        | _ => Byte c :: pct_items r
        end
      else lit_item c :: pct_items r
  end.

(** [unquote(s)], with its defaults [encoding='utf-8', errors='replace'] *)
Definition unquote (s : str) : str := utf8_decode_replace (pct_items s).

(** [unquote_plus(s)] is [unquote(s.replace('+', ' '))] *)
Definition plus_to_space (s : str) : str :=
  map (fun c => if (c =? 43)%N then 32%N else c) s.

Definition unquote_plus (s : str) : str := unquote (plus_to_space s).

End Urllib.
Import Urllib.

(** ** Python objects and [json.loads] *)

Module Json.

Inductive pyval : Type :=
| PNone
| PBool (b : bool)
| PNum (q : Q)
| PNaN
| PInf (negative : bool)
| PStr (s : str)
| PList (l : list pyval)
| PDict (d : list (str * pyval)).

(** A [dict] with string keys, in insertion order. *)
Definition dict (V : Type) : Type := list (str * V).

Fixpoint dict_get {V : Type} (d : dict V) (k : str) : option V :=
  match d with
  | [] => None
  | (k', v) :: d' => if str_eqb k k' then Some v else dict_get d' k
  end.

(** [d[k] = v] *)
Fixpoint dict_set {V : Type} (d : dict V) (k : str) (v : V) : dict V :=
  match d with
  | [] => [(k, v)]
  | (k', v') :: d' => if str_eqb k k' then (k', v) :: d' else (k', v') :: dict_set d' k v
  end.

Definition dict_has {V : Type} (d : dict V) (k : str) : bool :=
  match dict_get d k with
  | Some _ => true
  | None => false
  end.

(** [set(ks).issubset(d.keys())] *)
Definition has_keys {V : Type} (d : dict V) (ks : list str) : bool :=
  forallb (dict_has d) ks.

(** [d.keys()] *)
Definition keys {V : Type} (d : dict V) : list str := map fst d.

(** [bool(v)] *)
Definition truthy (v : pyval) : bool :=
  match v with
  | PNone => false
  | PBool b => b
  | PNum q => negb (Qeq_bool q 0)
  | PNaN => true
  | PInf _ => true
  | PStr s => match s with [] => false | _ :: _ => true end
  | PList l => match l with [] => false | _ :: _ => true end
  | PDict d => match d with [] => false | _ :: _ => true end
  end.

(** The nesting depth at which CPython gives up with [RecursionError]. *)
Definition recursion_limit : nat := 1000.

Definition is_json_ws (c : N) : bool :=
  ((c =? 32) || (c =? 9) || (c =? 10) || (c =? 13))%N.

Fixpoint skip_ws (s : str) : str :=
  match s with
  | [] => []
  | c :: s' => if is_json_ws c then skip_ws s' else s
  end.

Definition is_digit (c : N) : bool := ((48 <=? c) && (c <=? 57))%N.

Fixpoint take_digits (s : str) : list N * str :=
  match s with
  | [] => ([], [])
  | c :: s' =>
      if is_digit c then let (ds, r) := take_digits s' in ((c - 48)%N :: ds, r)
      else ([], s)
  end.

Definition digits_value (ds : list N) : Z :=
  fold_left (fun acc d => (10 * acc + Z.of_N d)%Z) ds 0%Z.

(** The value of a JSON number, as an exact rational: an optional minus
    sign, then 0 or a run of digits that does not start with 0, then
    optionally a point and digits, then optionally an exponent. *)
Definition scan_number (s : str) : option (pyval * str) :=
  let (neg, s1) := match s with
                   | 45%N :: r => (true, r)
                   | _ => (false, s)
                   end in
  match s1 with
  | [] => None
  | c :: r =>
      if is_digit c then
        let (ints, r1) := if (c =? 48)%N then ([0%N], r) else take_digits s1 in
        let (fracs, r2) :=
          match r1 with
          | 46%N :: r' =>
              match take_digits r' with
              | ([], _) => ([], r1)
              | (ds, r'') => (ds, r'')
              end
          | _ => ([], r1)
          end in
        let (ex, r3) :=
          match r2 with
          | e :: r' =>
              if ((e =? 101) || (e =? 69))%N then
                let (eneg, r'') := match r' with
                                   | 45%N :: t => (true, t)
                                   | 43%N :: t => (false, t)
                                   | _ => (false, r')
                                   end in
                match take_digits r'' with
                | ([], _) => (0%Z, r2)
                | (ds, t) => ((if eneg then - digits_value ds else digits_value ds)%Z, t)
                end
              else (0%Z, r2)
          | [] => (0%Z, r2)
          end in
        let m := digits_value (ints ++ fracs) in
        let m := (if neg then - m else m)%Z in
        let e := (ex - Z.of_nat (List.length fracs))%Z in
        let q := if (0 <=? e)%Z then inject_Z (m * 10 ^ e)
                 else Qmake m (Z.to_pos (10 ^ (- e))) in
        Some (PNum q, r3)
      else None
  end.

Definition hex4 (a b c d : N) : option N :=
  match hexval a, hexval b, hexval c, hexval d with
  | Some x, Some y, Some z, Some w => Some (((x * 16 + y) * 16 + z) * 16 + w)%N
  | _, _, _, _ => None
  end.

(** The body of a JSON string, after its opening quote: the code units read
    (with a mark on those written as [\uXXXX]) and the text after the closing
    quote.  A control character, an unknown escape or a missing closing
    quote raises. *)
Fixpoint scan_units (s : str) : result (list (N * bool) * str) :=
  match s with
  | [] => Raise
  | c :: r =>
      if (c =? 34)%N then Ok ([], r)
      else if (c <? 32)%N then Raise
      else if (c =? 92)%N then
        match r with
        | [] => Raise
        | e :: r1 =>
            if (e =? 117)%N then
              match r1 with
              | a :: b :: c1 :: d :: r2 =>
                  match hex4 a b c1 d with
                  | Some u => ' (us, t) <- scan_units r2 ;; Ok ((u, true) :: us, t)
                  | None => Raise
                  end
              | _ => Raise
              end
            else
              let simple (x : N) := ' (us, t) <- scan_units r1 ;; Ok ((x, false) :: us, t) in
              if (e =? 34)%N then simple 34%N
              else if (e =? 92)%N then simple 92%N
              else if (e =? 47)%N then simple 47%N
              else if (e =? 98)%N then simple 8%N
              else if (e =? 102)%N then simple 12%N
              else if (e =? 110)%N then simple 10%N
              else if (e =? 114)%N then simple 13%N
              else if (e =? 116)%N then simple 9%N
              else Raise
        end
      else ' (us, t) <- scan_units r ;; Ok ((c, false) :: us, t)
  end.

(** A high surrogate escape followed by a low surrogate escape is one code
    point. *)
Fixpoint join_surrogates (us : list (N * bool)) : str :=
  match us with
  | [] => []
  | (hi, esc) :: us' =>
      match us' with
      | (lo, true) :: us'' =>
          if (esc && (55296 <=? hi) && (hi <=? 56319) && (56320 <=? lo) && (lo <=? 57343))%N
          then (65536 + (hi - 55296) * 1024 + (lo - 56320))%N :: join_surrogates us''
          else hi :: join_surrogates us'
      | _ => hi :: join_surrogates us'
      end
  end.

Definition scan_string (s : str) : result (str * str) :=
  ' (us, t) <- scan_units s ;; Ok (join_surrogates us, t).

(** [scan_once]: one JSON value at the head of [s], and the text after it. *)
Fixpoint parse_value (depth : nat) (s : str) : result (pyval * str) :=
  match depth with
  | O => Raise
  | S depth' =>
      match s with
      | [] => Raise
      | c :: r =>
          if (c =? 34)%N then ' (v, t) <- scan_string r ;; Ok (PStr v, t)
          else if (c =? 123)%N then
            match skip_ws r with
            | 125%N :: t => Ok (PDict [], t)
            | r0 =>
                (fix members (k : nat) (acc : dict pyval) (r : str) {struct k}
                   : result (pyval * str) :=
                   match k with
                   | O => Raise
                   | S k' =>
                       match r with
                       | 34%N :: r1 =>
                           ' (key, r2) <- scan_string r1 ;;
                           match skip_ws r2 with
                           | 58%N :: r3 =>
                               ' (v, r4) <- parse_value depth' (skip_ws r3) ;;
                               let acc' := dict_set acc key v in
                               match skip_ws r4 with
                               | 125%N :: t => Ok (PDict acc', t)
                               | 44%N :: t => members k' acc' (skip_ws t)
                               | _ => Raise
                               end
                           | _ => Raise
                           end
                       | _ => Raise
                       end
                   end) (List.length r0) [] r0
            end
          else if (c =? 91)%N then
            match skip_ws r with
            | 93%N :: t => Ok (PList [], t)
            | r0 =>
                (fix elements (k : nat) (acc : list pyval) (r : str) {struct k}
                   : result (pyval * str) :=
                   match k with
                   | O => Raise
                   | S k' =>
                       ' (v, r1) <- parse_value depth' r ;;
                       let acc' := acc ++ [v] in
                       match skip_ws r1 with
                       | 93%N :: t => Ok (PList acc', t)
                       | 44%N :: t => elements k' acc' (skip_ws t)
                       | _ => Raise
                       end
                   end) (List.length r0) [] r0
            end
          else
            match drop_prefix s (lit "null"), drop_prefix s (lit "true"),
                  drop_prefix s (lit "false") with
            | Some t, _, _ => Ok (PNone, t)
            | _, Some t, _ => Ok (PBool true, t)
            | _, _, Some t => Ok (PBool false, t)
            | None, None, None =>
                match scan_number s with
                | Some vt => Ok vt
                | None =>
                    match drop_prefix s (lit "NaN"), drop_prefix s (lit "Infinity"),
                          drop_prefix s (lit "-Infinity") with
                    | Some t, _, _ => Ok (PNaN, t)
                    | _, Some t, _ => Ok (PInf false, t)
                    | _, _, Some t => Ok (PInf true, t)
                    | None, None, None => Raise
                    end
                end
            end
      end
  end.

(** [json.loads(s)] for a [str]: one value, white space around it, nothing
    else; a leading byte-order mark raises. *)
Definition loads (s : str) : result pyval :=
  if startswith s [65279%N] then Raise
  else
    ' (v, t) <- parse_value recursion_limit (skip_ws s) ;;
    match skip_ws t with
    | [] => Ok v
    | _ :: _ => Raise
    end.

End Json.
Import Json.

(** ** [while] loops

    [loop_until n step s] runs the loop body [step] from [s] until it
    returns ([inr]), for at most [2 ^ n] iterations. *)

Fixpoint loop_until {S R : Type} (n : nat) (step : S -> S + R) (s : S) : S + R :=
  match n with
  | O => step s
  | S n' =>
      match loop_until n' step s with
      | inl s' => loop_until n' step s'
      | inr r => inr r
      end
  end.

(** ** The response decoder *)

Module Decoder.

(** State of the loop of [_iter_decoded_variants] *)
Record vstate : Type := mkV {
  queue : list str;
  seen : list str;
  variants : list str
}.

(** One iteration of [while queue:] *)
Definition variants_step (st : vstate) : vstate + list str :=
  match queue st with
  | [] => inr (variants st)
  | current :: queue0 =>
      if mem current (seen st) then inl (mkV queue0 (seen st) (variants st))
      else
        let seen1 := current :: seen st in
        let variants1 := variants st ++ [current] in
        let decoded := unquote current in
        let queue1 :=
          if negb (mem decoded seen1) && negb (str_eqb decoded current)
          then queue0 ++ [decoded] else queue0 in
        let decoded_plus := unquote_plus current in
        let queue2 :=
          if negb (mem decoded_plus seen1) && negb (str_eqb decoded_plus current)
          then queue1 ++ [decoded_plus] else queue1 in
        inl (mkV queue2 seen1 variants1)
  end.

(** Every decoding that changes a string makes [weight] smaller, so the
    loop runs out of work; [variants_fuel] bounds its iterations. *)
Definition has_plus (s : str) : bool := existsb (N.eqb 43) s.

Definition weight (s : str) : nat :=
  2 * List.length s + (if has_plus s then 1 else 0).

Definition variants_fuel (value : str) : nat := 2 * weight value + 1.

Definition variants_loop (value : str) : vstate + list str :=
  loop_until (variants_fuel value) variants_step (mkV [value] [] []).

Definition _iter_decoded_variants (value : str) : list str :=
  match value with
  | [] => []
  | _ :: _ =>
      match variants_loop value with
      | inr vs => vs
      | inl _ => []
      end
  end.

(** The token names *)
Definition k_pnk : str := lit "pnk".
Definition k_folderFlag : str := lit "folderFlag".
Definition k_oid : str := lit "oid".
Definition token_keys : list str := [k_pnk; k_folderFlag; k_oid].

(** A token set: a [dict] from token names to values *)
Definition tokens : Type := dict pyval.

(** The first element of [l] on which [f] has a result *)
Fixpoint first_some {A B : Type} (f : A -> option B) (l : list A) : option B :=
  match l with
  | [] => None
  | a :: l' => match f a with
               | Some b => Some b
               | None => first_some f l'
               end
  end.

(** [nested != payload], for a string [payload] *)
Definition differs_from_str (nested : pyval) (payload : str) : bool :=
  match nested with
  | PStr s => negb (str_eqb s payload)
  | _ => true
  end.

Definition get_or {V : Type} (d : dict V) (k : str) (default : V) : V :=
  match dict_get d k with
  | Some v => v
  | None => default
  end.

(** [_extract_tokens_from_json]; [depth] is the room left on the call stack,
    and running out of it raises. *)
Fixpoint _extract_tokens_from_json (depth : nat) (payload : pyval) : result (option tokens) :=
  match depth with
  | O => Raise
  | S depth' =>
      let first :=
        fix first (vs : list pyval) : result (option tokens) :=
          match vs with
          | [] => Ok None
          | v :: vs' =>
              r <- _extract_tokens_from_json depth' v ;;
              match r with
              | Some t => Ok (Some t)
              | None => first vs'
              end
          end in
      match payload with
      | PDict d =>
          if has_keys d token_keys then
            Ok (Some [(k_pnk, get_or d k_pnk (PStr []));
                      (k_folderFlag, get_or d k_folderFlag (PStr []));
                      (k_oid, get_or d k_oid (PStr []))])
          else first (map snd d)
      | PList l => first l
      | PStr s =>
          try_except
            (nested <- loads s ;;
             if differs_from_str nested s
             then r <- _extract_tokens_from_json depth' nested ;; Ok (Ok r)
             else Ok (Ok None))
            (Ok None)
      | _ => Ok None
      end
  end.

(** [_decode], local to [_extract_tokens_from_query_string]: at most three
    more rounds of [unquote], until a round changes nothing. *)
Fixpoint _decode_rounds (n : nat) (decoded : str) : str :=
  match n with
  | O => decoded
  | S n' =>
      let new_val := unquote decoded in
      if str_eqb new_val decoded then decoded else _decode_rounds n' new_val
  end.

Definition _decode (val : str) : str := _decode_rounds 3 val.

(** The delimiters of [re.split(r'[?&#\s]', variant)] *)
Definition is_query_delim (c : N) : bool :=
  ((c =? 63) || (c =? 38) || (c =? 35))%N || isspace c.

(** The body of [for sub in part.split('&')] *)
Definition scan_sub (pairs : dict str) (sub : str) : dict str :=
  match split_once 61%N sub with
  | None => pairs
  | Some (key, value) =>
      let key := strip key in
      if mem key token_keys && negb (str_eqb value []) then dict_set pairs key value
      else pairs
  end.

(** The body of [for part in re.split(...)] *)
Definition scan_part (pairs : dict str) (part : str) : dict str :=
  if contains part (lit "pnk=") || contains part (lit "folderflag=") || contains part (lit "oid=")
  then fold_left scan_sub (split_on (N.eqb 38) part) pairs
  else pairs.

(** [for variant in ...], with its [break] once the three names are there *)
Fixpoint scan_variants (pairs : dict str) (vs : list str) : dict str :=
  match vs with
  | [] => pairs
  | variant :: vs' =>
      let pairs' := fold_left scan_part (split_on is_query_delim variant) pairs in
      if has_keys pairs' token_keys then pairs' else scan_variants pairs' vs'
  end.

Definition _extract_tokens_from_query_string (candidate : str) : option tokens :=
  match candidate with
  | [] => None
  | _ :: _ =>
      let lowered := lower candidate in
      if negb (contains lowered (lit "pnk")) || negb (contains lowered (lit "oid")) then None
      else
        let pairs := scan_variants [] (_iter_decoded_variants candidate) in
        if negb (has_keys pairs token_keys) then None
        else Some [(k_pnk, PStr (_decode (get_or pairs k_pnk [])));
                   (k_oid, PStr (_decode (get_or pairs k_oid [])))]
  end.

(** *** The pattern of the last resort

    A quote, one of the three names, a quote, white space, [:] or [=], white
    space, a quote, and then the longest run of characters that are not
    quotes (at least one). *)
Definition is_quote (c : N) : bool := ((c =? 34) || (c =? 39))%N.

Fixpoint span (p : N -> bool) (s : str) : str * str :=
  match s with
  | [] => ([], [])
  | c :: s' => if p c then let (a, b) := span p s' in (c :: a, b) else ([], s)
  end.

(** A match of the pattern at the head of [s]: the name, the value and the
    text after the match *)
Definition match_here (s : str) : option (str * str * str) :=
  match s with
  | q1 :: s1 =>
      if is_quote q1 then
        match first_some (fun k => option_map (pair k) (drop_prefix s1 k)) token_keys with
        | Some (key, q2 :: s2) =>
            if is_quote q2 then
              match snd (span isspace s2) with
              | sep :: s3 =>
                  if ((sep =? 58) || (sep =? 61))%N then
                    match snd (span isspace s3) with
                    | q3 :: s4 =>
                        if is_quote q3 then
                          match span (fun c => negb (is_quote c)) s4 with
                          | ([], _) => None
                          | (value, rest) => Some (key, value, rest)
                          end
                        else None
                    | [] => None
                    end
                  else None
              | [] => None
              end
            else None
        | _ => None
        end
      else None
  | [] => None
  end.

(** [pattern.findall(s)] *)
Fixpoint findall (fuel : nat) (s : str) : list (str * str) :=
  match fuel with
  | O => []
  | S fuel' =>
      match match_here s with
      | Some (key, value, rest) => (key, value) :: findall fuel' rest
      | None => match s with
                | [] => []
                | _ :: s' => findall fuel' s'
                end
      end
  end.

Definition regex_tokens (candidate : str) : option tokens :=
  let matches := findall (S (List.length candidate)) candidate in
  let token_map := fold_left (fun d kv => dict_set d (fst kv) (PStr (snd kv))) matches [] in
  if has_keys token_map token_keys then Some token_map else None.

Definition starts_like_json (candidate : str) : bool :=
  let t := strip candidate in startswith t [123%N] || startswith t [91%N].

(** Step 1 on one candidate *)
Definition tokens_from_json_text (content_type candidate : str) : option tokens :=
  if contains content_type (lit "json") || starts_like_json candidate then
    try_except
      (json_payload <- loads candidate ;; _extract_tokens_from_json recursion_limit json_payload)
      None
  else None.

(** Step 2 on one candidate *)
Definition tokens_from_json_fields (candidate : str) : option tokens :=
  match loads candidate with
  | Ok (PDict d) =>
      let possible_fields :=
        flat_map (fun key => match dict_get d key with
                             | Some field => [field]
                             | None => []
                             end)
                 [lit "body"; lit "data"; lit "params"; lit "postData"] in
      first_some
        (fun field => match field with
                      | PStr f => first_some _extract_tokens_from_query_string
                                             (_iter_decoded_variants f)
                      | _ => None
                      end)
        possible_fields
  | _ => None
  end.

(** The four steps over the candidates; [content_type] is in lower case. *)
Definition parse_steps (text content_type : str) (candidates : list str) : option tokens :=
  match first_some (tokens_from_json_text content_type) candidates with
  | Some t => Some t
  | None =>
      match first_some tokens_from_json_fields candidates with
      | Some t => Some t
      | None =>
          match first_some _extract_tokens_from_query_string candidates with
          | Some t => Some t
          | None => first_some regex_tokens (candidates ++ [text])
          end
      end
  end.

Definition _parse_search_response_for_tokens (text : str) (content_type : option str)
  : option tokens :=
  if negb (nonempty text) then None
  else
    let content_type := lower (match content_type with
                               | Some c => c
                               | None => []
                               end) in
    parse_steps text content_type (_iter_decoded_variants text).

End Decoder.
Import Decoder.

(** ** The processor: its state, the governor and the failure ledger *)

Module Processor.

(** [performance_mode] is one of the strings ["fast"] and ["normal"]. *)
Inductive mode : Type :=
| fast
| normal.

Definition mode_eqb (a b : mode) : bool :=
  match a, b with
  | fast, fast => true
  | normal, normal => true
  | _, _ => false
  end.

(** A captured search request *)
Record Template : Type := mkTemplate {
  url : str;
  method : str;
  headers : dict str;
  body_template : option str
}.

(** The instance attributes the methods below read or write. *)
Record State : Type := mkState {
  direct_search_template : option Template;
  direct_search_failures : nat;
  direct_search_disabled_until : Q;
  direct_search_blocklist : list str;
  direct_search_timeout : Q;
  search_success_count : nat;
  search_fail_count : nat;
  performance_mode : mode;
  success_streak : nat;
  last_search_used_fallback : bool;
  fast_mode_trigger : nat;
  max_speed_samples : nat;
  speed_stats : dict (list Q)
}.

Definition set_template (st : State) (t : option Template) : State :=
  mkState t (direct_search_failures st) (direct_search_disabled_until st)
    (direct_search_blocklist st) (direct_search_timeout st) (search_success_count st)
    (search_fail_count st) (performance_mode st) (success_streak st)
    (last_search_used_fallback st) (fast_mode_trigger st) (max_speed_samples st)
    (speed_stats st).

Definition set_failures (st : State) (n : nat) : State :=
  mkState (direct_search_template st) n (direct_search_disabled_until st)
    (direct_search_blocklist st) (direct_search_timeout st) (search_success_count st)
    (search_fail_count st) (performance_mode st) (success_streak st)
    (last_search_used_fallback st) (fast_mode_trigger st) (max_speed_samples st)
    (speed_stats st).

Definition set_disabled_until (st : State) (t : Q) : State :=
  mkState (direct_search_template st) (direct_search_failures st) t
    (direct_search_blocklist st) (direct_search_timeout st) (search_success_count st)
    (search_fail_count st) (performance_mode st) (success_streak st)
    (last_search_used_fallback st) (fast_mode_trigger st) (max_speed_samples st)
    (speed_stats st).

Definition set_blocklist (st : State) (b : list str) : State :=
  mkState (direct_search_template st) (direct_search_failures st)
    (direct_search_disabled_until st) b (direct_search_timeout st)
    (search_success_count st) (search_fail_count st) (performance_mode st)
    (success_streak st) (last_search_used_fallback st) (fast_mode_trigger st)
    (max_speed_samples st) (speed_stats st).

Definition set_search_success_count (st : State) (n : nat) : State :=
  mkState (direct_search_template st) (direct_search_failures st)
    (direct_search_disabled_until st) (direct_search_blocklist st)
    (direct_search_timeout st) n (search_fail_count st) (performance_mode st)
    (success_streak st) (last_search_used_fallback st) (fast_mode_trigger st)
    (max_speed_samples st) (speed_stats st).

Definition set_search_fail_count (st : State) (n : nat) : State :=
  mkState (direct_search_template st) (direct_search_failures st)
    (direct_search_disabled_until st) (direct_search_blocklist st)
    (direct_search_timeout st) (search_success_count st) n (performance_mode st)
    (success_streak st) (last_search_used_fallback st) (fast_mode_trigger st)
    (max_speed_samples st) (speed_stats st).

Definition set_mode (st : State) (m : mode) (streak : nat) : State :=
  mkState (direct_search_template st) (direct_search_failures st)
    (direct_search_disabled_until st) (direct_search_blocklist st)
    (direct_search_timeout st) (search_success_count st) (search_fail_count st) m streak
    (last_search_used_fallback st) (fast_mode_trigger st) (max_speed_samples st)
    (speed_stats st).

Definition set_last_search_used_fallback (st : State) (b : bool) : State :=
  mkState (direct_search_template st) (direct_search_failures st)
    (direct_search_disabled_until st) (direct_search_blocklist st)
    (direct_search_timeout st) (search_success_count st) (search_fail_count st)
    (performance_mode st) (success_streak st) b (fast_mode_trigger st)
    (max_speed_samples st) (speed_stats st).

Definition set_speed_stats (st : State) (d : dict (list Q)) : State :=
  mkState (direct_search_template st) (direct_search_failures st)
    (direct_search_disabled_until st) (direct_search_blocklist st)
    (direct_search_timeout st) (search_success_count st) (search_fail_count st)
    (performance_mode st) (success_streak st) (last_search_used_fallback st)
    (fast_mode_trigger st) (max_speed_samples st) d.

(** What [BatchTokenExtractor.__init__] leaves in the instance.  That class
    is not among the sources; its attributes are taken as given. *)
Record Inherited : Type := mkInherited {
  inherited_template : option Template;
  inherited_failures : nat;
  inherited_disabled_until : Q;
  inherited_blocklist : list str;
  inherited_timeout : Q
}.

Definition stage_search : str := lit "search".
Definition stage_token : str := lit "token".
Definition stage_fetch : str := lit "fetch".

(** [RealTimeProcessor.__init__], after [super().__init__(...)] *)
Definition __init__ (base : Inherited) : State :=
  mkState (inherited_template base) (inherited_failures base)
    (inherited_disabled_until base) (inherited_blocklist base) (inherited_timeout base)
    0 0 fast 0 false 3 20
    [(stage_search, []); (stage_token, []); (stage_fetch, [])].

(** *** The governor *)

Definition _record_stage_time (st : State) (stage : str) (duration : Q) : State :=
  match dict_get (speed_stats st) stage with
  | None => st
  | Some stats =>
      let stats := stats ++ [duration] in
      let stats := if Nat.ltb (max_speed_samples st) (List.length stats)
                   then tl stats else stats in
      set_speed_stats st (dict_set (speed_stats st) stage stats)
  end.

Definition qsum (l : list Q) : Q := fold_left Qplus l 0.

Definition _get_average_stage_time (st : State) (stage : str) : option Q :=
  match dict_get (speed_stats st) stage with
  | None => None
  | Some [] => None
  | Some stats => Some (qsum stats / inject_Z (Z.of_nat (List.length stats)))
  end.

(** [avg_search and avg_search > 12] *)
Definition slow_search (avg_search : option Q) : bool :=
  match avg_search with
  | None => false
  | Some a => negb (Qeq_bool a 0) && negb (Qle_bool a 12)
  end.

Definition _update_performance_profile (st : State) (success used_fallback : bool) : State :=
  if negb success then set_mode st normal 0
  else if used_fallback then set_mode st normal 0
  else
    let streak := S (success_streak st) in
    if mode_eqb (performance_mode st) normal && Nat.leb (fast_mode_trigger st) streak
    then set_mode st fast 0
    else if mode_eqb (performance_mode st) fast then
      if slow_search (_get_average_stage_time st stage_search)
      then set_mode st normal 0
      else set_mode st fast streak
    else set_mode st (performance_mode st) streak.

(** *** The failure ledger of the fast path *)

Definition reason_parse_failed : str := lit "解析失败".
Definition reason_no_tokens : str := lit "未解析到Token".
Definition reason_unknown : str := lit "未知原因".
Definition reason_script_timeout : str := lit "脚本超时".
Definition reason_exec_error : str := lit "执行异常".
Definition reason_no_response : str := lit "无响应".
Definition reason_request_failed : str := lit "请求失败".
Definition reason_status : str := lit "状态码".

Definition parse_reasons : list str := [reason_parse_failed; reason_no_tokens].

(** [_register_direct_search_failure(reason, patent_no)]; [now] is what
    [time.time()] returns. *)
Definition _register_direct_search_failure (st : State) (now : Q)
    (reason : option str) (patent_no : option str) : State :=
  let st := set_failures st (S (direct_search_failures st)) in
  let reason_text := match reason with
                     | Some r => if nonempty r then r else reason_unknown
                     | None => reason_unknown
                     end in
  let st := if Nat.leb 2 (direct_search_failures st) && mem reason_text parse_reasons
            then set_template st None else st in
  let st := match patent_no with
            | Some p =>
                if nonempty p && mem reason_text parse_reasons then
                  if negb (mem p (direct_search_blocklist st))
                  then set_blocklist st (p :: direct_search_blocklist st)
                  else st
                else st
            | None => st
            end in
  if Nat.leb 3 (direct_search_failures st) then
    let cooldown := Qmax 180 (direct_search_timeout st * 10) in
    set_disabled_until st (now + cooldown)
  else st.

(** *** Template replay

    What [_execute_direct_search] and [_execute_direct_search_via_requests]
    hand back: the object the page script resolves with, or the one built
    from the [requests] response.  A missing entry reads as false, zero or
    the empty string. *)
Record Response : Type := mkResponse {
  ok : bool;
  status : Z;
  text : str;
  contentType : str;
  error : str
}.

Inductive browser_outcome : Type :=
| BrowserReturns (response : option Response)
| BrowserTimeout
| BrowserWebDriverError (message : str)
| BrowserOtherError.

(** The surroundings of one call of [_direct_fetch_tokens]: the clock when
    the cooldown is checked and when a failure is registered, and the
    outcome of each transport. *)
Record DirectEnv : Type := mkDirectEnv {
  time_at_check : Q;
  time_at_failure : Q;
  browser_exec : browser_outcome;
  requests_exec : result (option Response)
}.

(** The requests a call sent *)
Inductive replay : Type :=
| ViaBrowser
| ViaRequests.

Record Outcome (A : Type) : Type := mkOutcome {
  returned : result A;
  state_after : State;
  replays : list replay
}.

Definition decimal (z : Z) : str := lit (DecimalString.NilZero.string_of_int (Z.to_int z)).

(** The reason read off a response that is not a success; [reason] stays
    when the response gives none. *)
Definition browser_reason (response : Response) (reason : option str) : option str :=
  if nonempty (error response) then Some (error response)
  else if negb (ok response) then
    Some (if Z.eqb (status response) 0 then reason_request_failed
          else reason_status ++ decimal (status response))
  else reason.

Definition requests_reason (response : Response) (reason : option str) : option str :=
  if nonempty (error response) then Some (error response)
  else if negb (ok response) then
    (if Z.eqb (status response) 0 then reason else Some (reason_status ++ decimal (status response)))
  else reason.

Definition is_reason (reason : option str) : bool :=
  match reason with
  | Some r => nonempty r
  | None => false
  end.

(** The call of [_parse_search_response_for_tokens] inside the [try] block
    at the end of [_direct_fetch_tokens].  Reading the text off a response
    that is [None] raises; the decoder itself does not raise on a [str]. *)
Definition parse_call (response : option Response) : result (option tokens) :=
  match response with
  | Some r => Ok (_parse_search_response_for_tokens (text r) (Some (contentType r)))
  | None => Raise
  end.

(** The end of [_direct_fetch_tokens]: decode the response.  The handler of
    a parse exception registers the failure and then reads the response
    again for its debug file, which raises again when there is none. *)
Definition decode_response (st : State) (env : DirectEnv) (patent_no : str)
    (response : option Response) (sent : list replay) : Outcome (option tokens) :=
  match parse_call response with
  | Ok (Some toks) =>
      let st := set_last_search_used_fallback st false in
      let st := set_failures st 0 in
      let st := set_disabled_until st 0 in
      mkOutcome (Ok (Some toks)) st sent
  | Ok None =>
      mkOutcome (Ok None)
        (_register_direct_search_failure st (time_at_failure env) (Some reason_no_tokens)
           (Some patent_no))
        sent
  | Raise =>
      mkOutcome (match response with
                 | Some _ => Ok None
                 | None => Raise
                 end)
        (_register_direct_search_failure st (time_at_failure env) (Some reason_parse_failed)
           (Some patent_no))
        sent
  end.

Definition _direct_fetch_tokens (st : State) (env : DirectEnv) (patent_no : str)
  : Outcome (option tokens) :=
  if mem patent_no (direct_search_blocklist st) then mkOutcome (Ok None) st []
  else
    match direct_search_template st with
    | None => mkOutcome (Ok None) st []
    | Some _ =>
        let cooling := negb (Qeq_bool (direct_search_disabled_until st) 0) in
        if cooling && negb (Qle_bool (direct_search_disabled_until st) (time_at_check env))
        then mkOutcome (Ok None) st []
        else
          let st := if cooling then set_failures (set_disabled_until st 0) 0 else st in
          let '(response, reason) :=
            match browser_exec env with
            | BrowserReturns r => (r, None)
            | BrowserTimeout => (None, Some reason_script_timeout)
            | BrowserWebDriverError message =>
                (None, Some (if contains (lower message) (lit "script timeout")
                             then reason_script_timeout else reason_exec_error))
            | BrowserOtherError => (None, Some reason_exec_error)
            end in
          let reason := match response, reason with
                        | None, None => Some reason_no_response
                        | _, _ => reason
                        end in
          let reason := match response with
                        | Some r => browser_reason r reason
                        | None => reason
                        end in
          if is_reason reason then
            match requests_exec env with
            | Raise => mkOutcome Raise st [ViaBrowser; ViaRequests]
            | Ok (Some fallback_response) =>
                if ok fallback_response
                then decode_response st env patent_no (Some fallback_response)
                       [ViaBrowser; ViaRequests]
                else
                  let reason := requests_reason fallback_response reason in
                  if is_reason reason then
                    mkOutcome (Ok None)
                      (_register_direct_search_failure st (time_at_failure env) reason
                         (Some patent_no))
                      [ViaBrowser; ViaRequests]
                  else decode_response st env patent_no response [ViaBrowser; ViaRequests]
            | Ok None =>
                mkOutcome (Ok None)
                  (_register_direct_search_failure st (time_at_failure env) reason
                     (Some patent_no))
                  [ViaBrowser; ViaRequests]
            end
          else decode_response st env patent_no response [ViaBrowser]
    end.

End Processor.
Import Processor.

(** ** The record fetcher *)

Module Fetcher.

(** What Python does with an object whose type the program did not check *)
Definition py_get (v : pyval) (k : str) (default : pyval) : result pyval :=
  match v with
  | PDict d => Ok (get_or d k default)
  | _ => Raise
  end.

Definition is_dict (v : pyval) : bool :=
  match v with
  | PDict _ => true
  | _ => false
  end.

(** [len(v)] *)
Definition py_len (v : pyval) : result nat :=
  match v with
  | PStr s => Ok (List.length s)
  | PList l => Ok (List.length l)
  | PDict d => Ok (List.length d)
  | _ => Raise
  end.

(** [v[:n]] *)
Definition py_slice (v : pyval) : result unit :=
  match v with
  | PStr _ => Ok tt
  | PList _ => Ok tt
  | _ => Raise
  end.

(** [v == s] for a string [s] *)
Definition py_eq_str (v : pyval) (s : str) : bool :=
  match v with
  | PStr t => str_eqb t s
  | _ => false
  end.

(** [v.replace(old, new)] and [v.startswith(p)]: methods of [str] only *)
Definition py_replace (v : pyval) (old new : str) : result str :=
  match v with
  | PStr s => Ok (replace s old new)
  | _ => Raise
  end.

Definition py_startswith (v : pyval) (p : str) : result bool :=
  match v with
  | PStr s => Ok (startswith s p)
  | _ => Raise
  end.

(** The nine names of a patent record, in the order of the [dict] display *)
Definition k_patent_no : str := lit "patent_no".
Definition k_patent_type : str := lit "patent_type".
Definition k_application_date : str := lit "application_date".
Definition k_application_number : str := lit "application_number".
Definition k_inventors : str := lit "inventors".
Definition k_first_applicant : str := lit "first_applicant".
Definition k_abstract : str := lit "abstract".
Definition k_examiner : str := lit "examiner".
Definition k_first_claim : str := lit "first_claim".

Definition record_keys : list str :=
  [k_patent_no; k_patent_type; k_application_date; k_application_number; k_inventors;
   k_first_applicant; k_abstract; k_examiner; k_first_claim].

Definition PatentRecord : Type := dict pyval.

Definition invention_application : str := lit "发明申请".

Definition type_map : dict str :=
  [(lit "1", invention_application); (lit "2", lit "实用新型");
   (lit "3", lit "外观设计"); (lit "4", lit "发明授权")].

(** [type_map.get(pt, "")]: a list or a dict cannot be looked up. *)
Definition type_of_code (pt : pyval) : result str :=
  match pt with
  | PStr s => Ok (get_or type_map s [])
  | PList _ => Raise
  | PDict _ => Raise
  | _ => Ok []
  end.

(** An HTTP response: its status code, and what [response.json()] gives *)
Record Http : Type := mkHttp {
  status_code : Z;
  json : result pyval
}.

(** The surroundings of one call of [fetch_details_immediately]: whether the
    browser hands over its cookies and its current URL, the answers of the
    two endpoints ([Raise]: the request itself fails), and the examiner name
    in the file name of a downloaded document of the patent, or the empty
    string. *)
Record FetchEnv : Type := mkFetchEnv {
  browser_session : result unit;
  common_info : result Http;
  base_info : result Http;
  pdf_examiner : str -> str
}.

Definition find_examiner_from_pdf_files (env : FetchEnv) (patent_no patent_type : str) : str :=
  if negb (nonempty patent_type) || negb (str_eqb patent_type invention_application) then []
  else pdf_examiner env patent_no.

Section Classifier.

(** [is_organization], local to [parse_patent_json_for_details], decides
    from key words, regular expressions and Unicode character classes
    whether an applicant is an organisation; on an object that is not a
    string it may raise.  Its answers are taken as given. *)
Variable is_organization : pyval -> result bool.

(** The scan of [axisSortMap] for the application date *)
Fixpoint scan_axis (items : dict pyval) : result str :=
  match items with
  | [] => Ok []
  | (_, date_info) :: rest =>
      match date_info with
      | PDict d =>
          if py_eq_str (get_or d (lit "axisName") PNone) (lit "申请日") then
            let axis_date := get_or d (lit "axisDate") (PStr []) in
            if truthy axis_date then py_replace axis_date (lit "-") []
            else scan_axis rest
          else scan_axis rest
      | _ => scan_axis rest
      end
  end.

(** The scan of [otherBibliographicItems] for the examiner *)
Fixpoint scan_examiner (items : list pyval) : pyval :=
  match items with
  | [] => PStr []
  | item :: rest =>
      match item with
      | PDict d =>
          let name := get_or d (lit "name") (PStr []) in
          let value := get_or d (lit "value") (PStr []) in
          if py_eq_str name (lit "审查员") && truthy value then value
          else scan_examiner rest
      | _ => scan_examiner rest
      end
  end.

Definition parse_patent_json_for_details (env : FetchEnv) (data : pyval)
    (patent_no patent_type application_number : str) : result PatentRecord :=
  axis_sort_map <- py_get data (lit "axisSortMap") (PDict []) ;;
  application_date <- match axis_sort_map with
                      | PDict items => scan_axis items
                      | _ => Raise
                      end ;;
  biblio_items <- py_get data (lit "bibliographicItems") (PDict []) ;;
  inventors <- (if is_dict biblio_items then py_get biblio_items (lit "in_or") (PStr [])
                else Ok (PStr [])) ;;
  first_applicant <-
    (if is_dict biblio_items then
       ap_root <- py_get biblio_items (lit "apRoot") (PList []) ;;
       match ap_root with
       | PList (first_app :: _) =>
           if truthy first_app then
             org <- is_organization first_app ;;
             Ok (if org then first_app else PStr [])
           else Ok (PStr [])
       | _ => Ok (PStr [])
       end
     else Ok (PStr [])) ;;
  summary_info <- py_get data (lit "summaryInformation") (PDict []) ;;
  abstract <- (if is_dict summary_info then
                 a <- py_get summary_info (lit "ab_cn") (PStr []) ;;
                 _ <- py_len a ;;
                 Ok a
               else Ok (PStr [])) ;;
  first_claim_data <- py_get data (lit "firstClaim") (PDict []) ;;
  first_claim <- (if is_dict first_claim_data then
                    c <- py_get first_claim_data (lit "first_claim_or") (PStr []) ;;
                    _ <- py_len c ;;
                    Ok c
                  else Ok (PStr [])) ;;
  other_biblio <- py_get data (lit "otherBibliographicItems") (PList []) ;;
  let examiner := match other_biblio with
                  | PList items => scan_examiner items
                  | _ => PStr []
                  end in
  let examiner := if negb (truthy examiner) && str_eqb patent_type invention_application
                  then PStr (find_examiner_from_pdf_files env patent_no patent_type)
                  else examiner in
  Ok [(k_patent_no, PStr patent_no);
      (k_patent_type, PStr patent_type);
      (k_application_date, PStr application_date);
      (k_application_number, PStr application_number);
      (k_inventors, inventors);
      (k_first_applicant, first_applicant);
      (k_abstract, abstract);
      (k_examiner, examiner);
      (k_first_claim, first_claim)].

(** One endpoint: [None] when the request answers without success, and the
    [data] of the answer otherwise. *)
Definition api_data (answer : result Http) : result (option pyval) :=
  response <- answer ;;
  if negb (Z.eqb (status_code response) 200) then Ok None
  else
    result <- json response ;;
    st <- py_get result (lit "status") PNone ;;
    if negb (truthy st) then Ok None
    else
      data <- py_get result (lit "data") (PDict []) ;;
      Ok (Some data).

(** [an.replace('CN', '') if an.startswith('CN') else an] *)
Definition strip_cn (an : pyval) : result str :=
  starts <- py_startswith an (lit "CN") ;;
  if starts then py_replace an (lit "CN") []
  else match an with
       | PStr s => Ok s
       | _ => Raise
       end.

(** The body of the [try] block of [fetch_details_immediately] *)
Definition fetch_details_body (env : FetchEnv) (tokens : dict pyval) (patent_no : str)
  : result (option PatentRecord) :=
  let pnk := get_or tokens k_pnk (PStr []) in
  if negb (truthy pnk) then Ok None
  else
    _ <- py_slice pnk ;;
    _ <- browser_session env ;;
    common <- api_data (common_info env) ;;
    match common with
    | None => Ok None
    | Some common_data =>
        pt <- py_get common_data (lit "pt") (PStr []) ;;
        an <- py_get common_data (lit "an") (PStr []) ;;
        patent_type <- type_of_code pt ;;
        base <- api_data (base_info env) ;;
        match base with
        | None => Ok None
        | Some data =>
            if negb (truthy data) || negb (is_dict data) then Ok None
            else
              application_number <- strip_cn an ;;
              details <- parse_patent_json_for_details env data patent_no patent_type
                           application_number ;;
              Ok (Some details)
        end
    end.

Definition fetch_details_immediately (env : FetchEnv) (tokens : dict pyval) (patent_no : str)
  : option PatentRecord :=
  try_except (fetch_details_body env tokens patent_no) None.

End Classifier.

End Fetcher.
Import Fetcher.

(** ** One patent, and the batch loop *)

Module Batch.

(** The surroundings of one call of [process_single_patent_realtime]: what
    [_extract_pnk_from_page] and [search_patent_with_guards] do (both drive
    the browser), the value of [last_search_used_fallback] the search leaves
    behind, the surroundings of the fetch, and the three durations read off
    the clock.  [_extract_pnk_from_page] is a method of the base class, which
    is not among the sources; like the search, it is taken to leave the
    attributes of [State] alone. *)
Record SingleEnv : Type := mkSingleEnv {
  extract_pnk : result pyval;
  guarded_search : result bool;
  search_left_fallback : bool;
  fetch_env : FetchEnv;
  search_time : Q;
  token_time : Q;
  fetch_time : Q
}.

(** [extract_tokens_from_network], for a patent number that is given *)
Definition extract_tokens_from_network (env : SingleEnv) : option (dict pyval) :=
  match extract_pnk env with
  | Ok pnk => if truthy pnk then Some [(k_pnk, pnk)] else None
  | Raise => None
  end.

Definition bump_search_fail (st : State) : State :=
  set_search_fail_count st (S (search_fail_count st)).

Definition bump_search_success (st : State) : State :=
  set_search_success_count st (S (search_success_count st)).

Section Classifier.

Variable is_organization : pyval -> result bool.

(** From the fetch to the end of the [try] block *)
Definition fetch_and_report (st : State) (env : SingleEnv) (skip_search : bool)
    (tokens : dict pyval) (patent_no : str) : result (option PatentRecord) * State :=
  match fetch_details_immediately is_organization (fetch_env env) tokens patent_no with
  | Some patent_data =>
      let st := _record_stage_time st stage_fetch (fetch_time env) in
      match py_slice (get_or patent_data k_inventors (PStr [])) with
      | Raise => (Raise, st)
      | Ok _ =>
          let st := if negb skip_search
                    then _update_performance_profile st true (last_search_used_fallback st)
                    else st in
          (Ok (Some patent_data), st)
      end
  | None =>
      let st := if negb skip_search
                then _update_performance_profile st false (last_search_used_fallback st)
                else st in
      (Ok None, st)
  end.

(** The [try] block of [process_single_patent_realtime] *)
Definition process_single_body (st : State) (env : SingleEnv) (patent_no : str)
    (skip_search : bool) : result (option PatentRecord) * State :=
  if skip_search then
    match extract_pnk env with
    | Raise => (Raise, st)
    | Ok pnk =>
        if negb (truthy pnk) then (Ok None, st)
        else
          let tokens := [(k_pnk, pnk); (k_patent_no, PStr patent_no)] in
          let st := _record_stage_time st stage_token (token_time env) in
          fetch_and_report st env skip_search tokens patent_no
    end
  else
    let st := set_last_search_used_fallback st false in
    match guarded_search env with
    | Raise => (Raise, set_last_search_used_fallback st (search_left_fallback env))
    | Ok found =>
        let st := set_last_search_used_fallback st (search_left_fallback env) in
        if negb found then
          let st := bump_search_fail st in
          (Ok None, _update_performance_profile st false false)
        else
          let st := bump_search_success st in
          let st := _record_stage_time st stage_search (search_time env) in
          match extract_tokens_from_network env with
          | None =>
              (Ok None, _update_performance_profile st false (last_search_used_fallback st))
          | Some tokens =>
              let tokens := dict_set tokens k_patent_no (PStr patent_no) in
              let st := _record_stage_time st stage_token (token_time env) in
              fetch_and_report st env skip_search tokens patent_no
          end
    end.

Definition process_single_patent_realtime (st : State) (env : SingleEnv) (patent_no : str)
    (skip_search : bool) : option PatentRecord * State :=
  match process_single_body st env patent_no skip_search with
  | (Ok r, st') => (r, st')
  | (Raise, st') =>
      (None, if negb skip_search
             then _update_performance_profile st' false (last_search_used_fallback st')
             else st')
  end.

(** *** The batch loop *)

(** The output file before the run *)
Inductive OutputFile : Type :=
| Missing
| Unreadable
| Records (existing_results : list (dict pyval)).

(** [{item['patent_no'] for item in existing_results}]: a record without
    the name, or with a value that cannot be hashed, raises. *)
Fixpoint patent_numbers (items : list (dict pyval)) : result (list pyval) :=
  match items with
  | [] => Ok []
  | item :: rest =>
      match dict_get item k_patent_no with
      | None => Raise
      | Some (PList _) => Raise
      | Some (PDict _) => Raise
      | Some v => vs <- patent_numbers rest ;; Ok (v :: vs)
      end
  end.

Definition existing_results_of (f : OutputFile) : list (dict pyval) :=
  match f with
  | Records rs => rs
  | _ => []
  end.

Definition completed_patents_of (f : OutputFile) : list pyval :=
  match f with
  | Records rs => try_except (patent_numbers rs) []
  | _ => []
  end.

(** [p not in completed_patents] *)
Definition not_completed (completed : list pyval) (p : str) : bool :=
  negb (existsb (fun v => py_eq_str v p) completed).

(** The surroundings of one turn of the loop: what restarting the browser
    and logging in again gives when the loop does that, and the surroundings
    of the patent. *)
Record IterEnv : Type := mkIterEnv {
  restart_login : result bool;
  single : SingleEnv
}.

(** The surroundings of a run: starting the browser and logging in, and
    the turns of the loop, numbered from 1 as [enumerate] does. *)
Record BatchEnv : Type := mkBatchEnv {
  first_login : result bool;
  turn : nat -> IterEnv
}.

(** The variables of the loop, the content of the output file, and the
    patent numbers handed to [process_single_patent_realtime] so far *)
Record Loop : Type := mkLoop {
  proc : State;
  results : list PatentRecord;
  failed_patents : list str;
  unavailable_patents : list str;
  consecutive_failures : nat;
  consecutive_not_found : nat;
  saved : OutputFile;
  attempts : list str
}.

Inductive control : Type :=
| Next
| Break
| Abort.

(** [if consecutive_failures >= 3:], the restart of the browser: the count
    of failures in a row the turn goes on with, or the way the loop is
    left. *)
Definition restart_if_needed (env : IterEnv) (l : Loop) : nat + control :=
  if Nat.leb 3 (consecutive_failures l) then
    match restart_login env with
    | Raise => inr Abort
    | Ok false => inr Break
    | Ok true => inl 0%nat
    end
  else inl (consecutive_failures l).

(** [if patent_data: ... else: ...], the book-keeping after a patent *)
Definition record_outcome (l : Loop) (failures : nat) (patent_no : str)
    (patent_data : option PatentRecord) (st : State) : Loop :=
  let tried := attempts l ++ [patent_no] in
  match patent_data with
  | Some r =>
      let results' := results l ++ [r] in
      mkLoop st results' (failed_patents l) (unavailable_patents l) 0 0
        (Records results') tried
  | None =>
      let not_found :=
        if Nat.ltb (List.length (failed_patents l)) (search_fail_count st)
        then S (consecutive_not_found l) else 0%nat in
      mkLoop st (results l) (failed_patents l ++ [patent_no]) (unavailable_patents l)
        (S failures) not_found (saved l) tried
  end.

(** The body of [for i, patent_no in enumerate(remaining_patents, 1)].
    The pauses, the statistics and the session refresh of every twentieth
    turn change none of the variables and are left out; every write of the
    output file is taken to go through. *)
Definition batch_step (skip_unavailable skip_search : bool) (env : IterEnv)
    (patent_no : str) (l : Loop) : Loop * control :=
  if skip_unavailable && Nat.leb 5 (consecutive_not_found l) then
    (mkLoop (proc l) (results l) (failed_patents l) (unavailable_patents l ++ [patent_no])
       (consecutive_failures l) 0 (saved l) (attempts l), Next)
  else
    match restart_if_needed env l with
    | inr c => (l, c)
    | inl failures =>
        let '(patent_data, st) :=
          process_single_patent_realtime (proc l) (single env) patent_no skip_search in
        (record_outcome l failures patent_no patent_data st, Next)
    end.

Fixpoint batch_loop (skip_unavailable skip_search : bool) (turns : nat -> IterEnv)
    (i : nat) (remaining : list str) (l : Loop) : Loop * control :=
  match remaining with
  | [] => (l, Next)
  | patent_no :: rest =>
      match batch_step skip_unavailable skip_search (turns i) patent_no l with
      | (l', Next) => batch_loop skip_unavailable skip_search turns (S i) rest l'
      | stopped => stopped
      end
  end.

(** What a run leaves: the list it returns, the loop variables at its end,
    and the two side files it wrote, if any. *)
Record BatchResult : Type := mkBatchResult {
  batch_returned : list PatentRecord;
  last : Loop;
  failed_file : option (list str);
  unavailable_file : option (list str)
}.

Definition nonempty_file (l : list str) : option (list str) :=
  match l with
  | [] => None
  | _ :: _ => Some l
  end.

Definition remaining_patents (output : OutputFile) (patent_list : list str) : list str :=
  filter (not_completed (completed_patents_of output)) patent_list.

(** The variables as the loop finds them *)
Definition loop_start (st : State) (output : OutputFile) : Loop :=
  mkLoop st (existing_results_of output) [] [] 0 0 output [].

Definition process_batch_realtime (st : State) (env : BatchEnv) (output : OutputFile)
    (patent_list : list str) (skip_unavailable skip_search : bool) : BatchResult :=
  let remaining := remaining_patents output patent_list in
  let l0 := loop_start st output in
  match remaining with
  | [] => mkBatchResult [] l0 None None
  | _ :: _ =>
      match first_login env with
      | Raise => mkBatchResult (results l0) l0 None None
      | Ok false => mkBatchResult [] l0 None None
      | Ok true =>
          match batch_loop skip_unavailable skip_search (turn env) 1 remaining l0 with
          | (l, Abort) => mkBatchResult (results l) l None None
          | (l, _) =>
              mkBatchResult (results l) l (nonempty_file (failed_patents l))
                (nonempty_file (unavailable_patents l))
          end
      end
  end.

End Classifier.

End Batch.
Import Batch.

(** ** Time-outs and pauses *)

From Stdlib Require Import Qround Lqa.

Module Pacing.

(** An entry of [timeout_profiles] *)
Record TimeoutProfile : Type := mkTimeoutProfile {
  base : Q;
  increment : Q;
  max_timeout : Q
}.

(** [timeout_profiles] and [delay_profiles] are set by [__init__] and never
    assigned again. *)
Definition timeout_profiles (m : mode) : TimeoutProfile :=
  match m with
  | fast => mkTimeoutProfile 3 (1 # 2) 6
  | normal => mkTimeoutProfile 4 1 8
  end.

(** [delay_profiles]: the entries ["fast_success"], ["normal_success"],
    ["fast_failure"] and ["normal_failure"] *)
Definition delay_profiles (m : mode) (success : bool) : Q * Q :=
  match m, success with
  | fast, true => (3 # 10, 1 # 2)
  | normal, true => (3 # 5, 1)
  | fast, false => (3 # 2, 5 # 2)
  | normal, false => (2, 7 # 2)
  end.

Definition _get_timeout_profile (st : State) : TimeoutProfile :=
  timeout_profiles (performance_mode st).

Definition _adaptive_wait_timeout (st : State) (attempt : Z) : Q :=
  let profile := _get_timeout_profile st in
  let base0 := base profile in
  let increment := increment profile in
  let max_timeout := max_timeout profile in
  let base1 :=
    match _get_average_stage_time st stage_search with
    | Some avg_search =>
        if negb (Qeq_bool avg_search 0) && mode_eqb (performance_mode st) fast then
          if Qle_bool avg_search 8 then Qmax (7 # 2) (base0 - 1)
          else if Qle_bool 12 avg_search then Qmin (base0 + (3 # 2)) max_timeout
          else base0
        else base0
    | None => base0
    end in
  Qmin max_timeout (base1 + inject_Z (attempt - 1) * increment).

(** [random.uniform(a, b)] is [a + (b - a) * random()]; [u] is the number
    that [random()] draws, from 0 to 1. *)
Definition uniform (a b u : Q) : Q := a + (b - a) * u.

Definition _get_adaptive_delay (st : State) (success : bool) (consecutive_failures : nat)
    (u : Q) : Q :=
  if success then
    let '(low, high) := delay_profiles (performance_mode st) true in
    uniform low high u
  else if Nat.ltb 0 consecutive_failures then
    let '(low, high) := delay_profiles (performance_mode st) false in
    let adjustment := Qmin (3 # 2) (inject_Z (Z.of_nat consecutive_failures) * (1 # 2)) in
    uniform (low + adjustment) (high + adjustment) u
  else uniform (4 # 5) (8 # 5) u.

End Pacing.
Import Pacing.

(** ** The guarded search *)

Module Search.

(** What the browser does during one call of [_fallback_search_patent]:
    whether the home page opens and the search box takes the patent number,
    and at each poll whether a result link is found and, if one is, whether
    it opens ([Raise]: the browser raises outside the [try] blocks). *)
Record FallbackEnv : Type := mkFallbackEnv {
  submit : bool;
  poll : nat -> result (option bool)
}.

(** [int(wait_timeout / 0.5)] *)
Definition polls (wait_timeout : Q) : nat := Z.to_nat (Qfloor (wait_timeout / (1 # 2))).

(** [for attempt in range(n)], from poll [i] on: the first poll that finds
    a link ends the loop with what opening the link gives. *)
Fixpoint poll_from (env : FallbackEnv) (n i : nat) : result bool :=
  match n with
  | O => Ok false
  | S n' =>
      match poll env i with
      | Raise => Raise
      | Ok (Some opened) => Ok opened
      | Ok None => poll_from env n' (S i)
      end
  end.

Definition _fallback_search_patent (st : State) (env : FallbackEnv) (wait_timeout : Q)
  : result bool * State :=
  if negb (submit env) then (Ok false, st)
  else
    match poll_from env (polls wait_timeout) 0 with
    | Ok true => (Ok true, set_last_search_used_fallback st true)
    | r => (r, st)
    end.

(** The surroundings of one call of [search_patent_with_guards]: what
    [_primary_search] gives, and the browser during each fallback attempt.
    The page and the screenshot that [_record_search_context] saves and the
    pause of [_gentle_backoff] change nothing in the processor and are left
    out. *)
Record SearchEnv : Type := mkSearchEnv {
  primary : result bool;
  fallback : Z -> FallbackEnv
}.

(** What a guarded search leaves: what it returns, the processor, and the
    fallback attempts it made, each with its time-out. *)
Record Searched : Type := mkSearched {
  search_returned : result bool;
  search_state : State;
  fallback_tried : list (Z * Q)
}.

(** [for attempt in range(2, effective_attempts + 1)], from [attempt] on
    with [n] attempts to go *)
Fixpoint fallback_attempts (st : State) (env : SearchEnv) (n : nat) (attempt : Z)
    (tried : list (Z * Q)) : Searched :=
  match n with
  | O => mkSearched (Ok false) st tried
  | S n' =>
      let wait_timeout := _adaptive_wait_timeout st attempt in
      let tried := tried ++ [(attempt, wait_timeout)] in
      match _fallback_search_patent st (fallback env attempt) wait_timeout with
      | (Raise, st') => mkSearched Raise st' tried
      | (Ok true, st') => mkSearched (Ok true) (set_last_search_used_fallback st' true) tried
      | (Ok false, st') => fallback_attempts st' env n' (attempt + 1) tried
      end
  end.

Definition effective_attempts (st : State) (max_attempts : Z) : Z :=
  if negb (mode_eqb (performance_mode st) fast) then max_attempts
  else Z.max 2 (max_attempts - 1).

Definition search_patent_with_guards (st : State) (env : SearchEnv) (max_attempts : Z)
  : Searched :=
  let st := set_last_search_used_fallback st false in
  match primary env with
  | Raise => mkSearched Raise st []
  | Ok true => mkSearched (Ok true) st []
  | Ok false =>
      fallback_attempts st env (Z.to_nat (effective_attempts st max_attempts - 1)) 2 []
  end.

(** The surroundings of a patent whose search is the guarded search in
    [env], with the default of three attempts *)
Definition searched_by (st : State) (env : SearchEnv) (rest : SingleEnv) : SingleEnv :=
  let out := search_patent_with_guards st env 3 in
  mkSingleEnv (extract_pnk rest) (search_returned out)
    (last_search_used_fallback (search_state out)) (fetch_env rest)
    (search_time rest) (token_time rest) (fetch_time rest).

End Search.
Import Search.

(** ** One patent, without the search and without the book-keeping *)

Module NoSearch.

Section Classifier.

Variable is_organization : pyval -> result bool.

(** [process_single_patent_no_search]: the access key from the page, then
    the record; none of the attributes of the processor is written. *)
Definition process_single_patent_no_search (env : SingleEnv) (patent_no : str)
  : option PatentRecord :=
  match extract_pnk env with
  | Raise => None
  | Ok pnk =>
      if negb (truthy pnk) then None
      else
        let tokens := [(k_pnk, pnk); (k_patent_no, PStr patent_no)] in
        match fetch_details_immediately is_organization (fetch_env env) tokens patent_no with
        | Some patent_data => Some patent_data
        | None => None
        end
  end.

End Classifier.

End NoSearch.
Import NoSearch.

(** ** The names of the downloaded documents *)

Module PdfFolder.

(** The [try] block of [find_examiner_from_pdf_files], on the base name of
    a file: the text between the last underscore and the four characters
    of the extension. *)
Definition examiner_of_filename (filename : str) : str :=
  let name_part := firstn (List.length filename - 4) filename in
  let parts := split_on (N.eqb 95) name_part in
  if Nat.leb 2 (List.length parts) then List.last parts [] else [].

(** [find_examiner_from_pdf_files]; [folder_exists] says whether there is a
    folder [pdfs], and [matching_files] are the base names of the files that
    [glob] finds there for the patent number, in its order. *)
Definition find_examiner_from_pdf_files (folder_exists : bool) (matching_files : list str)
    (patent_type : str) : str :=
  if negb (nonempty patent_type) || negb (str_eqb patent_type invention_application) then []
  else if negb folder_exists then []
  else
    match matching_files with
    | filename :: _ => examiner_of_filename filename
    | [] => []
    end.

End PdfFolder.

(** ** [pdf_renamer.py]: the names it gives *)

Module Renamer.

(** The characters of the class in [sanitize_filename]:
    less-than, greater-than, colon, double quote, slash, backslash, bar,
    question mark and asterisk *)
Definition illegal (c : N) : bool :=
  existsb (N.eqb c) [60; 62; 58; 34; 47; 92; 124; 63; 42]%N.

Definition sanitize_filename (filename : str) : str :=
  let filename := map (fun c => if illegal c then 95%N else c) filename in
  if Nat.ltb 200 (List.length filename) then firstn 200 filename else filename.

(** The name [rename_pdfs] gives a document, and the name it tries with
    [counter] when that one is taken *)
Definition new_filename (patent_number examiner : str) : str :=
  sanitize_filename (patent_number ++ [95%N] ++ examiner ++ lit ".pdf").

Definition conflict_filename (patent_number examiner : str) (counter : Z) : str :=
  sanitize_filename
    (patent_number ++ [95%N] ++ examiner ++ [95%N] ++ decimal counter ++ lit ".pdf").

End Renamer.

(** * Properties *)

Unset Implicit Arguments.
Open Scope nat_scope.

(** ** Strings *)

Lemma str_eqb_eq (a b : str) : str_eqb a b = true <-> a = b.
Proof.
  unfold str_eqb. destruct (list_eq_dec N.eq_dec a b); split; congruence.
Qed.

Lemma str_eqb_refl (a : str) : str_eqb a a = true.
Proof. now apply str_eqb_eq. Qed.

Lemma str_eqb_neq (a b : str) : str_eqb a b = false <-> a <> b.
Proof.
  unfold str_eqb. destruct (list_eq_dec N.eq_dec a b); split; congruence.
Qed.

Lemma mem_In (x : str) (xs : list str) : mem x xs = true <-> In x xs.
Proof.
  unfold mem. rewrite existsb_exists. split.
  - intros [y [Hy He]]. apply str_eqb_eq in He. now subst.
  - intros H. exists x. split; [assumption | apply str_eqb_refl].
Qed.

Lemma mem_not_In (x : str) (xs : list str) : mem x xs = false <-> ~ In x xs.
Proof.
  rewrite <- mem_In. destruct (mem x xs); split; congruence.
Qed.

Example replace_examples :
  replace (lit "CN2020CN1CCNN") (lit "CN") [] = lit "20201CN"
  /\ replace (lit "aXXXb") (lit "XX") (lit "-") = lit "a-Xb"
  /\ replace (lit "2020-01-02") (lit "-") [] = lit "20200102".
Proof. vm_compute. repeat split; reflexivity. Qed.

(** ** Percent-decoding *)

Example unquote_nested : unquote (lit "pnk=ABC%26oid%3D123&folderFlag=X") = lit "pnk=ABC&oid=123&folderFlag=X".
Proof. reflexivity. Qed.

Example unquote_twice : unquote (lit "%2525") = lit "%25" /\ unquote (lit "%25") = lit "%".
Proof. split; reflexivity. Qed.

Example unquote_utf8 : unquote (lit "%E8%A7%A3a%ZZ%4") = lit "解a%ZZ%4".
Proof. reflexivity. Qed.

Example unquote_truncated : unquote (lit "%E8%A7x%FF") = [U_FFFD; 120%N; U_FFFD].
Proof. reflexivity. Qed.

Example unquote_ill_formed :
  unquote (lit "%F0%9F%98") = [U_FFFD]
  /\ unquote (lit "%F0%80%80") = [U_FFFD; U_FFFD; U_FFFD]
  /\ unquote (lit "%ED%A0%80") = [U_FFFD; U_FFFD; U_FFFD]
  /\ unquote (lit "%E4é%B8") = [U_FFFD; 233%N; U_FFFD].
Proof. repeat split; reflexivity. Qed.

(** ** Decoding never lengthens a string *)

Definition pending (st : dstate) : nat :=
  match st with
  | None => 0
  | Some _ => 1
  end.

Lemma start_length (it : item) :
  List.length (fst (start it)) + pending (snd (start it)) <= 1.
Proof.
  destruct it as [b | c]; simpl; [| lia].
  repeat match goal with
         | |- context [if ?c then _ else _] => destruct c
         end; simpl; lia.
Qed.

Lemma feed_length (st : dstate) (it : item) :
  List.length (fst (feed st it)) + pending (snd (feed st it)) <= pending st + 1.
Proof.
  pose proof (start_length it) as H.
  destruct st as [[[[need acc] lo] hi] |]; unfold feed; [| simpl; lia].
  destruct it as [b | c]; [| simpl; lia].
  destruct ((lo <=? b)%N && (b <=? hi)%N).
  - destruct need as [| [| n]]; cbn; lia.
  - destruct (start (Byte b)) as [out st']. simpl in *. lia.
Qed.

Lemma decode_from_length (l : list item) :
  forall st, List.length (decode_from st l) <= pending st + List.length l.
Proof.
  induction l as [| it r IH]; intros st; simpl.
  - destruct st; simpl; lia.
  - pose proof (feed_length st it) as H.
    destruct (feed st it) as [out st']. simpl in H.
    rewrite length_app. specialize (IH st'). lia.
Qed.

Lemma decode_lit_items (s : str) : decode_from None (map lit_item s) = s.
Proof.
  induction s as [| c s IH]; simpl; [reflexivity |].
  unfold lit_item at 1. destruct (c <? 128)%N eqn:E; simpl.
  - rewrite E. simpl. now rewrite IH.
  - now rewrite IH.
Qed.

(** Induction that follows [pct_items]: the tail, and the tail after two
    more characters. *)
Lemma str_ind_skip (P : str -> Prop) :
  P [] ->
  (forall c r, P r -> (forall h1 h2 r2, r = h1 :: h2 :: r2 -> P r2) -> P (c :: r)) ->
  forall s, P s.
Proof.
  intros Hnil Hcons s.
  assert (H : forall n s, List.length s <= n -> P s).
  { induction n as [| n IH]; intros [| c r] Hr; simpl in Hr; try assumption; try lia.
    apply Hcons.
    - apply IH. lia.
    - intros h1 h2 r2 ->. apply IH. simpl in Hr. lia. }
  apply (H (List.length s)). lia.
Qed.

Lemma pct_items_length (s : str) : List.length (pct_items s) <= List.length s.
Proof.
  induction s as [| c r IHr IHskip] using str_ind_skip; [simpl; lia |].
  simpl pct_items. destruct (c =? 37)%N; [| simpl; lia].
  assert (Hkeep : List.length (Byte c :: pct_items r) <= List.length (c :: r))
    by (simpl; lia).
  destruct r as [| h1 [| h2 r2]]; try exact Hkeep.
  specialize (IHskip h1 h2 r2 eq_refl).
  destruct (hexval h1), (hexval h2); try exact Hkeep.
  simpl. lia.
Qed.

(** Either no escape was decoded, or the items are at least two fewer than
    the characters. *)
Lemma pct_items_cases (s : str) :
  pct_items s = map lit_item s \/ List.length (pct_items s) + 2 <= List.length s.
Proof.
  induction s as [| c r IHr _] using str_ind_skip; [now left |].
  simpl pct_items. destruct (c =? 37)%N eqn:E.
  - apply N.eqb_eq in E. subst c.
    assert (Hkeep : Byte 37%N :: pct_items r = map lit_item (37%N :: r)
                    \/ List.length (Byte 37%N :: pct_items r) + 2 <= List.length (37%N :: r)).
    { destruct IHr as [Heq | Hlt]; [left; simpl; now rewrite Heq | right; simpl; lia]. }
    destruct r as [| h1 [| h2 r2]]; try exact Hkeep.
    destruct (hexval h1), (hexval h2); try exact Hkeep.
    right. pose proof (pct_items_length r2). simpl. lia.
  - destruct IHr as [Heq | Hlt].
    + left. simpl. now rewrite Heq.
    + right. simpl. lia.
Qed.

Lemma unquote_shrinks (s : str) :
  unquote s = s \/ List.length (unquote s) + 2 <= List.length s.
Proof.
  unfold unquote, utf8_decode_replace.
  destruct (pct_items_cases s) as [Heq | Hlt].
  - left. rewrite Heq. apply decode_lit_items.
  - right. pose proof (decode_from_length (pct_items s) None). simpl in *. lia.
Qed.

Lemma unquote_length (s : str) : List.length (unquote s) <= List.length s.
Proof.
  destruct (unquote_shrinks s) as [H | H]; [rewrite H |]; lia.
Qed.

(** ** The variant generator halts *)

Lemma plus_to_space_length (s : str) : List.length (plus_to_space s) = List.length s.
Proof. apply length_map. Qed.

Lemma plus_to_space_no_plus (s : str) : has_plus (plus_to_space s) = false.
Proof.
  unfold has_plus, plus_to_space.
  induction s as [| c s IH]; cbn [map existsb]; [reflexivity |].
  rewrite IH, orb_false_r.
  destruct (c =? 43)%N eqn:E; [reflexivity |].
  now rewrite N.eqb_sym.
Qed.

Lemma plus_to_space_id (s : str) : has_plus s = false -> plus_to_space s = s.
Proof.
  unfold has_plus, plus_to_space.
  induction s as [| c s IH]; cbn [map existsb]; [reflexivity |].
  intros H. apply orb_false_iff in H. destruct H as [Hc Hs].
  rewrite N.eqb_sym in Hc. rewrite Hc. now rewrite IH.
Qed.

Lemma weight_unquote (s : str) : unquote s <> s -> weight (unquote s) < weight s.
Proof.
  intros Hne. destruct (unquote_shrinks s) as [H | H]; [contradiction |].
  unfold weight. destruct (has_plus (unquote s)), (has_plus s); lia.
Qed.

Lemma weight_unquote_plus (s : str) :
  unquote_plus s <> s -> weight (unquote_plus s) < weight s.
Proof.
  unfold unquote_plus. intros Hne.
  pose proof (plus_to_space_length s) as Hlen.
  destruct (unquote_shrinks (plus_to_space s)) as [H | H].
  - rewrite H in *. unfold weight.
    rewrite plus_to_space_no_plus, Hlen.
    destruct (has_plus s) eqn:Hp; [lia |].
    now apply plus_to_space_id in Hp.
  - unfold weight.
    destruct (has_plus (unquote (plus_to_space s))), (has_plus s); lia.
Qed.

(** The work left in a queue *)
Definition queue_measure (q : list str) : nat :=
  list_sum (map (fun x => 3 ^ weight x) q).

Lemma queue_measure_app (q : list str) (x : str) :
  queue_measure (q ++ [x]) = queue_measure q + 3 ^ weight x.
Proof.
  unfold queue_measure. rewrite map_app, list_sum_app. simpl. lia.
Qed.

Lemma pow3_pos (n : nat) : 1 <= 3 ^ n.
Proof.
  induction n as [| n IH]; simpl; lia.
Qed.

Lemma pow3_step (a b : nat) : a < b -> 3 * 3 ^ a <= 3 ^ b.
Proof.
  intros H. destruct b as [| b]; [lia |].
  simpl. pose proof (Nat.pow_le_mono_r 3 a b). lia.
Qed.

Lemma variants_step_decreases (st st' : vstate) :
  variants_step st = inl st' -> queue_measure (queue st') < queue_measure (queue st).
Proof.
  unfold variants_step. destruct (queue st) as [| current queue0]; [discriminate |].
  assert (Hhead : queue_measure (current :: queue0)
                  = 3 ^ weight current + queue_measure queue0) by reflexivity.
  pose proof (pow3_pos (weight current)) as Hpos.
  destruct (mem current (seen st)).
  - intros H. injection H as <-. simpl queue. lia.
  - cbv zeta. set (seen1 := current :: seen st).
    assert (H1 : forall d, d = unquote current \/ d = unquote_plus current ->
                           negb (mem d seen1) && negb (str_eqb d current) = true ->
                           3 * 3 ^ weight d <= 3 ^ weight current).
    { intros d Hd Hpush. apply andb_true_iff in Hpush. destruct Hpush as [_ Hne].
      apply negb_true_iff, str_eqb_neq in Hne. apply pow3_step.
      destruct Hd as [-> | ->]; [now apply weight_unquote | now apply weight_unquote_plus]. }
    pose proof (H1 (unquote current) (or_introl eq_refl)) as Ha.
    pose proof (H1 (unquote_plus current) (or_intror eq_refl)) as Hb.
    destruct (negb (mem (unquote current) seen1) && negb (str_eqb (unquote current) current));
      destruct (negb (mem (unquote_plus current) seen1)
                && negb (str_eqb (unquote_plus current) current));
      intros H; injection H as <-; cbn [queue];
      rewrite ?queue_measure_app;
      try specialize (Ha eq_refl); try specialize (Hb eq_refl); lia.
Qed.

(** A loop whose body makes a measure smaller returns before the measure
    is used up. *)
Lemma loop_until_progress {S R : Type} (mu : S -> nat) (step : S -> S + R) :
  (forall s s', step s = inl s' -> mu s' < mu s) ->
  forall n s, match loop_until n step s with
              | inl s' => mu s' + 2 ^ n <= mu s
              | inr _ => True
              end.
Proof.
  intros Hdec. induction n as [| n IH]; intros s; simpl.
  - destruct (step s) as [s' |] eqn:E; [| exact I].
    apply Hdec in E. lia.
  - specialize (IH s) as H1.
    destruct (loop_until n step s) as [s1 |]; [| exact I].
    specialize (IH s1) as H2.
    destruct (loop_until n step s1) as [s2 |]; [| exact I].
    lia.
Qed.

Lemma loop_until_finishes {S R : Type} (mu : S -> nat) (step : S -> S + R) :
  (forall s s', step s = inl s' -> mu s' < mu s) ->
  forall n s, mu s < 2 ^ n -> exists r, loop_until n step s = inr r.
Proof.
  intros Hdec n s Hlt. pose proof (loop_until_progress mu step Hdec n s) as H.
  destruct (loop_until n step s) as [s' | r]; [lia | now exists r].
Qed.

Lemma loop_until_invariant {S R : Type} (P : S -> Prop) (Q : R -> Prop) (step : S -> S + R) :
  (forall s s', P s -> step s = inl s' -> P s') ->
  (forall s r, P s -> step s = inr r -> Q r) ->
  forall n s, P s -> match loop_until n step s with
                     | inl s' => P s'
                     | inr r => Q r
                     end.
Proof.
  intros Hstep Hret. induction n as [| n IHn]; intros s Hs; simpl.
  - destruct (step s) eqn:E; eauto.
  - pose proof (IHn s Hs) as IH. destruct (loop_until n step s) as [s1 |]; [| exact IH].
    now apply IHn.
Qed.

Example variants_nested :
  _iter_decoded_variants (lit "pnk=ABC%26oid%3D123&folderFlag=X")
  = [lit "pnk=ABC%26oid%3D123&folderFlag=X"; lit "pnk=ABC&oid=123&folderFlag=X"].
Proof. vm_compute. reflexivity. Qed.

(** Decoding [%2525] over and over stops at [%]. *)
Example variants_cycle :
  _iter_decoded_variants (lit "a+b%2525")
  = [lit "a+b%2525"; lit "a+b%25"; lit "a b%25"; lit "a+b%"; lit "a b%"].
Proof. vm_compute. reflexivity. Qed.

Lemma variants_fuel_enough (value : str) : 3 ^ weight value < 2 ^ variants_fuel value.
Proof.
  unfold variants_fuel. generalize (weight value) as w. intros w.
  rewrite Nat.pow_add_r, Nat.pow_mul_r. change (2 ^ 2) with 4. change (2 ^ 1) with 2.
  pose proof (Nat.pow_le_mono_l 3 4 w). pose proof (pow3_pos w). lia.
Qed.

Lemma variants_loop_returns (value : str) : exists vs, variants_loop value = inr vs.
Proof.
  apply (loop_until_finishes (fun st => queue_measure (queue st))).
  - exact variants_step_decreases.
  - change (3 ^ weight value + 0 < 2 ^ variants_fuel value).
    rewrite Nat.add_0_r. apply variants_fuel_enough.
Qed.

(** What the loop keeps true: the variants are distinct, and each is in
    the set of strings seen. *)
Definition variants_inv (st : vstate) : Prop :=
  NoDup (variants st) /\ forall x, In x (variants st) -> In x (seen st).

Lemma variants_step_keeps (st st' : vstate) :
  variants_inv st -> variants_step st = inl st' -> variants_inv st'.
Proof.
  unfold variants_step, variants_inv. intros [Hnd Hsub].
  destruct (queue st) as [| current queue0]; [discriminate |].
  destruct (mem current (seen st)) eqn:Hmem.
  - intros H. injection H as <-. cbn [variants seen]. now split.
  - cbv zeta. intros H. injection H as <-. cbn [variants seen].
    apply mem_not_In in Hmem. split.
    + apply NoDup_app; [exact Hnd | apply NoDup_cons; [intros [] | constructor] |].
      intros x Hx [<- | []]. apply Hmem, Hsub, Hx.
    + intros x Hx. apply in_app_or in Hx. destruct Hx as [Hx | [<- | []]].
      * right. now apply Hsub.
      * now left.
Qed.

Lemma variants_loop_distinct (value : str) :
  match variants_loop value with
  | inl st => variants_inv st
  | inr vs => NoDup vs
  end.
Proof.
  apply (loop_until_invariant variants_inv (fun vs : list str => NoDup vs)).
  - exact variants_step_keeps.
  - intros st vs [Hnd _]. unfold variants_step.
    destruct (queue st) as [| c q]; [now intros [= <-] |].
    destruct (mem c (seen st)); discriminate.
  - split; [constructor | intros x []].
Qed.

(** C3. For every input string the loop of [_iter_decoded_variants] comes to
    its [return] within the iterations allotted to it, and the list it
    returns has no string twice. *)
Theorem C3_variants_halt_distinct (value : str) :
  (exists vs, variants_loop value = inr vs
              /\ _iter_decoded_variants value = if nonempty value then vs else [])
  /\ NoDup (_iter_decoded_variants value).
Proof.
  pose proof (variants_loop_distinct value) as Hnd.
  destruct (variants_loop_returns value) as [vs Hvs].
  unfold _iter_decoded_variants. rewrite Hvs in *.
  split.
  - exists vs. split; [reflexivity |]. now destruct value.
  - destruct value; [constructor | exact Hnd].
Qed.

(** ** The decoder on the response of the specification *)

Definition c1_text : str := lit_json "{`data`:`pnk=ABC%26oid%3D123&folderFlag=X`}".

Definition c1_decoded : str := lit_json "{`data`:`pnk=ABC&oid=123&folderFlag=X`}".

Lemma c1_candidates : _iter_decoded_variants c1_text = [c1_text; c1_decoded].
Proof. vm_compute. reflexivity. Qed.

Lemma c1_payload :
  loads c1_text = Ok (PDict [(lit "data", PStr (lit "pnk=ABC%26oid%3D123&folderFlag=X"))]).
Proof. vm_compute. reflexivity. Qed.

(** The part [folderFlag=X] does not pass the test for [folderflag=], in
    lower case, so the name is never collected and the three names are
    never all there. *)
Lemma c1_query_pairs :
  scan_variants [] (_iter_decoded_variants (lit "pnk=ABC%26oid%3D123&folderFlag=X"))
  = [(k_pnk, lit "ABC"); (k_oid, lit "123")].
Proof. vm_compute. reflexivity. Qed.

Lemma c1_json_step_text (content_type : str) :
  tokens_from_json_text content_type c1_text = None.
Proof.
  unfold tokens_from_json_text.
  replace (starts_like_json c1_text) with true by (vm_compute; reflexivity).
  rewrite orb_true_r. vm_compute. reflexivity.
Qed.

Lemma c1_json_step_decoded (content_type : str) :
  tokens_from_json_text content_type c1_decoded = None.
Proof.
  unfold tokens_from_json_text.
  replace (starts_like_json c1_decoded) with true by (vm_compute; reflexivity).
  rewrite orb_true_r. vm_compute. reflexivity.
Qed.

(** C1. On the response text of the specification, under any content type,
    [_parse_search_response_for_tokens] returns [None], not the token set
    with [pnk] and [oid]. *)
Theorem C1_decoder_returns_none (content_type : option str) :
  _parse_search_response_for_tokens c1_text content_type = None.
Proof.
  unfold _parse_search_response_for_tokens.
  replace (nonempty c1_text) with true by (vm_compute; reflexivity).
  cbn [negb]. rewrite c1_candidates. unfold parse_steps. cbn [first_some].
  rewrite c1_json_step_text, c1_json_step_decoded.
  vm_compute. reflexivity.
Qed.

(** The same text with a part that passes the test gives the token set the
    specification expects. *)
Example decoder_with_all_names :
  _parse_search_response_for_tokens
    (lit_json "{`data`:`pnk=ABC%26oid%3D123&folderFlag=Xoid=`}") None
  = Some [(k_pnk, PStr (lit "ABC")); (k_oid, PStr (lit "123"))].
Proof. vm_compute. reflexivity. Qed.

(** ** The operating mode *)

(** An instance as the base class may leave it: no template, no failure,
    a request timeout of 6. *)
Definition plain_base : Inherited := mkInherited None 0 0 [] 6.



Lemma slow_search_above_12 (a : Q) : (12 < a)%Q -> slow_search (Some a) = true.
Proof.
  intros H. unfold slow_search. apply andb_true_iff. split; apply negb_true_iff.
  - destruct (Qeq_bool a 0) eqn:E; [| reflexivity].
    apply Qeq_bool_iff in E. rewrite E in H. discriminate H.
  - destruct (Qle_bool a 12) eqn:E; [| reflexivity].
    apply Qle_bool_iff in E. exfalso. exact (Qlt_not_le _ _ H E).
Qed.

(** Every update that leaves [normal] mode behind a failure or a fallback
    success, or that leaves [fast] mode, starts the streak at 0: in
    [normal] mode the streak counts the successes since the mode was
    entered. *)
Lemma normal_mode_entered_with_streak_0 (st : State) (success used_fallback : bool) :
  performance_mode (_update_performance_profile st success used_fallback) = normal ->
  performance_mode st = fast \/ success = false \/ used_fallback = true ->
  success_streak (_update_performance_profile st success used_fallback) = 0.
Proof.
  unfold _update_performance_profile.
  destruct success, used_fallback; cbn [negb set_mode performance_mode success_streak];
    try reflexivity.
  intros Hm [Hf | [Hs | Hu]]; try discriminate.
  rewrite Hf in *. cbn [mode_eqb andb] in *.
  destruct (slow_search (_get_average_stage_time st stage_search)); [reflexivity | discriminate].
Qed.

(** C5. [sn] is a processor in [normal] mode whose streak is at 0, [sf] a
    processor in [fast] mode, [ss] a processor in [fast] mode whose average
    search time [a] is above 12.  Three non-fallback successes in a row take
    [sn] to [fast] mode (and two do not); one failure takes [sf] to
    [normal] mode with a streak of 0; so does a success that used the
    fallback, in any mode; and so does every outcome recorded on [ss]. *)
Theorem C5_mode_transitions (sn sf ss : State) (a : Q) :
  performance_mode sn = normal -> success_streak sn = 0 -> fast_mode_trigger sn = 3 ->
  performance_mode sf = fast ->
  performance_mode ss = fast -> _get_average_stage_time ss stage_search = Some a ->
  (12 < a)%Q ->
  let s1 := _update_performance_profile sn true false in
  let s2 := _update_performance_profile s1 true false in
  let s3 := _update_performance_profile s2 true false in
  (performance_mode s1 = normal /\ performance_mode s2 = normal
   /\ performance_mode s3 = fast /\ success_streak s3 = 0)
  /\ (forall used_fallback,
        performance_mode (_update_performance_profile sf false used_fallback) = normal
        /\ success_streak (_update_performance_profile sf false used_fallback) = 0)
  /\ (forall st,
        performance_mode (_update_performance_profile st true true) = normal
        /\ success_streak (_update_performance_profile st true true) = 0)
  /\ (forall success used_fallback,
        performance_mode (_update_performance_profile ss success used_fallback) = normal
        /\ success_streak (_update_performance_profile ss success used_fallback) = 0).
Proof.
  intros Hn Hs Ht Hf Hss Havg Ha s1 s2 s3.
  assert (E1 : s1 = set_mode sn normal 1).
  { unfold s1, _update_performance_profile. simpl. now rewrite Hn, Hs, Ht. }
  assert (E2 : s2 = set_mode sn normal 2).
  { unfold s2, _update_performance_profile. rewrite E1. simpl. now rewrite Ht. }
  assert (E3 : s3 = set_mode sn fast 0).
  { unfold s3, _update_performance_profile. rewrite E2. simpl. now rewrite Ht. }
  rewrite E1, E2, E3. repeat split.
  - unfold _update_performance_profile.
    destruct success, used_fallback; cbn [negb set_mode performance_mode]; try reflexivity.
    rewrite Hss, Havg, (slow_search_above_12 a Ha). reflexivity.
  - unfold _update_performance_profile.
    destruct success, used_fallback; cbn [negb set_mode success_streak]; try reflexivity.
    rewrite Hss, Havg, (slow_search_above_12 a Ha). reflexivity.
Qed.

Definition normal_start : State := set_mode (__init__ plain_base) normal 0.

Definition slow_fast : State :=
  _record_stage_time (__init__ plain_base) stage_search 13.

Lemma C5_mode_transitions_witness :
  let s3 := _update_performance_profile
              (_update_performance_profile
                 (_update_performance_profile normal_start true false) true false)
              true false in
  performance_mode s3 = fast
  /\ performance_mode (_update_performance_profile (__init__ plain_base) false false) = normal
  /\ performance_mode (_update_performance_profile slow_fast true false) = normal.
Proof.
  assert (Ha : (12 < 13)%Q) by reflexivity.
  pose proof (@C5_mode_transitions normal_start (__init__ plain_base) slow_fast 13
                eq_refl eq_refl eq_refl eq_refl eq_refl eq_refl Ha) as H.
  cbv zeta in H. destruct H as [[_ [_ [H3 _]]] [Hf [_ Hs]]].
  split; [exact H3 |]. split; [exact (proj1 (Hf false)) | exact (proj1 (Hs true false))].
Defined.

(** ** The failure ledger *)

Ltac fields :=
  cbn [direct_search_template direct_search_failures direct_search_disabled_until
       direct_search_blocklist direct_search_timeout search_success_count
       search_fail_count performance_mode success_streak last_search_used_fallback
       fast_mode_trigger max_speed_samples speed_stats
       set_template set_failures set_disabled_until set_blocklist
       set_search_success_count set_search_fail_count set_mode
       set_last_search_used_fallback set_speed_stats] in *.

Ltac split_ifs :=
  repeat match goal with
         | |- context [if ?c then _ else _] => destruct c eqn:?
         | |- context [match ?c with Some _ => _ | None => _ end] => destruct c eqn:?
         end.

Definition reason_text_of (reason : option str) : str :=
  match reason with
  | Some r => if nonempty r then r else reason_unknown
  | None => reason_unknown
  end.

Lemma register_failures (st : State) (now : Q) (reason patent_no : option str) :
  direct_search_failures (_register_direct_search_failure st now reason patent_no)
  = S (direct_search_failures st).
Proof.
  unfold _register_direct_search_failure. split_ifs; reflexivity.
Qed.

Lemma register_timeout (st : State) (now : Q) (reason patent_no : option str) :
  direct_search_timeout (_register_direct_search_failure st now reason patent_no)
  = direct_search_timeout st.
Proof.
  unfold _register_direct_search_failure. split_ifs; reflexivity.
Qed.

Lemma register_disabled_until (st : State) (now : Q) (reason patent_no : option str) :
  2 <= direct_search_failures st ->
  direct_search_disabled_until (_register_direct_search_failure st now reason patent_no)
  = (now + Qmax 180 (direct_search_timeout st * 10))%Q.
Proof.
  intros H. unfold _register_direct_search_failure.
  assert (Hleb : forall s : State,
             direct_search_failures s = S (direct_search_failures st) ->
             Nat.leb 3 (direct_search_failures s) = true).
  { intros s ->. apply Nat.leb_le. lia. }
  split_ifs; try reflexivity;
    match goal with
    | E : Nat.leb 3 (direct_search_failures ?s) = false |- _ =>
        rewrite (Hleb s) in E by reflexivity; discriminate E
    end.
Qed.

(** The denylist after a failure is registered *)
Lemma register_blocklist (st : State) (now : Q) (reason : option str) (p : str) :
  direct_search_blocklist (_register_direct_search_failure st now reason (Some p))
  = if nonempty p && mem (reason_text_of reason) parse_reasons
       && negb (mem p (direct_search_blocklist st))
    then p :: direct_search_blocklist st
    else direct_search_blocklist st.
Proof.
  unfold _register_direct_search_failure. fold (reason_text_of reason).
  destruct (nonempty p); cbn [andb].
  - destruct (mem (reason_text_of reason) parse_reasons); cbn [andb].
    + rewrite !andb_true_r. destruct (mem p (direct_search_blocklist st)) eqn:Hm;
        destruct (Nat.leb 2 (direct_search_failures (set_failures st
                                                      (S (direct_search_failures st)))));
        fields; rewrite ?Hm; cbn [negb]; split_ifs; reflexivity.
    + rewrite !andb_false_r. fields. split_ifs; reflexivity.
  - fields. split_ifs; reflexivity.
Qed.

Lemma register_blocklist_grows (st : State) (now : Q) (reason patent_no : option str) (p : str) :
  In p (direct_search_blocklist st) ->
  In p (direct_search_blocklist (_register_direct_search_failure st now reason patent_no)).
Proof.
  intros H. destruct patent_no as [q |].
  - rewrite register_blocklist. split_ifs; [now right | assumption].
  - unfold _register_direct_search_failure. split_ifs; assumption.
Qed.

(** A lookup for a patent on the denylist, or during the cooldown, returns
    [None] at once: nothing is sent and nothing changes. *)
Lemma fetch_denied (st : State) (env : DirectEnv) (p : str) :
  In p (direct_search_blocklist st) ->
  _direct_fetch_tokens st env p = mkOutcome (Ok None) st [].
Proof.
  intros H. unfold _direct_fetch_tokens. apply mem_In in H. now rewrite H.
Qed.

Lemma fetch_cooling (st : State) (env : DirectEnv) (p : str) :
  ~ (direct_search_disabled_until st == 0)%Q ->
  (time_at_check env < direct_search_disabled_until st)%Q ->
  _direct_fetch_tokens st env p = mkOutcome (Ok None) st [].
Proof.
  intros Hset Hlt. unfold _direct_fetch_tokens.
  destruct (mem p (direct_search_blocklist st)); [reflexivity |].
  destruct (direct_search_template st); [| reflexivity].
  assert (E1 : Qeq_bool (direct_search_disabled_until st) 0 = false).
  { destruct (Qeq_bool (direct_search_disabled_until st) 0) eqn:E; [| reflexivity].
    apply Qeq_bool_iff in E. contradiction. }
  assert (E2 : Qle_bool (direct_search_disabled_until st) (time_at_check env) = false).
  { destruct (Qle_bool (direct_search_disabled_until st) (time_at_check env)) eqn:E;
      [| reflexivity].
    apply Qle_bool_iff in E. exfalso. exact (Qlt_not_le _ _ Hlt E). }
  rewrite E1, E2. reflexivity.
Qed.

(** C6. When a failure is registered at time [now] (not before the epoch)
    and brings the counter to 3 or more, the cooldown ends at
    [now + max(180, 10 * timeout)]; every lookup whose clock is before that
    time returns [None], sends no request and leaves the state as it is,
    whether or not a template is cached. *)
Theorem C6_circuit_breaker (st : State) (now : Q) (reason patent_no : option str) :
  2 <= direct_search_failures st ->
  (0 <= now)%Q ->
  let st' := _register_direct_search_failure st now reason patent_no in
  direct_search_disabled_until st' = (now + Qmax 180 (direct_search_timeout st * 10))%Q
  /\ forall (env : DirectEnv) (p : str),
       (time_at_check env < direct_search_disabled_until st')%Q ->
       _direct_fetch_tokens st' env p = mkOutcome (Ok None) st' [].
Proof.
  intros Hf Hnow st'. pose proof (@register_disabled_until st now reason patent_no Hf) as Hd.
  fold st' in Hd. split; [exact Hd |].
  intros env p Hlt. apply fetch_cooling; [| exact Hlt].
  rewrite Hd. intros Hz.
  pose proof (Q.le_max_l 180 (direct_search_timeout st * 10)) as Hmax.
  assert (H180 : (0 < 180)%Q) by reflexivity.
  assert (Hpos : (0 < now + Qmax 180 (direct_search_timeout st * 10))%Q).
  { apply Qlt_le_trans with (0 + 180)%Q; [reflexivity |].
    apply Qplus_le_compat; assumption. }
  rewrite Hz in Hpos. discriminate Hpos.
Qed.

Definition sample_template : Template :=
  mkTemplate (lit "https://www.incopat.com/search?q={PATENT_NO}") (lit "GET") [] None.

Definition sample_patent : str := lit "CN102345678A".

(** A processor with a cached template and two failures on the counter *)
Definition two_failures : State :=
  set_failures (set_template (__init__ plain_base) (Some sample_template)) 2.

Lemma C6_circuit_breaker_witness :
  let st' := _register_direct_search_failure two_failures 1000
               (Some reason_script_timeout) (Some sample_patent) in
  direct_search_template st' = Some sample_template
  /\ direct_search_disabled_until st' = (1000 + Qmax 180 (6 * 10))%Q
  /\ _direct_fetch_tokens st' (mkDirectEnv 1100 1100 BrowserTimeout (Ok None)) sample_patent
     = mkOutcome (Ok None) st' [].
Proof.
  assert (H2 : 2 <= direct_search_failures two_failures) by (vm_compute; lia).
  assert (H0 : (0 <= 1000)%Q) by discriminate.
  pose proof (C6_circuit_breaker two_failures 1000 (Some reason_script_timeout)
                (Some sample_patent) H2 H0) as [Hd Hl].
  split; [reflexivity |]. split; [exact Hd |].
  apply Hl. vm_compute. reflexivity.
Defined.

(** The denylist never loses a patent. *)
Lemma decode_response_blocklist_grows (st : State) (env : DirectEnv) (p : str)
    (response : option Response) (sent : list replay) (q : str) :
  In q (direct_search_blocklist st) ->
  In q (direct_search_blocklist (state_after (decode_response st env p response sent))).
Proof.
  intros H. unfold decode_response.
  destruct (parse_call response) as [[toks |] |]; cbn [state_after]; fields;
    try assumption; now apply register_blocklist_grows.
Qed.

Lemma fetch_blocklist_grows (st : State) (env : DirectEnv) (p q : str) :
  In q (direct_search_blocklist st) ->
  In q (direct_search_blocklist (state_after (_direct_fetch_tokens st env p))).
Proof.
  intros H. unfold _direct_fetch_tokens.
  destruct (mem p (direct_search_blocklist st)); [exact H |].
  destruct (direct_search_template st); [| exact H].
  match goal with
  | |- context [if ?c then mkOutcome (Ok None) st [] else _] => destruct c; [exact H |]
  end.
  set (st1 := if negb (Qeq_bool (direct_search_disabled_until st) 0)
              then set_failures (set_disabled_until st 0) 0 else st).
  assert (H1 : In q (direct_search_blocklist st1)).
  { unfold st1. destruct (negb (Qeq_bool (direct_search_disabled_until st) 0)); exact H. }
  clearbody st1.
  destruct (browser_exec env) as [r | | message |]; cbv beta iota zeta;
    repeat match goal with
           | |- context [if ?c then _ else _] => destruct c
           | |- context [match requests_exec env with _ => _ end] =>
               destruct (requests_exec env) as [[fallback |] |]
           | |- context [match ?r with Some _ => _ | None => _ end] => destruct r
           end;
    cbn [state_after];
    try exact H1;
    try (now apply register_blocklist_grows);
    try (now apply decode_response_blocklist_grows).
Qed.

(** C7, as the specification has it, fails.  The browser script times out
    and the second transport fails: the failure is registered, the patent
    is not put on the denylist, and the next lookup replays the template
    for it again. *)
Lemma C7_transport_failure_not_denylisted :
  let ready := set_template (__init__ plain_base) (Some sample_template) in
  let env := mkDirectEnv 50 50 BrowserTimeout
               (Ok (Some (mkResponse false 0 [] [] (lit "connection reset")))) in
  let first := _direct_fetch_tokens ready env sample_patent in
  returned first = Ok None
  /\ direct_search_failures (state_after first) = 1
  /\ ~ In sample_patent (direct_search_blocklist (state_after first))
  /\ replays (_direct_fetch_tokens (state_after first) env sample_patent)
     = [ViaBrowser; ViaRequests].
Proof.
  vm_compute. repeat split. intros [].
Qed.

(** C7, amended. A failure registered for a patent (a non-empty number)
    with one of the two decode reasons puts the patent on the denylist, and
    in every state whose denylist holds it a lookup for the patent returns
    [None] and sends nothing; a failure registered with any other reason
    leaves the denylist as it was. *)
Theorem C7_decode_failures_denylist (st : State) (now : Q) (reason : option str) (p : str) :
  nonempty p = true ->
  let st' := _register_direct_search_failure st now reason (Some p) in
  if mem (reason_text_of reason) parse_reasons
  then In p (direct_search_blocklist st')
       /\ forall (later : State) (env : DirectEnv),
            incl (direct_search_blocklist st') (direct_search_blocklist later) ->
            _direct_fetch_tokens later env p = mkOutcome (Ok None) later []
  else direct_search_blocklist st' = direct_search_blocklist st.
Proof.
  intros Hp st'. unfold st'. rewrite register_blocklist, Hp. cbn [andb].
  destruct (mem (reason_text_of reason) parse_reasons); cbn [andb]; [| reflexivity].
  assert (Hin : In p (if negb (mem p (direct_search_blocklist st))
                      then p :: direct_search_blocklist st
                      else direct_search_blocklist st)).
  { destruct (mem p (direct_search_blocklist st)) eqn:E; cbn [negb];
      [now apply mem_In | now left]. }
  split; [exact Hin |].
  intros later env Hincl. apply fetch_denied, Hincl, Hin.
Qed.

Lemma C7_decode_failures_denylist_witness :
  let st' := _register_direct_search_failure two_failures 1000 (Some reason_no_tokens)
               (Some sample_patent) in
  In sample_patent (direct_search_blocklist st')
  /\ _direct_fetch_tokens st' (mkDirectEnv 2000 2000 BrowserTimeout (Ok None)) sample_patent
     = mkOutcome (Ok None) st' [].
Proof.
  pose proof (C7_decode_failures_denylist two_failures 1000 (Some reason_no_tokens)
                sample_patent eq_refl) as H.
  cbv zeta in H.
  replace (mem (reason_text_of (Some reason_no_tokens)) parse_reasons) with true in H
    by (vm_compute; reflexivity).
  destruct H as [Hin Hl]. split; [exact Hin |].
  apply Hl. apply incl_refl.
Defined.

(** ** The record fetcher *)

Section FetcherProperties.

Variable is_organization : pyval -> result bool.

Lemma parse_details_shape (env : FetchEnv) (data : pyval)
    (patent_no patent_type application_number : str) (r : PatentRecord) :
  parse_patent_json_for_details is_organization env data patent_no patent_type
    application_number = Ok r ->
  exists application_date inventors first_applicant abstract examiner first_claim,
    r = [(k_patent_no, PStr patent_no);
         (k_patent_type, PStr patent_type);
         (k_application_date, PStr application_date);
         (k_application_number, PStr application_number);
         (k_inventors, inventors);
         (k_first_applicant, first_applicant);
         (k_abstract, abstract);
         (k_examiner, examiner);
         (k_first_claim, first_claim)].
Proof.
  unfold parse_patent_json_for_details, bind. intros H.
  repeat match type of H with
         | match ?e with Ok _ => _ | Raise => _ end = _ =>
             destruct e; [| discriminate H]
         end.
  injection H as <-. repeat eexists.
Qed.

Lemma truthy_not_none (v : pyval) : truthy v = true -> v <> PNone.
Proof. intros H ->. discriminate H. Qed.

Lemma py_len_not_none (v : pyval) (n : nat) : py_len v = Ok n -> v <> PNone.
Proof. intros H ->. discriminate H. Qed.

Lemma scan_examiner_not_none (items : list pyval) : scan_examiner items <> PNone.
Proof.
  induction items as [| item rest IH]; cbn [scan_examiner]; [discriminate |].
  destruct item; try exact IH.
  match goal with
  | |- (if ?c then _ else _) <> _ => destruct c eqn:E; [| exact IH]
  end.
  apply andb_true_iff in E. destruct E as [_ E]. now apply truthy_not_none.
Qed.

(** A case analysis on what a hypothesis computes with *)
Ltac cases_in H :=
  repeat match type of H with
         | context [if ?c then _ else _] => destruct c eqn:?
         | context [match ?e with Ok _ => _ | Raise => _ end] => destruct e eqn:?
         | context [match ?e with PList _ => _ | _ => _ end] => destruct e eqn:?
         | context [match ?e with [] => _ | _ :: _ => _ end] => destruct e eqn:?
         end.

(** In a record that [parse_patent_json_for_details] returns, every value
    other than [inventors] is an object, not [None]. *)
Lemma parse_details_values (env : FetchEnv) (data : pyval)
    (patent_no patent_type application_number : str) (r : PatentRecord) :
  parse_patent_json_for_details is_organization env data patent_no patent_type
    application_number = Ok r ->
  forall k v, In (k, v) r -> k <> k_inventors -> v <> PNone.
Proof.
  unfold parse_patent_json_for_details, bind. intros H.
  repeat match type of H with
         | match ?e with Ok _ => _ | Raise => _ end = _ =>
             let E := fresh "E" in destruct e eqn:E; [| discriminate H]
         end.
  injection H as <-.
  assert (H3 : a3 <> PNone).
  { clear - E3. cases_in E3; try discriminate E3; injection E3 as <-;
      try discriminate; now apply truthy_not_none. }
  assert (H5 : a5 <> PNone).
  { clear - E5. cases_in E5; try discriminate E5; injection E5 as <-;
      try discriminate; eapply py_len_not_none; eassumption. }
  assert (H7 : a7 <> PNone).
  { clear - E7. cases_in E7; try discriminate E7; injection E7 as <-;
      try discriminate; eapply py_len_not_none; eassumption. }
  intros k v Hin Hk. cbn [In] in Hin.
  repeat (destruct Hin as [Hin | Hin]; [injection Hin as <- <-; try discriminate |]);
    try contradiction; try assumption.
  match goal with
  | |- (if ?c then _ else _) <> _ => destruct c; [discriminate |]
  end.
  destruct a8; try discriminate. apply scan_examiner_not_none.
Qed.



(** The [an] of the common-info answer *)
Definition common_an (env : FetchEnv) : result pyval :=
  common <- api_data (common_info env) ;;
  match common with
  | Some common_data => py_get common_data (lit "an") (PStr [])
  | None => Raise
  end.

(** What a fetch that returns a record went through *)
Lemma fetch_inversion (env : FetchEnv) (tokens : dict pyval) (patent_no : str)
    (r : PatentRecord) :
  fetch_details_immediately is_organization env tokens patent_no = Some r ->
  exists common_data data an patent_type application_number,
    api_data (common_info env) = Ok (Some common_data)
    /\ api_data (base_info env) = Ok (Some data)
    /\ py_get common_data (lit "an") (PStr []) = Ok an
    /\ strip_cn an = Ok application_number
    /\ parse_patent_json_for_details is_organization env data patent_no patent_type
         application_number = Ok r.
Proof.
  unfold fetch_details_immediately, fetch_details_body, try_except, bind.
  destruct (truthy (get_or tokens k_pnk (PStr []))); cbn [negb]; [| discriminate].
  destruct (py_slice (get_or tokens k_pnk (PStr []))); [| discriminate].
  destruct (browser_session env); [| discriminate].
  destruct (api_data (common_info env)) as [[common_data |] |] eqn:Hc; try discriminate.
  destruct (py_get common_data (lit "pt") (PStr [])) as [pt |]; [| discriminate].
  destruct (py_get common_data (lit "an") (PStr [])) as [an |] eqn:Han; [| discriminate].
  destruct (type_of_code pt) as [patent_type |]; [| discriminate].
  destruct (api_data (base_info env)) as [[data |] |] eqn:Hb; try discriminate.
  destruct (negb (truthy data) || negb (is_dict data)); [discriminate |].
  destruct (strip_cn an) as [application_number |] eqn:Hn; [| discriminate].
  destruct (parse_patent_json_for_details is_organization env data patent_no patent_type
              application_number) as [details |] eqn:Hp; [| discriminate].
  intros [= <-]. exists common_data, data, an, patent_type, application_number.
  split; [reflexivity |]. split; [reflexivity |]. split; [exact Han |].
  split; [exact Hn | exact Hp].
Qed.


Lemma fetch_values_not_none (env : FetchEnv) (tokens : dict pyval) (patent_no : str)
    (r : PatentRecord) :
  fetch_details_immediately is_organization env tokens patent_no = Some r ->
  forall k v, In (k, v) r -> k <> k_inventors -> v <> PNone.
Proof.
  intros H. apply fetch_inversion in H.
  destruct H as (common_data & data & an & patent_type & number & _ & _ & _ & _ & Hp).
  exact (parse_details_values _ _ _ _ _ _ Hp).
Qed.

End FetcherProperties.

(** The answers of a service that knows the patent but has no inventor on
    file: [in_or] is [null]. *)
Definition answer (data : pyval) : result Http :=
  Ok (mkHttp 200 (Ok (PDict [(lit "status", PBool true); (lit "data", data)]))).

Definition null_inventors_env : FetchEnv :=
  mkFetchEnv (Ok tt)
    (answer (PDict [(lit "pt", PStr (lit "1")); (lit "an", PStr (lit "CN201010123456"))]))
    (answer (PDict [(lit "bibliographicItems", PDict [(lit "in_or", PNone)])]))
    (fun _ => []).

(** C8. With a base-info answer whose [in_or] is [null],
    [fetch_details_immediately] returns a record whose [inventors] is
    [None]: the nine names are there, but one of them is bound to null. *)
Theorem C8_record_with_null_inventors (is_organization : pyval -> result bool) :
  exists r,
    fetch_details_immediately is_organization null_inventors_env
      [(k_pnk, PStr (lit "PNK"))] sample_patent = Some r
    /\ keys r = record_keys
    /\ dict_get r k_inventors = Some PNone.
Proof.
  eexists. split; [vm_compute; reflexivity |]. split; vm_compute; reflexivity.
Qed.

(** ** The application number *)

Definition CN : str := [67%N; 78%N].

Lemma CN_is_lit : lit "CN" = CN.
Proof. reflexivity. Qed.

(** The pieces of a string, with the separator between them *)
Fixpoint join (sep : str) (pieces : list str) : str :=
  match pieces with
  | [] => []
  | p :: ps => match ps with
               | [] => p
               | _ :: _ => p ++ sep ++ join sep ps
               end
  end.

Definition no_CN (p : str) : Prop := contains p CN = false.

Lemma startswith_nil (s : str) : startswith s [] = true.
Proof. now destruct s. Qed.

(** A piece without [CN] is copied as it is, when what follows is the end
    of the string or an occurrence of [CN]. *)
Lemma replace_copies_piece (p rest : str) :
  no_CN p -> rest = [] \/ (exists t, rest = 67%N :: 78%N :: t) ->
  replace_from 0 (p ++ rest) CN [] = p ++ replace_from 0 rest CN [].
Proof.
  unfold no_CN. induction p as [| c p IH]; intros Hp Hrest; [reflexivity |].
  cbn [contains] in Hp. apply orb_false_iff in Hp. destruct Hp as [Hhere Hp].
  cbn [app replace_from].
  assert (Hs : startswith (c :: p ++ rest) CN = false).
  { unfold CN in *. cbn [startswith] in *.
    destruct (67 =? c)%N; [| reflexivity]. cbn [andb] in *.
    destruct p as [| d p]; cbn [app].
    - destruct Hrest as [-> | [t ->]]; reflexivity.
    - cbn [startswith] in *. rewrite startswith_nil in *. exact Hhere. }
  rewrite Hs. f_equal. now apply IH.
Qed.

Lemma replace_drops_CN (t : str) :
  replace_from 0 (67%N :: 78%N :: t) CN [] = replace_from 0 t CN [].
Proof.
  cbn [replace_from]. unfold CN at 1. cbn [startswith].
  rewrite startswith_nil. reflexivity.
Qed.

(** Removing [CN] from a string leaves the pieces between its occurrences. *)
Lemma replace_CN_pieces (pieces : list str) :
  Forall no_CN pieces -> replace (join CN pieces) CN [] = List.concat pieces.
Proof.
  change (replace (join CN pieces) CN []) with (replace_from 0 (join CN pieces) CN []).
  induction pieces as [| p ps IH]; intros H; [reflexivity |].
  inversion H as [| ? ? Hp Hps]; subst. cbn [join List.concat].
  destruct ps as [| q ps].
  - cbn [List.concat]. rewrite app_nil_r.
    rewrite <- (app_nil_r p) at 1. rewrite replace_copies_piece by (auto).
    cbn [replace_from]. now rewrite app_nil_r.
  - rewrite replace_copies_piece by (try assumption; right; eexists; reflexivity).
    change (CN ++ join CN (q :: ps)) with (67%N :: 78%N :: join CN (q :: ps)).
    rewrite replace_drops_CN. now rewrite IH.
Qed.

(** Every string is made of such pieces. *)
Lemma pieces_exist (s : str) : exists pieces, s = join CN pieces /\ Forall no_CN pieces.
Proof.
  induction s as [| c s IH].
  - exists [[]]. split; [reflexivity | repeat constructor].
  - destruct IH as (pieces & -> & Hall).
    assert (Hshape : exists p ps, join CN pieces = join CN (p :: ps) /\ Forall no_CN (p :: ps)).
    { destruct pieces as [| p ps]; [exists [], []; split; [reflexivity | repeat constructor] |].
      exists p, ps. now split. }
    clear Hall. destruct Hshape as (p & ps & -> & Hall).
    inversion Hall as [| ? ? Hp Hps]; subst.
    destruct (andb (67 =? c)%N (startswith p [78%N])) eqn:E.
    + apply andb_true_iff in E. destruct E as [Ec En].
      apply N.eqb_eq in Ec. subst c.
      destruct p as [| d p0]; [discriminate En |].
      cbn [startswith] in En. apply andb_true_iff in En. destruct En as [Ed _].
      apply N.eqb_eq in Ed. subst d.
      exists ([] :: p0 :: ps). split.
      * cbn [join app]. destruct ps; reflexivity.
      * constructor; [reflexivity |]. constructor; [| exact Hps].
        unfold no_CN in *. cbn [contains] in Hp. apply orb_false_iff in Hp. tauto.
    + exists ((c :: p) :: ps). split.
      * cbn [join]. destruct ps; reflexivity.
      * constructor; [| exact Hps]. unfold no_CN in *. cbn [contains].
        apply orb_false_iff. split; [| exact Hp].
        unfold CN. cbn [startswith]. destruct p as [| d p0]; cbn [startswith] in *.
        -- exact E.
        -- rewrite startswith_nil in *. exact E.
Qed.

Section ApplicationNumber.

Variable is_organization : pyval -> result bool.

(** C10. In every record the fetch returns, [application_number] comes from
    the [an] of the common-info answer, a string: when [an] starts with
    [CN], it is [an] without any of its occurrences of [CN] (the pieces
    between them, put together); otherwise it is [an] itself. *)
Theorem C10_application_number (env : FetchEnv) (tokens : dict pyval) (patent_no : str)
    (r : PatentRecord) :
  fetch_details_immediately is_organization env tokens patent_no = Some r ->
  exists an number,
    common_an env = Ok (PStr an)
    /\ dict_get r k_application_number = Some (PStr number)
    /\ number = (if startswith an CN then replace an CN [] else an)
    /\ if startswith an CN
       then exists pieces, an = join CN pieces /\ Forall no_CN pieces
                           /\ number = List.concat pieces
       else number = an.
Proof.
  intros H. apply fetch_inversion in H.
  destruct H as (common_data & data & an & patent_type & number & Hc & _ & Han & Hn & Hp).
  apply parse_details_shape in Hp. destruct Hp as (d & i & f & a & e & c & ->).
  unfold strip_cn, bind in Hn. rewrite CN_is_lit in Hn.
  destruct an as [| | | | | an | |]; try discriminate Hn.
  cbn [py_startswith py_replace] in Hn.
  exists an, number. split; [unfold common_an, bind; now rewrite Hc |].
  split; [reflexivity |].
  destruct (startswith an CN); injection Hn as <-; split; try reflexivity.
  destruct (pieces_exist an) as (pieces & Hj & Hall).
  exists pieces. split; [exact Hj |]. split; [exact Hall |].
  rewrite Hj at 1. now apply replace_CN_pieces.
Qed.

End ApplicationNumber.

Definition cn_twice_env : FetchEnv :=
  mkFetchEnv (Ok tt)
    (answer (PDict [(lit "pt", PStr (lit "2")); (lit "an", PStr (lit "CN2020CN123"))]))
    (answer (PDict [(lit "bibliographicItems", PDict [(lit "in_or", PStr (lit "Li"))])]))
    (fun _ => []).

Lemma C10_application_number_witness :
  exists r an number,
    fetch_details_immediately (fun _ => Ok false) cn_twice_env
      [(k_pnk, PStr (lit "PNK"))] sample_patent = Some r
    /\ common_an cn_twice_env = Ok (PStr an)
    /\ dict_get r k_application_number = Some (PStr number)
    /\ number = (if startswith an CN then replace an CN [] else an).
Proof.
  eexists.
  assert (H : fetch_details_immediately (fun _ => Ok false) cn_twice_env
                [(k_pnk, PStr (lit "PNK"))] sample_patent = Some _)
    by (vm_compute; reflexivity).
  destruct (C10_application_number (fun _ => Ok false) cn_twice_env _ _ _ H)
    as (an & number & Ha & Hd & Hn & _).
  exists an, number. repeat split; assumption.
Defined.

(** ** One patent *)

Lemma record_stage_time_keeps_counts (st : State) (stage : str) (duration : Q) :
  search_fail_count (_record_stage_time st stage duration) = search_fail_count st.
Proof.
  unfold _record_stage_time. destruct (dict_get (speed_stats st) stage); reflexivity.
Qed.

Section BatchProperties.

Variable is_organization : pyval -> result bool.

(** Without the search, a patent leaves the count of failed searches as it
    was. *)
Lemma no_search_keeps_fail_count (st : State) (env : SingleEnv) (patent_no : str) :
  search_fail_count
    (snd (process_single_patent_realtime is_organization st env patent_no true))
  = search_fail_count st.
Proof.
  unfold process_single_patent_realtime, process_single_body, fetch_and_report.
  destruct (extract_pnk env) as [pnk |]; [| reflexivity].
  destruct (truthy pnk); cbn [negb]; [| reflexivity].
  destruct (fetch_details_immediately is_organization (fetch_env env) _ patent_no)
    as [patent_data |]; cbn [negb].
  - destruct (py_slice (get_or patent_data k_inventors (PStr []))); cbn [snd negb];
      now rewrite !record_stage_time_keeps_counts.
  - cbn [snd]. now rewrite record_stage_time_keeps_counts.
Qed.


(** *** The run without search *)

(** No search has failed, no patent counts as not found, none is marked
    unavailable. *)
Definition no_search_failures (l : Loop) : Prop :=
  search_fail_count (proc l) = 0
  /\ consecutive_not_found l = 0
  /\ unavailable_patents l = []
  /\ Nat.ltb (List.length (failed_patents l)) (search_fail_count (proc l)) = false.

Lemma no_search_step (skip_unavailable : bool) (env : IterEnv) (patent_no : str)
    (l : Loop) :
  no_search_failures l ->
  no_search_failures (fst (batch_step is_organization skip_unavailable true env patent_no l)).
Proof.
  intros Hl. pose proof Hl as (Hc & Hn & Hu & Hlt). unfold batch_step. rewrite Hn.
  change (Nat.leb 5 0) with false. rewrite andb_false_r.
  destruct (restart_if_needed env l) as [failures | c]; [| exact Hl].
  pose proof (no_search_keeps_fail_count (proc l) (single env) patent_no) as Hk.
  destruct (process_single_patent_realtime is_organization (proc l) (single env)
              patent_no true) as [[r |] st'];
    cbn [snd] in Hk; cbn [fst record_outcome]; unfold no_search_failures;
    cbn [proc consecutive_not_found unavailable_patents failed_patents];
    rewrite Hk, Hc; repeat split; assumption.
Qed.

Lemma no_search_loop (skip_unavailable : bool) (turns : nat -> IterEnv)
    (remaining : list str) :
  forall (i : nat) (l : Loop),
    no_search_failures l ->
    no_search_failures
      (fst (batch_loop is_organization skip_unavailable true turns i remaining l)).
Proof.
  induction remaining as [| patent_no rest IH]; intros i l Hl; cbn [batch_loop fst];
    [exact Hl |].
  pose proof (no_search_step skip_unavailable (turns i) patent_no l Hl) as Hs.
  destruct (batch_step is_organization skip_unavailable true (turns i) patent_no l)
    as [l' [| |]]; cbn [fst] in *; try exact Hs.
  now apply IH.
Qed.

(** C9. A run without search ([skip_search=True], the default) on a
    processor that has no failed search on its count: a patent is processed
    without anything of the guarded search being consulted; after any
    number of turns of the loop, and at the end of the run, the count is
    still 0, the test for a patent not found fails,
    [consecutive_not_found] is 0 and no patent is marked unavailable; no
    side file of unavailable patents is written. *)
Theorem C9_no_search_never_not_found (st : State) (env : BatchEnv) (output : OutputFile)
    (patent_list : list str) (skip_unavailable : bool) :
  search_fail_count st = 0 ->
  (forall (s : State) (e : SingleEnv) (p : str) (found : result bool) (fallback : bool)
          (duration : Q),
      process_single_patent_realtime is_organization s
        (mkSingleEnv (extract_pnk e) found fallback (fetch_env e) duration
           (token_time e) (fetch_time e)) p true
      = process_single_patent_realtime is_organization s e p true)
  /\ (forall n,
      no_search_failures
        (fst (batch_loop is_organization skip_unavailable true (turn env) 1
                (firstn n (remaining_patents output patent_list))
                (loop_start st output))))
  /\ no_search_failures
       (last (process_batch_realtime is_organization st env output patent_list
                skip_unavailable true))
  /\ unavailable_file (process_batch_realtime is_organization st env output patent_list
                         skip_unavailable true) = None.
Proof.
  intros Hst.
  assert (H0 : no_search_failures (loop_start st output)).
  { unfold no_search_failures, loop_start. cbn. now rewrite Hst. }
  split; [intros; reflexivity |].
  split; [intros n; now apply no_search_loop |].
  unfold process_batch_realtime.
  destruct (remaining_patents output patent_list) as [| p rest] eqn:Hr;
    [split; [exact H0 | reflexivity] |].
  destruct (first_login env) as [[|] |]; try (split; [exact H0 | reflexivity]).
  pose proof (no_search_loop skip_unavailable (turn env) (p :: rest) 1 _ H0) as Hl.
  destruct (batch_loop is_organization skip_unavailable true (turn env) 1 (p :: rest)
              (loop_start st output)) as [l c].
  cbn [fst] in Hl.
  assert (Hu : unavailable_patents l = []) by apply Hl.
  destruct c; cbn [last unavailable_file]; rewrite ?Hu; split; try exact Hl; reflexivity.
Qed.

End BatchProperties.

(** Six patents for which no access key is found, the browser restarting
    without trouble *)
Definition no_key : SingleEnv :=
  mkSingleEnv (Ok PNone) (Ok false) false null_inventors_env 0 0 0.

Definition no_key_run : BatchEnv :=
  mkBatchEnv (Ok true) (fun _ => mkIterEnv (Ok true) no_key).

Definition six_patents : list str :=
  [lit "CN1A"; lit "CN2A"; lit "CN3A"; lit "CN4A"; lit "CN5A"; lit "CN6A"].

Lemma C9_no_search_never_not_found_witness :
  let res := process_batch_realtime (fun _ => Ok false) (__init__ plain_base) no_key_run
               Missing six_patents true true in
  failed_file res = Some six_patents
  /\ no_search_failures (last res)
  /\ unavailable_file res = None.
Proof.
  pose proof (C9_no_search_never_not_found (fun _ => Ok false) (__init__ plain_base)
                no_key_run Missing six_patents true eq_refl) as (_ & _ & Hl & Hu).
  split; [vm_compute; reflexivity |]. split; [exact Hl | exact Hu].
Defined.

(** ** Resumption *)












Section Resumption.

Variable is_organization : pyval -> result bool.













End Resumption.

(** A run in which every patent is found and fetched *)
Definition found_key : SingleEnv :=
  mkSingleEnv (Ok (PStr (lit "PNK"))) (Ok true) false cn_twice_env 0 0 0.




(** * Further properties *)

(** ** The variants of a string *)

Lemma unquote_plus_length (s : str) : List.length (unquote_plus s) <= List.length s.
Proof.
  unfold unquote_plus. rewrite <- (plus_to_space_length s). apply unquote_length.
Qed.

(** What the loop of [_iter_decoded_variants] keeps true about the input:
    nothing in the queue or among the variants is longer than it, and it is
    the first variant as soon as there is one. *)
Definition variants_of (value : str) (st : vstate) : Prop :=
  Forall (fun v => List.length v <= List.length value) (queue st)
  /\ Forall (fun v => List.length v <= List.length value) (variants st)
  /\ ((variants st = [] /\ seen st = [] /\ exists q, queue st = value :: q)
      \/ exists rest, variants st = value :: rest).

Lemma variants_step_of (value : str) (st st' : vstate) :
  variants_of value st -> variants_step st = inl st' -> variants_of value st'.
Proof.
  unfold variants_step, variants_of. intros (Hq & Hv & Hhead).
  destruct (queue st) as [| current queue0] eqn:Eq; [discriminate |].
  apply Forall_cons_iff in Hq. destruct Hq as [Hc Hq].
  destruct (mem current (seen st)) eqn:Hmem.
  - intros H. injection H as <-. cbn [queue variants seen].
    split; [exact Hq |]. split; [exact Hv |].
    destruct Hhead as [(_ & Hseen & _) | Hhead]; [| now right].
    rewrite Hseen in Hmem. discriminate.
  - cbv zeta. intros H. injection H as <-. cbn [queue variants seen].
    assert (Hu : List.length (unquote current) <= List.length value)
      by (pose proof (unquote_length current); lia).
    assert (Hp : List.length (unquote_plus current) <= List.length value)
      by (pose proof (unquote_plus_length current); lia).
    split; [| split].
    + repeat match goal with
             | |- context [if ?c then _ else _] => destruct c
             end;
        repeat (apply Forall_app; split); auto.
    + apply Forall_app. split; [exact Hv | auto].
    + right. destruct Hhead as [(Hnil & _ & q & Hqueue) | [rest Hrest]].
      * injection Hqueue as -> _. rewrite Hnil. now exists [].
      * rewrite Hrest. now exists (rest ++ [current]).
Qed.

Lemma variants_loop_of (value : str) :
  match variants_loop value with
  | inl st => variants_of value st
  | inr vs => Forall (fun v => List.length v <= List.length value) vs
              /\ exists rest, vs = value :: rest
  end.
Proof.
  apply (loop_until_invariant (variants_of value)
           (fun vs : list str =>
              Forall (fun v => List.length v <= List.length value) vs
              /\ exists rest, vs = value :: rest)).
  - apply variants_step_of.
  - intros st vs (_ & Hv & Hhead). unfold variants_step.
    destruct (queue st) as [| c q] eqn:Eq.
    + intros [= <-]. split; [exact Hv |].
      destruct Hhead as [(_ & _ & q & Hq) | Hrest]; [discriminate | exact Hrest].
    + destruct (mem c (seen st)); discriminate.
  - split; [now repeat constructor |]. split; [constructor |].
    left. cbn [variants seen queue]. repeat split. now exists [].
Qed.

(** X1. [_iter_decoded_variants]: the input itself is the first variant,
    and no variant is longer than the input (decoding never lengthens a
    string); the empty string has no variants. *)
Theorem X1_variants_start_with_input (value : str) :
  Forall (fun v => List.length v <= List.length value) (_iter_decoded_variants value)
  /\ _iter_decoded_variants value
     = if nonempty value then value :: tl (_iter_decoded_variants value) else [].
Proof.
  pose proof (variants_loop_of value) as H.
  destruct (variants_loop_returns value) as [vs Hvs].
  unfold _iter_decoded_variants. rewrite Hvs in *.
  destruct value as [| c s]; [split; [constructor | reflexivity] |].
  destruct H as [Hlen [rest ->]]. split; [exact Hlen | reflexivity].
Qed.

(** A string without [%] is its own [unquote]. *)
Definition has_percent (s : str) : bool := existsb (N.eqb 37) s.

Lemma pct_items_plain (s : str) : has_percent s = false -> pct_items s = map lit_item s.
Proof.
  unfold has_percent.
  induction s as [| c s IH]; [reflexivity |].
  cbn [existsb]. intros H. apply orb_false_iff in H. destruct H as [Hc Hs].
  cbn [pct_items map]. rewrite N.eqb_sym in Hc. rewrite Hc. now rewrite IH.
Qed.

Lemma unquote_plain (s : str) : has_percent s = false -> unquote s = s.
Proof.
  intros H. unfold unquote, utf8_decode_replace.
  rewrite (pct_items_plain s H). apply decode_lit_items.
Qed.

Lemma loop_until_inr {S R : Type} (step : S -> S + R) (s : S) (r : R) :
  step s = inr r -> forall n, loop_until n step s = inr r.
Proof.
  intros H n. induction n as [| n IH]; cbn [loop_until]; [exact H | now rewrite IH].
Qed.

Lemma loop_until_second {S R : Type} (step : S -> S + R) (s s1 : S) (r : R) :
  step s = inl s1 -> step s1 = inr r -> forall n, loop_until (Datatypes.S n) step s = inr r.
Proof.
  intros H H1 n. induction n as [| n IH].
  - cbn [loop_until]. rewrite H. exact H1.
  - change (loop_until (Datatypes.S (Datatypes.S n)) step s)
      with (match loop_until (Datatypes.S n) step s with
            | inl s' => loop_until (Datatypes.S n) step s'
            | inr r => inr r
            end).
    now rewrite IH.
Qed.

(** X2. A non-empty string with neither [%] nor [+] in it has exactly one
    variant, itself: further candidates come only from percent-escapes and
    plus signs. *)
Theorem X2_plain_text_single_variant (value : str) :
  nonempty value = true -> has_percent value = false -> has_plus value = false ->
  _iter_decoded_variants value = [value].
Proof.
  intros Hne Hpct Hplus.
  assert (Hu : unquote value = value) by now apply unquote_plain.
  assert (Hp : unquote_plus value = value).
  { unfold unquote_plus. rewrite (plus_to_space_id value Hplus). exact Hu. }
  assert (H1 : variants_step (mkV [value] [] []) = inl (mkV [] [value] [value])).
  { unfold variants_step. cbn [queue seen variants mem existsb]. cbv zeta.
    rewrite Hu, Hp, (str_eqb_refl value). cbn [negb andb app]. reflexivity. }
  assert (H2 : variants_step (mkV [] [value] [value]) = inr [value]) by reflexivity.
  unfold _iter_decoded_variants, variants_loop, variants_fuel.
  replace (2 * weight value + 1) with (S (2 * weight value)) by lia.
  rewrite (loop_until_second variants_step _ _ _ H1 H2).
  now destruct value.
Qed.

Lemma X2_plain_text_single_variant_witness :
  _iter_decoded_variants (lit "pnk=ABC&oid=123") = [lit "pnk=ABC&oid=123"].
Proof.
  apply (X2_plain_text_single_variant (lit "pnk=ABC&oid=123")); reflexivity.
Defined.

(** ** What the decoder returns *)

Definition carries (t : tokens) (k : str) : Prop := dict_has t k = true.

Lemma first_some_found {A B : Type} (f : A -> option B) (l : list A) (b : B) :
  first_some f l = Some b -> exists a, In a l /\ f a = Some b.
Proof.
  induction l as [| a l IH]; cbn [first_some]; [discriminate |].
  destruct (f a) as [b' |] eqn:E.
  - intros [= <-]. exists a. split; [now left | exact E].
  - intros H. destruct (IH H) as (a' & Hin & Ha'). exists a'. split; [now right | exact Ha'].
Qed.

Lemma has_keys_carries (t : tokens) :
  has_keys t token_keys = true -> carries t k_pnk /\ carries t k_oid.
Proof.
  unfold has_keys, token_keys, carries. cbn [forallb]. intros H.
  apply andb_true_iff in H. destruct H as [Hp H].
  apply andb_true_iff in H. destruct H as [_ H].
  apply andb_true_iff in H. now destruct H as [Ho _].
Qed.

Lemma three_carry (a b c : pyval) :
  has_keys [(k_pnk, a); (k_folderFlag, b); (k_oid, c)] token_keys = true.
Proof. reflexivity. Qed.

Lemma two_carry (a c : pyval) :
  carries [(k_pnk, a); (k_oid, c)] k_pnk /\ carries [(k_pnk, a); (k_oid, c)] k_oid.
Proof. split; reflexivity. Qed.

(** The search through the values of a [dict] or the items of a [list] in
    [_extract_tokens_from_json] *)
Definition first_tokens (f : pyval -> result (option tokens)) : list pyval -> result (option tokens) :=
  fix first (vs : list pyval) : result (option tokens) :=
    match vs with
    | [] => Ok None
    | v :: vs' =>
        r <- f v ;;
        match r with
        | Some t => Ok (Some t)
        | None => first vs'
        end
    end.

Lemma extract_json_step (depth : nat) (payload : pyval) :
  _extract_tokens_from_json (S depth) payload
  = match payload with
    | PDict d =>
        if has_keys d token_keys then
          Ok (Some [(k_pnk, get_or d k_pnk (PStr []));
                    (k_folderFlag, get_or d k_folderFlag (PStr []));
                    (k_oid, get_or d k_oid (PStr []))])
        else first_tokens (_extract_tokens_from_json depth) (map snd d)
    | PList l => first_tokens (_extract_tokens_from_json depth) l
    | PStr s =>
        try_except
          (nested <- loads s ;;
           if differs_from_str nested s
           then r <- _extract_tokens_from_json depth nested ;; Ok (Ok r)
           else Ok (Ok None))
          (Ok None)
    | _ => Ok None
    end.
Proof. reflexivity. Qed.

Lemma first_tokens_found (f : pyval -> result (option tokens)) (vs : list pyval) (t : tokens) :
  first_tokens f vs = Ok (Some t) -> exists v, In v vs /\ f v = Ok (Some t).
Proof.
  induction vs as [| v vs IH]; cbn [first_tokens]; [discriminate |].
  destruct (f v) as [[t' |] |] eqn:E; cbn [bind].
  - intros [= <-]. exists v. split; [now left | exact E].
  - intros H. destruct (IH H) as (v' & Hin & Hv'). exists v'. split; [now right | exact Hv'].
  - discriminate.
Qed.

Lemma extract_json_carries (depth : nat) :
  forall (payload : pyval) (t : tokens),
    _extract_tokens_from_json depth payload = Ok (Some t) ->
    carries t k_pnk /\ carries t k_oid.
Proof.
  induction depth as [| depth IH]; intros payload t; [discriminate |].
  rewrite extract_json_step.
  destruct payload as [| b | q | | neg | s | l | d]; try discriminate.
  - destruct (loads s) as [nested |]; cbn [bind try_except]; [| discriminate].
    destruct (differs_from_str nested s); cbn [try_except]; [| discriminate].
    destruct (_extract_tokens_from_json depth nested) as [r |] eqn:E;
      cbn [bind try_except]; [| discriminate].
    intros H. rewrite H in E. exact (IH _ _ E).
  - intros H. apply first_tokens_found in H. destruct H as (v & _ & Hv). exact (IH _ _ Hv).
  - destruct (has_keys d token_keys).
    + intros [= <-]. apply has_keys_carries, three_carry.
    + intros H. apply first_tokens_found in H. destruct H as (v & _ & Hv).
      exact (IH _ _ Hv).
Qed.

Lemma query_string_carries (candidate : str) (t : tokens) :
  _extract_tokens_from_query_string candidate = Some t ->
  carries t k_pnk /\ carries t k_oid.
Proof.
  unfold _extract_tokens_from_query_string.
  destruct candidate as [| c s]; [discriminate |]. cbv zeta.
  repeat match goal with
         | |- context [if ?c then _ else _] => destruct c
         end; try discriminate.
  intros [= <-]. apply two_carry.
Qed.

Lemma regex_tokens_carries (candidate : str) (t : tokens) :
  regex_tokens candidate = Some t -> carries t k_pnk /\ carries t k_oid.
Proof.
  unfold regex_tokens. cbv zeta.
  match goal with
  | |- context [if ?c then _ else _] => destruct c eqn:E
  end; [| discriminate].
  intros [= <-]. now apply has_keys_carries.
Qed.

Lemma json_text_carries (content_type candidate : str) (t : tokens) :
  tokens_from_json_text content_type candidate = Some t ->
  carries t k_pnk /\ carries t k_oid.
Proof.
  unfold tokens_from_json_text.
  destruct (contains content_type (lit "json") || starts_like_json candidate);
    [| discriminate].
  destruct (loads candidate) as [payload |]; cbn [bind try_except]; [| discriminate].
  destruct (_extract_tokens_from_json recursion_limit payload) as [r |] eqn:E;
    cbn [try_except]; [| discriminate].
  intros H. rewrite H in E. exact (extract_json_carries _ _ _ E).
Qed.

Lemma json_fields_carries (candidate : str) (t : tokens) :
  tokens_from_json_fields candidate = Some t ->
  carries t k_pnk /\ carries t k_oid.
Proof.
  unfold tokens_from_json_fields.
  destruct (loads candidate) as [[| | | | | | | d] |]; try discriminate.
  intros H. apply first_some_found in H. destruct H as (field & _ & H).
  destruct field; try discriminate.
  apply first_some_found in H. destruct H as (variant & _ & H).
  exact (query_string_carries _ _ H).
Qed.

Lemma parse_search_response_carries (text : str) (content_type : option str) (t : tokens) :
  _parse_search_response_for_tokens text content_type = Some t ->
  carries t k_pnk /\ carries t k_oid.
Proof.
  unfold _parse_search_response_for_tokens, parse_steps.
  destruct (negb (nonempty text)); [discriminate |]. cbv zeta.
  destruct (first_some (tokens_from_json_text _) _) as [t1 |] eqn:E1.
  { intros [= <-]. apply first_some_found in E1. destruct E1 as (c & _ & H).
    exact (json_text_carries _ _ _ H). }
  destruct (first_some tokens_from_json_fields _) as [t2 |] eqn:E2.
  { intros [= <-]. apply first_some_found in E2. destruct E2 as (c & _ & H).
    exact (json_fields_carries _ _ H). }
  destruct (first_some _extract_tokens_from_query_string _) as [t3 |] eqn:E3.
  { intros [= <-]. apply first_some_found in E3. destruct E3 as (c & _ & H).
    exact (query_string_carries _ _ H). }
  intros H. apply first_some_found in H. destruct H as (c & _ & H).
  exact (regex_tokens_carries _ _ H).
Qed.

(** X3. Whatever way [_parse_search_response_for_tokens] finds a token set
    (a JSON object with the three names, a query string inside a JSON field,
    a query string, or the pattern of the last resort), the set it returns
    has an entry for [pnk] and an entry for [oid]. *)
Theorem X3_decoded_tokens_carry_pnk_and_oid (text : str) (content_type : option str)
    (t : tokens) :
  _parse_search_response_for_tokens text content_type = Some t ->
  dict_has t k_pnk = true /\ dict_has t k_oid = true.
Proof. apply parse_search_response_carries. Qed.

Definition json_tokens_text : str := lit_json "{`pnk`:`A1`,`folderFlag`:`0`,`oid`:`B2`}".

Lemma X3_decoded_tokens_carry_pnk_and_oid_witness :
  _parse_search_response_for_tokens json_tokens_text (Some (lit "application/json"))
  = Some [(k_pnk, PStr (lit "A1")); (k_folderFlag, PStr (lit "0")); (k_oid, PStr (lit "B2"))]
  /\ dict_has [(k_pnk, PStr (lit "A1")); (k_folderFlag, PStr (lit "0"));
               (k_oid, PStr (lit "B2"))] k_pnk = true
  /\ dict_has [(k_pnk, PStr (lit "A1")); (k_folderFlag, PStr (lit "0"));
               (k_oid, PStr (lit "B2"))] k_oid = true.
Proof.
  split; [vm_compute; reflexivity |].
  apply (X3_decoded_tokens_carry_pnk_and_oid json_tokens_text
           (Some (lit "application/json"))).
  vm_compute. reflexivity.
Defined.

(** ** What a lookup on the fast path leaves behind *)

(** The state a lookup works on once the cooldown is over: the counter
    starts again. *)
Definition after_cooldown (st : State) : State :=
  if negb (Qeq_bool (direct_search_disabled_until st) 0)
  then set_failures (set_disabled_until st 0) 0 else st.

(** The state after a lookup that found tokens *)
Definition ledger_reset (st : State) : State :=
  set_disabled_until (set_failures (set_last_search_used_fallback st false) 0) 0.

(** The second transport, and what follows it *)
Definition via_requests (st : State) (env : DirectEnv) (patent_no : str)
    (response : option Response) (reason : option str) : Outcome (option tokens) :=
  match requests_exec env with
  | Raise => mkOutcome Raise st [ViaBrowser; ViaRequests]
  | Ok (Some fallback_response) =>
      if ok fallback_response
      then decode_response st env patent_no (Some fallback_response) [ViaBrowser; ViaRequests]
      else
        let reason := requests_reason fallback_response reason in
        if is_reason reason then
          mkOutcome (Ok None)
            (_register_direct_search_failure st (time_at_failure env) reason (Some patent_no))
            [ViaBrowser; ViaRequests]
        else decode_response st env patent_no response [ViaBrowser; ViaRequests]
  | Ok None =>
      mkOutcome (Ok None)
        (_register_direct_search_failure st (time_at_failure env) reason (Some patent_no))
        [ViaBrowser; ViaRequests]
  end.

(** What the browser transport gives: the response and the reason of its
    failure *)
Definition via_browser (env : DirectEnv) : option Response * option str :=
  let '(response, reason) :=
    match browser_exec env with
    | BrowserReturns r => (r, None)
    | BrowserTimeout => (None, Some reason_script_timeout)
    | BrowserWebDriverError message =>
        (None, Some (if contains (lower message) (lit "script timeout")
                     then reason_script_timeout else reason_exec_error))
    | BrowserOtherError => (None, Some reason_exec_error)
    end in
  let reason := match response, reason with
                | None, None => Some reason_no_response
                | _, _ => reason
                end in
  let reason := match response with
                | Some r => browser_reason r reason
                | None => reason
                end in
  (response, reason).

Lemma direct_fetch_tokens_steps (st : State) (env : DirectEnv) (patent_no : str) :
  _direct_fetch_tokens st env patent_no
  = if mem patent_no (direct_search_blocklist st) then mkOutcome (Ok None) st []
    else
      match direct_search_template st with
      | None => mkOutcome (Ok None) st []
      | Some _ =>
          if negb (Qeq_bool (direct_search_disabled_until st) 0)
             && negb (Qle_bool (direct_search_disabled_until st) (time_at_check env))
          then mkOutcome (Ok None) st []
          else
            if is_reason (snd (via_browser env))
            then via_requests (after_cooldown st) env patent_no (fst (via_browser env))
                   (snd (via_browser env))
            else decode_response (after_cooldown st) env patent_no (fst (via_browser env))
                   [ViaBrowser]
      end.
Proof.
  unfold _direct_fetch_tokens, via_browser, via_requests, after_cooldown.
  destruct (mem patent_no (direct_search_blocklist st)); [reflexivity |].
  destruct (direct_search_template st); [| reflexivity].
  destruct (negb (Qeq_bool (direct_search_disabled_until st) 0)
            && negb (Qle_bool (direct_search_disabled_until st) (time_at_check env)));
    [reflexivity |].
  destruct (browser_exec env) as [[r |] | | message |]; reflexivity.
Qed.

Lemma status_reason_nonempty (z : Z) : nonempty (reason_status ++ decimal z) = true.
Proof.
  destruct reason_status as [| c s] eqn:E; [vm_compute in E; discriminate E | reflexivity].
Qed.

Lemma browser_reason_ok (r : Response) :
  is_reason (browser_reason r None) = false -> ok r = true.
Proof.
  unfold browser_reason.
  destruct (nonempty (error r)) eqn:E; cbn [is_reason]; [rewrite E; discriminate |].
  destruct (ok r); [reflexivity |]. cbn [negb is_reason].
  destruct (Z.eqb (status r) 0); [vm_compute; discriminate |].
  rewrite status_reason_nonempty. discriminate.
Qed.

Lemma requests_reason_stays (f : Response) (reason : option str) :
  is_reason reason = true -> ok f = false -> is_reason (requests_reason f reason) = true.
Proof.
  intros Hr Hok. unfold requests_reason. rewrite Hok. cbn [negb].
  destruct (nonempty (error f)) eqn:E; cbn [is_reason]; [exact E |].
  destruct (Z.eqb (status f) 0); [exact Hr |].
  cbn [is_reason]. apply status_reason_nonempty.
Qed.

Lemma via_browser_response (env : DirectEnv) (r : Response) :
  fst (via_browser env) = Some r -> browser_exec env = BrowserReturns (Some r)
                                    /\ snd (via_browser env) = browser_reason r None.
Proof.
  unfold via_browser.
  destruct (browser_exec env) as [[r' |] | | message |]; cbn [fst snd]; try discriminate.
  intros [= ->]. split; reflexivity.
Qed.

Lemma via_browser_none (env : DirectEnv) :
  fst (via_browser env) = None -> is_reason (snd (via_browser env)) = true.
Proof.
  unfold via_browser.
  destruct (browser_exec env) as [[r' |] | | message |]; cbn [fst snd]; try discriminate;
    intros _; try reflexivity.
  destruct (contains (lower message) (lit "script timeout")); reflexivity.
Qed.

(** The ways a lookup ends *)
Inductive lookup_end (st : State) (env : DirectEnv) (p : str)
    (out : Outcome (option tokens)) : Prop :=
| lookup_refused :
    out = mkOutcome (Ok None) st [] -> lookup_end st env p out
| lookup_found (t : tokens) (response : Response) :
    returned out = Ok (Some t) ->
    state_after out = ledger_reset (after_cooldown st) ->
    (replays out = [ViaBrowser] /\ browser_exec env = BrowserReturns (Some response)
     \/ replays out = [ViaBrowser; ViaRequests] /\ requests_exec env = Ok (Some response)) ->
    ok response = true ->
    _parse_search_response_for_tokens (text response) (Some (contentType response)) = Some t ->
    lookup_end st env p out
| lookup_failed (reason : option str) :
    (forall t, returned out <> Ok (Some t)) ->
    state_after out
    = _register_direct_search_failure (after_cooldown st) (time_at_failure env) reason (Some p) ->
    (replays out = [ViaBrowser] \/ replays out = [ViaBrowser; ViaRequests]) ->
    lookup_end st env p out
| lookup_raised :
    returned out = Raise ->
    state_after out = after_cooldown st ->
    requests_exec env = Raise ->
    replays out = [ViaBrowser; ViaRequests] ->
    lookup_end st env p out.

Lemma decode_response_end (st st1 : State) (env : DirectEnv) (p : str)
    (response : option Response) (sent : list replay) :
  st1 = after_cooldown st ->
  (forall r, response = Some r ->
             ok r = true
             /\ (sent = [ViaBrowser] /\ browser_exec env = BrowserReturns (Some r)
                 \/ sent = [ViaBrowser; ViaRequests] /\ requests_exec env = Ok (Some r))) ->
  sent = [ViaBrowser] \/ sent = [ViaBrowser; ViaRequests] ->
  lookup_end st env p (decode_response st1 env p response sent).
Proof.
  intros -> Hresp Hsent. unfold decode_response.
  destruct response as [r |]; cbn [parse_call].
  - destruct (Hresp r eq_refl) as [Hok Hfrom].
    destruct (_parse_search_response_for_tokens (text r) (Some (contentType r)))
      as [t |] eqn:E.
    + now apply (lookup_found _ _ _ _ t r).
    + apply (lookup_failed _ _ _ _ (Some reason_no_tokens));
        [intros ?; discriminate | reflexivity | exact Hsent].
  - apply (lookup_failed _ _ _ _ (Some reason_parse_failed));
      [intros ?; discriminate | reflexivity | exact Hsent].
Qed.

Lemma direct_fetch_tokens_end (st : State) (env : DirectEnv) (p : str) :
  lookup_end st env p (_direct_fetch_tokens st env p).
Proof.
  rewrite direct_fetch_tokens_steps.
  destruct (mem p (direct_search_blocklist st)); [now apply lookup_refused |].
  destruct (direct_search_template st); [| now apply lookup_refused].
  destruct (negb (Qeq_bool (direct_search_disabled_until st) 0)
            && negb (Qle_bool (direct_search_disabled_until st) (time_at_check env)));
    [now apply lookup_refused |].
  destruct (is_reason (snd (via_browser env))) eqn:Hreason.
  - unfold via_requests.
    destruct (requests_exec env) as [[f |] |] eqn:Hreq.
    + destruct (ok f) eqn:Hok.
      * apply decode_response_end; [reflexivity | | now right].
        intros r [= <-]. split; [exact Hok | right; now split].
      * cbv zeta. rewrite (requests_reason_stays f _ Hreason Hok).
        apply (lookup_failed _ _ _ _ (requests_reason f (snd (via_browser env))));
          [intros ?; discriminate | reflexivity | now right].
    + apply (lookup_failed _ _ _ _ (snd (via_browser env)));
        [intros ?; discriminate | reflexivity | now right].
    + now apply lookup_raised.
  - apply decode_response_end; [reflexivity | | now left].
    intros r Hr. destruct (via_browser_response env r Hr) as [Hb Hs].
    rewrite Hs in Hreason. split; [now apply browser_reason_ok | left; now split].
Qed.

(** X4. The cached template is dropped exactly when a decode failure
    ("解析失败" or "未解析到Token") is registered while at least one
    failure is already on the counter; from then on every lookup returns
    [None] without sending anything.  Any other failure leaves the template
    as it is. *)
Theorem X4_second_decode_failure_drops_template (st : State) (now : Q)
    (reason patent_no : option str) :
  let st' := _register_direct_search_failure st now reason patent_no in
  if Nat.leb 1 (direct_search_failures st) && mem (reason_text_of reason) parse_reasons
  then direct_search_template st' = None
       /\ forall (env : DirectEnv) (p : str),
            _direct_fetch_tokens st' env p = mkOutcome (Ok None) st' []
  else direct_search_template st' = direct_search_template st.
Proof.
  intros st'.
  assert (Ht : direct_search_template st'
               = if Nat.leb 1 (direct_search_failures st)
                    && mem (reason_text_of reason) parse_reasons
                 then None else direct_search_template st).
  { unfold st', _register_direct_search_failure. fold (reason_text_of reason). fields.
    change (Nat.leb 2 (S (direct_search_failures st)))
      with (Nat.leb 1 (direct_search_failures st)).
    destruct (Nat.leb 1 (direct_search_failures st) && mem (reason_text_of reason) parse_reasons);
      split_ifs; reflexivity. }
  destruct (Nat.leb 1 (direct_search_failures st) && mem (reason_text_of reason) parse_reasons);
    [| exact Ht].
  split; [exact Ht |].
  intros env p. unfold _direct_fetch_tokens. rewrite Ht.
  now destruct (mem p (direct_search_blocklist st')).
Qed.

(** X5. When a lookup returns tokens, they were decoded from a response
    with [ok] set, of the browser or of the second transport, and carry
    [pnk] and [oid]; the failure counter and the cooldown are back at 0,
    [last_search_used_fallback] is false, and the template and the denylist
    are as before. *)
Theorem X5_lookup_success (st : State) (env : DirectEnv) (p : str) (t : tokens) :
  returned (_direct_fetch_tokens st env p) = Ok (Some t) ->
  let st' := state_after (_direct_fetch_tokens st env p) in
  (direct_search_failures st' = 0
   /\ direct_search_disabled_until st' = 0%Q
   /\ last_search_used_fallback st' = false
   /\ direct_search_template st' = direct_search_template st
   /\ direct_search_blocklist st' = direct_search_blocklist st)
  /\ (dict_has t k_pnk = true /\ dict_has t k_oid = true)
  /\ exists response,
       ok response = true
       /\ _parse_search_response_for_tokens (text response) (Some (contentType response))
          = Some t
       /\ (browser_exec env = BrowserReturns (Some response)
           \/ requests_exec env = Ok (Some response)).
Proof.
  intros Hret st'. unfold st'.
  destruct (direct_fetch_tokens_end st env p)
    as [H | t' r Hr Hst Hfrom Hok Hparse | reason Hno _ _ | Hr _ _ _].
  - rewrite H in Hret. discriminate Hret.
  - rewrite Hr in Hret. injection Hret as ->. rewrite Hst. split; [| split].
    + unfold ledger_reset, after_cooldown.
      destruct (negb (Qeq_bool (direct_search_disabled_until st) 0)); repeat split.
    + exact (parse_search_response_carries _ _ _ Hparse).
    + exists r. split; [exact Hok |]. split; [exact Hparse |].
      destruct Hfrom as [[_ H] | [_ H]]; [now left | now right].
  - now destruct (Hno t).
  - rewrite Hr in Hret. discriminate Hret.
Qed.

Definition ready : State := set_template (__init__ plain_base) (Some sample_template).

Definition tokens_response : Response :=
  mkResponse true 200 json_tokens_text (lit "application/json") [].

Lemma X5_lookup_success_witness :
  let out := _direct_fetch_tokens ready
               (mkDirectEnv 50 50 (BrowserReturns (Some tokens_response)) (Ok None))
               sample_patent in
  returned out
  = Ok (Some [(k_pnk, PStr (lit "A1")); (k_folderFlag, PStr (lit "0")); (k_oid, PStr (lit "B2"))])
  /\ direct_search_failures (state_after out) = 0
  /\ replays out = [ViaBrowser].
Proof.
  cbv zeta.
  assert (H : returned (_direct_fetch_tokens ready
                          (mkDirectEnv 50 50 (BrowserReturns (Some tokens_response)) (Ok None))
                          sample_patent)
              = Ok (Some [(k_pnk, PStr (lit "A1")); (k_folderFlag, PStr (lit "0"));
                          (k_oid, PStr (lit "B2"))]))
    by (vm_compute; reflexivity).
  split; [exact H |]. split; [| vm_compute; reflexivity].
  exact (proj1 (proj1 (X5_lookup_success ready _ sample_patent _ H))).
Defined.

(** X6. A lookup sends nothing, the browser request alone, or the browser
    request followed by the request of the second transport; when it sends
    nothing it returns [None] and changes nothing. *)
Theorem X6_lookup_requests (st : State) (env : DirectEnv) (p : str) :
  let out := _direct_fetch_tokens st env p in
  (replays out = [] /\ out = mkOutcome (Ok None) st [])
  \/ replays out = [ViaBrowser]
  \/ replays out = [ViaBrowser; ViaRequests].
Proof.
  cbv zeta.
  destruct (direct_fetch_tokens_end st env p)
    as [H | t' r _ _ Hfrom _ _ | reason _ _ Hsent | _ _ _ Hsent].
  - left. rewrite H. split; reflexivity.
  - right. destruct Hfrom as [[H _] | [H _]]; [now left | now right].
  - right. exact Hsent.
  - right. now right.
Qed.

(** X7. A lookup that sent a request and returned [None] has put exactly
    one failure on the counter; when the lookup found a cooldown that was
    over, the counter started again and is now 1. *)
Theorem X7_lookup_failure_counted_once (st : State) (env : DirectEnv) (p : str) :
  replays (_direct_fetch_tokens st env p) <> [] ->
  returned (_direct_fetch_tokens st env p) = Ok None ->
  direct_search_failures (state_after (_direct_fetch_tokens st env p))
  = if Qeq_bool (direct_search_disabled_until st) 0
    then S (direct_search_failures st) else 1.
Proof.
  intros Hsent Hret.
  destruct (direct_fetch_tokens_end st env p)
    as [H | t' r Hr _ _ _ _ | reason _ Hst _ | Hr _ _ _].
  - rewrite H in Hsent. now destruct Hsent.
  - rewrite Hr in Hret. discriminate Hret.
  - rewrite Hst, register_failures. unfold after_cooldown.
    destruct (Qeq_bool (direct_search_disabled_until st) 0); reflexivity.
  - rewrite Hr in Hret. discriminate Hret.
Qed.

Definition both_transports_fail : DirectEnv :=
  mkDirectEnv 500 500 BrowserTimeout
    (Ok (Some (mkResponse false 0 [] [] (lit "connection reset")))).

(** A state whose cooldown ended at 400, with three failures counted *)
Definition cooled_down : State := set_disabled_until (set_failures ready 3) 400.

Lemma X7_lookup_failure_counted_once_witness :
  replays (_direct_fetch_tokens cooled_down both_transports_fail sample_patent)
  = [ViaBrowser; ViaRequests]
  /\ direct_search_failures
       (state_after (_direct_fetch_tokens cooled_down both_transports_fail sample_patent))
     = 1.
Proof.
  split; [vm_compute; reflexivity |].
  apply (X7_lookup_failure_counted_once cooled_down both_transports_fail sample_patent).
  - vm_compute. discriminate.
  - vm_compute. reflexivity.
Defined.

(** ** The processor during a run *)

Lemma dict_set_values {V : Type} (P : V -> Prop) (d : dict V) (k : str) (v : V) :
  Forall (fun kv => P (snd kv)) d -> P v -> Forall (fun kv => P (snd kv)) (dict_set d k v).
Proof.
  intros Hd Hv. induction d as [| [k' v'] d IH]; cbn [dict_set].
  - now repeat constructor.
  - apply Forall_cons_iff in Hd. destruct Hd as [Hv' Hd].
    destruct (str_eqb k k'); constructor; auto.
Qed.

Lemma dict_get_value {V : Type} (P : V -> Prop) (d : dict V) (k : str) (v : V) :
  Forall (fun kv => P (snd kv)) d -> dict_get d k = Some v -> P v.
Proof.
  intros Hd. induction d as [| [k' v'] d IH]; cbn [dict_get]; [discriminate |].
  apply Forall_cons_iff in Hd. destruct Hd as [Hv' Hd].
  destruct (str_eqb k k'); [now intros [= <-] | now apply IH].
Qed.

(** No stage has more samples than [max_speed_samples]. *)
Definition window_kept (st : State) : Prop :=
  Forall (fun kv => List.length (snd kv) <= max_speed_samples st) (speed_stats st).

Lemma record_stage_time_window (st : State) (stage : str) (duration : Q) :
  window_kept st -> window_kept (_record_stage_time st stage duration).
Proof.
  unfold window_kept, _record_stage_time. intros H.
  destruct (dict_get (speed_stats st) stage) as [stats |] eqn:E; [| exact H].
  fields.
  apply (dict_set_values (fun stats => List.length stats <= max_speed_samples st));
    [exact H |].
  pose proof (dict_get_value (fun stats => List.length stats <= max_speed_samples st)
                _ _ _ H E) as Hs.
  cbv beta in Hs.
  destruct (Nat.ltb (max_speed_samples st) (List.length (stats ++ [duration]))) eqn:El.
  - destruct stats as [| q stats]; cbn [app tl List.length] in *; [lia |].
    rewrite length_app. cbn [List.length]. lia.
  - apply Nat.ltb_ge in El. exact El.
Qed.

Lemma update_after_failure (st : State) (used_fallback : bool) :
  _update_performance_profile st false used_fallback = set_mode st normal 0.
Proof. reflexivity. Qed.

Lemma update_keeps_window (st : State) (success used_fallback : bool) :
  max_speed_samples (_update_performance_profile st success used_fallback)
  = max_speed_samples st
  /\ speed_stats (_update_performance_profile st success used_fallback) = speed_stats st.
Proof.
  unfold _update_performance_profile. split_ifs; split; reflexivity.
Qed.

Lemma record_stage_time_keeps_max (st : State) (stage : str) (duration : Q) :
  max_speed_samples (_record_stage_time st stage duration) = max_speed_samples st.
Proof.
  unfold _record_stage_time. destruct (dict_get (speed_stats st) stage); reflexivity.
Qed.

Section RunProperties.

Variable is_organization : pyval -> result bool.

(** A property of the processor that every step of
    [process_single_patent_realtime] keeps is kept by the call. *)
Lemma single_keeps (I : State -> Prop) :
  (forall st stage d, I st -> I (_record_stage_time st stage d)) ->
  (forall st s f, I st -> I (_update_performance_profile st s f)) ->
  (forall st b, I st -> I (set_last_search_used_fallback st b)) ->
  (forall st, I st -> I (bump_search_fail st)) ->
  (forall st, I st -> I (bump_search_success st)) ->
  forall (st : State) (env : SingleEnv) (p : str) (skip_search : bool),
    I st -> I (snd (process_single_patent_realtime is_organization st env p skip_search)).
Proof.
  intros Hrec Hupd Hflag Hfail Hsucc st env p skip_search Hst.
  unfold process_single_patent_realtime, process_single_body, fetch_and_report.
  destruct skip_search; cbn [negb].
  - destruct (extract_pnk env) as [pnk |]; [| exact Hst].
    destruct (truthy pnk); cbn [negb]; [| exact Hst].
    destruct (fetch_details_immediately is_organization (fetch_env env) _ p)
      as [patent_data |]; [| cbn [snd]; auto].
    destruct (py_slice (get_or patent_data k_inventors (PStr []))); cbn [snd]; auto.
  - destruct (guarded_search env) as [found |]; [| cbn [snd]; auto].
    destruct found; cbn [negb]; [| cbn [snd]; auto].
    destruct (extract_tokens_from_network env) as [tokens |]; [| cbn [snd]; auto 8].
    destruct (fetch_details_immediately is_organization (fetch_env env) _ p)
      as [patent_data |]; [| cbn [snd]; auto 10].
    destruct (py_slice (get_or patent_data k_inventors (PStr []))); cbn [snd]; auto 12.
Qed.

(** Without the search only the stage times are recorded. *)
Lemma single_no_search_keeps (I : State -> Prop) :
  (forall st stage d, I st -> I (_record_stage_time st stage d)) ->
  forall (st : State) (env : SingleEnv) (p : str),
    I st -> I (snd (process_single_patent_realtime is_organization st env p true)).
Proof.
  intros Hrec st env p Hst.
  unfold process_single_patent_realtime, process_single_body, fetch_and_report.
  destruct (extract_pnk env) as [pnk |]; [| exact Hst].
  destruct (truthy pnk); cbn [negb]; [| exact Hst].
  destruct (fetch_details_immediately is_organization (fetch_env env) _ p)
    as [patent_data |]; [| cbn [snd]; auto].
  destruct (py_slice (get_or patent_data k_inventors (PStr []))); cbn [snd]; auto.
Qed.

(** A property of the loop variables that every turn keeps holds when the
    loop is left, and at the end of the run. *)
Lemma batch_loop_keeps (J : Loop -> Prop) (skip_unavailable skip_search : bool) :
  (forall env p l, J l ->
                   J (fst (batch_step is_organization skip_unavailable skip_search env p l))) ->
  forall (turns : nat -> IterEnv) (remaining : list str) (i : nat) (l : Loop),
    J l -> J (fst (batch_loop is_organization skip_unavailable skip_search turns i remaining l)).
Proof.
  intros Hstep turns remaining.
  induction remaining as [| p rest IH]; intros i l Hl; cbn [batch_loop fst]; [exact Hl |].
  pose proof (Hstep (turns i) p l Hl) as Hs.
  destruct (batch_step is_organization skip_unavailable skip_search (turns i) p l)
    as [l' [| |]]; cbn [fst] in *; try exact Hs.
  now apply IH.
Qed.

Lemma batch_run_keeps (J : Loop -> Prop) (skip_unavailable skip_search : bool)
    (st : State) (env : BatchEnv) (output : OutputFile) (patent_list : list str) :
  (forall env p l, J l ->
                   J (fst (batch_step is_organization skip_unavailable skip_search env p l))) ->
  J (loop_start st output) ->
  J (last (process_batch_realtime is_organization st env output patent_list
             skip_unavailable skip_search)).
Proof.
  intros Hstep H0. unfold process_batch_realtime.
  destruct (remaining_patents output patent_list) as [| p rest]; [exact H0 |].
  destruct (first_login env) as [[|] |]; try exact H0.
  pose proof (batch_loop_keeps J skip_unavailable skip_search Hstep (turn env) (p :: rest) 1
                _ H0) as Hl.
  destruct (batch_loop is_organization skip_unavailable skip_search (turn env) 1 (p :: rest)
              (loop_start st output)) as [l c].
  cbn [fst] in Hl. destruct c; exact Hl.
Qed.

(** A turn of the loop changes the processor only through
    [process_single_patent_realtime]. *)
Lemma batch_step_keeps_proc (I : State -> Prop) (skip_unavailable skip_search : bool) :
  (forall st env p,
      I st -> I (snd (process_single_patent_realtime is_organization st env p skip_search))) ->
  forall (env : IterEnv) (p : str) (l : Loop),
    I (proc l) ->
    I (proc (fst (batch_step is_organization skip_unavailable skip_search env p l))).
Proof.
  intros Hsingle env p l Hl. unfold batch_step.
  destruct (skip_unavailable && Nat.leb 5 (consecutive_not_found l)); [exact Hl |].
  destruct (restart_if_needed env l) as [failures | c]; [| exact Hl].
  pose proof (Hsingle (proc l) (single env) p Hl) as Hs.
  destruct (process_single_patent_realtime is_organization (proc l) (single env) p
              skip_search) as [[r |] st']; exact Hs.
Qed.

(** X8. However a run goes, a processor fresh from [__init__] never holds
    more than 20 samples of any stage: the windows of [speed_stats] stay
    within [max_speed_samples]. *)
Theorem X8_speed_windows_stay_bounded (base : Inherited) (env : BatchEnv)
    (output : OutputFile) (patent_list : list str) (skip_unavailable skip_search : bool) :
  let st := proc (last (process_batch_realtime is_organization (__init__ base) env output
                          patent_list skip_unavailable skip_search)) in
  max_speed_samples st = 20
  /\ Forall (fun kv => List.length (snd kv) <= 20) (speed_stats st).
Proof.
  cbv zeta.
  set (I := fun st : State => max_speed_samples st = 20 /\ window_kept st).
  assert (H : I (proc (last (process_batch_realtime is_organization (__init__ base) env
                               output patent_list skip_unavailable skip_search)))).
  { apply (batch_run_keeps (fun l => I (proc l))).
    - apply batch_step_keeps_proc. intros s e q Hs.
      apply (single_keeps I); [| | | | | exact Hs]; unfold I, window_kept.
      + intros st stage d [Hm Hw]. split; [now rewrite record_stage_time_keeps_max |].
        now apply record_stage_time_window.
      + intros st success f [Hm Hw].
        destruct (update_keeps_window st success f) as [-> ->]. now split.
      + intros st b Hst. exact Hst.
      + intros st Hst. exact Hst.
      + intros st Hst. exact Hst.
    - split; [reflexivity |]. unfold window_kept. cbn. repeat constructor; cbn; lia. }
  destruct H as [Hm Hw]. split; [exact Hm |]. unfold window_kept in Hw.
  now rewrite Hm in Hw.
Qed.

(** X9. With the search switched on, a patent that gives no record leaves
    the processor in normal mode with a success streak of 0, whatever went
    wrong: the search, the token, the fetch, or an exception. *)
Theorem X9_failure_with_search_ends_in_normal_mode (st : State) (env : SingleEnv)
    (p : str) :
  fst (process_single_patent_realtime is_organization st env p false) = None ->
  performance_mode (snd (process_single_patent_realtime is_organization st env p false))
  = normal
  /\ success_streak (snd (process_single_patent_realtime is_organization st env p false))
     = 0.
Proof.
  unfold process_single_patent_realtime, process_single_body, fetch_and_report.
  cbn [negb].
  destruct (guarded_search env) as [found |]; [| split; reflexivity].
  destruct found; cbn [negb]; [| split; reflexivity].
  destruct (extract_tokens_from_network env) as [tokens |]; [| split; reflexivity].
  destruct (fetch_details_immediately is_organization (fetch_env env) _ p)
    as [patent_data |]; [| split; reflexivity].
  destruct (py_slice (get_or patent_data k_inventors (PStr []))); cbn [fst snd];
    [discriminate | split; reflexivity].
Qed.

(** X10. A run without search ([skip_search=True], the default) leaves the
    governor alone: the mode, the success streak, the count of successful
    searches and [last_search_used_fallback] are at the end what they were
    at the start. *)
Theorem X10_run_without_search_keeps_mode (st : State) (env : BatchEnv)
    (output : OutputFile) (patent_list : list str) (skip_unavailable : bool) :
  let st' := proc (last (process_batch_realtime is_organization st env output patent_list
                           skip_unavailable true)) in
  performance_mode st' = performance_mode st
  /\ success_streak st' = success_streak st
  /\ search_success_count st' = search_success_count st
  /\ last_search_used_fallback st' = last_search_used_fallback st.
Proof.
  cbv zeta.
  set (I := fun s : State =>
              performance_mode s = performance_mode st
              /\ success_streak s = success_streak st
              /\ search_success_count s = search_success_count st
              /\ last_search_used_fallback s = last_search_used_fallback st).
  apply (batch_run_keeps (fun l => I (proc l))).
  - apply batch_step_keeps_proc. intros s e q Hs.
    apply (single_no_search_keeps I); [| exact Hs].
    intros s' stage d Hs'. unfold I, _record_stage_time in *.
    destruct (dict_get (speed_stats s') stage); exact Hs'.
  - unfold I. cbn. repeat split.
Qed.

End RunProperties.

Lemma X9_failure_with_search_ends_in_normal_mode_witness :
  fst (process_single_patent_realtime (fun _ => Ok false) (__init__ plain_base) no_key
         sample_patent false) = None
  /\ performance_mode
       (snd (process_single_patent_realtime (fun _ => Ok false) (__init__ plain_base) no_key
               sample_patent false)) = normal.
Proof.
  split; [vm_compute; reflexivity |].
  apply (X9_failure_with_search_ends_in_normal_mode (fun _ => Ok false)
           (__init__ plain_base) no_key sample_patent).
  vm_compute. reflexivity.
Defined.

(** ** The fields of a record *)

Definition has_hyphen (s : str) : bool := existsb (N.eqb 45) s.

Lemma replace_char_away (c : N) (s : str) :
  replace s [c] [] = filter (fun x => negb (N.eqb c x)) s.
Proof.
  unfold replace.
  induction s as [| x s IH]; [reflexivity |].
  cbn [replace_from startswith filter List.length Nat.pred app].
  rewrite startswith_nil, andb_true_r.
  destruct (N.eqb c x); cbn [negb]; [exact IH | now rewrite IH].
Qed.

Lemma replace_hyphen_away (s : str) : has_hyphen (replace s (lit "-") []) = false.
Proof.
  change (lit "-") with [45%N]. rewrite replace_char_away. unfold has_hyphen.
  induction s as [| x s IH]; [reflexivity |].
  cbn [filter]. destruct (N.eqb 45 x) eqn:E; cbn [negb]; [exact IH |].
  cbn [existsb]. now rewrite E, IH.
Qed.

Lemma scan_axis_no_hyphen (items : dict pyval) (date : str) :
  scan_axis items = Ok date -> has_hyphen date = false.
Proof.
  induction items as [| [k date_info] rest IH]; cbn [scan_axis].
  - now intros [= <-].
  - destruct date_info as [| | | | | | | d]; try exact IH.
    destruct (py_eq_str (get_or d (lit "axisName") PNone) (lit "申请日")); [| exact IH].
    cbv zeta. destruct (truthy (get_or d (lit "axisDate") (PStr []))); [| exact IH].
    destruct (get_or d (lit "axisDate") (PStr [])); try discriminate.
    cbn [py_replace]. intros [= <-]. apply replace_hyphen_away.
Qed.

(** The names of the patent types *)
Definition patent_type_names : list str :=
  [invention_application; lit "实用新型"; lit "外观设计"; lit "发明授权"].

Lemma type_of_code_names (pt : pyval) (patent_type : str) :
  type_of_code pt = Ok patent_type -> patent_type = [] \/ In patent_type patent_type_names.
Proof.
  destruct pt as [| b | q | | neg | s | l | d]; cbn [type_of_code];
    try discriminate; try (intros [= <-]; now left).
  intros [= <-]. unfold get_or, type_map, patent_type_names. cbn [dict_get In].
  repeat match goal with
         | |- context [if ?c then _ else _] => destruct c
         end; auto 6.
Qed.

Section RecordFields.

Variable is_organization : pyval -> result bool.

(** What [parse_patent_json_for_details] computes on the way to a record *)
Lemma parse_details_steps (env : FetchEnv) (data : pyval)
    (patent_no patent_type application_number : str) (r : PatentRecord) :
  parse_patent_json_for_details is_organization env data patent_no patent_type
    application_number = Ok r ->
  exists axis_items application_date inventors first_applicant abstract first_claim
         other_biblio,
    scan_axis axis_items = Ok application_date
    /\ (first_applicant = PStr [] \/ is_organization first_applicant = Ok true)
    /\ py_get data (lit "otherBibliographicItems") (PList []) = Ok other_biblio
    /\ r = [(k_patent_no, PStr patent_no);
            (k_patent_type, PStr patent_type);
            (k_application_date, PStr application_date);
            (k_application_number, PStr application_number);
            (k_inventors, inventors);
            (k_first_applicant, first_applicant);
            (k_abstract, abstract);
            (k_examiner,
              let examiner := match other_biblio with
                              | PList items => scan_examiner items
                              | _ => PStr []
                              end in
              if negb (truthy examiner) && str_eqb patent_type invention_application
              then PStr (find_examiner_from_pdf_files env patent_no patent_type)
              else examiner);
            (k_first_claim, first_claim)].
Proof.
  unfold parse_patent_json_for_details, bind. intros H.
  destruct (py_get data (lit "axisSortMap") (PDict [])) as [axis |]; [| discriminate H].
  destruct axis as [| | | | | | | axis_items]; try discriminate H.
  destruct (scan_axis axis_items) as [application_date |] eqn:Hdate; [| discriminate H].
  destruct (py_get data (lit "bibliographicItems") (PDict [])) as [biblio |];
    [| discriminate H].
  match type of H with
  | match ?e with Ok _ => _ | Raise => _ end = _ =>
      destruct e as [inventors |]; [| discriminate H]
  end.
  match type of H with
  | match ?e with Ok _ => _ | Raise => _ end = _ =>
      destruct e as [first_applicant |] eqn:Happ; [| discriminate H]
  end.
  destruct (py_get data (lit "summaryInformation") (PDict [])) as [summary |];
    [| discriminate H].
  match type of H with
  | match ?e with Ok _ => _ | Raise => _ end = _ =>
      destruct e as [abstract |]; [| discriminate H]
  end.
  destruct (py_get data (lit "firstClaim") (PDict [])) as [claim_data |];
    [| discriminate H].
  match type of H with
  | match ?e with Ok _ => _ | Raise => _ end = _ =>
      destruct e as [first_claim |]; [| discriminate H]
  end.
  destruct (py_get data (lit "otherBibliographicItems") (PList [])) as [other |] eqn:Hother;
    [| discriminate H].
  injection H as <-.
  exists axis_items, application_date, inventors, first_applicant, abstract, first_claim,
    other.
  split; [exact Hdate |]. split; [| split; [reflexivity | reflexivity]].
  clear - Happ.
  destruct (is_dict biblio); [| injection Happ as <-; now left].
  destruct (py_get biblio (lit "apRoot") (PList [])) as [ap_root |]; [| discriminate Happ].
  destruct ap_root as [| | | | | | [| first_app others] |];
    try (injection Happ as <-; now left).
  destruct (truthy first_app); [| injection Happ as <-; now left].
  destruct (is_organization first_app) as [[|] |] eqn:Horg;
    [| injection Happ as <-; now left | discriminate Happ].
  injection Happ as <-. now right.
Qed.

(** What a fetch that returns a record went through, with the type code *)
Lemma fetch_inversion_type (env : FetchEnv) (tokens : dict pyval) (patent_no : str)
    (r : PatentRecord) :
  fetch_details_immediately is_organization env tokens patent_no = Some r ->
  exists data pt patent_type application_number,
    type_of_code pt = Ok patent_type
    /\ is_dict data = true
    /\ parse_patent_json_for_details is_organization env data patent_no patent_type
         application_number = Ok r.
Proof.
  unfold fetch_details_immediately, fetch_details_body, try_except, bind.
  destruct (truthy (get_or tokens k_pnk (PStr []))); cbn [negb]; [| discriminate].
  destruct (py_slice (get_or tokens k_pnk (PStr []))); [| discriminate].
  destruct (browser_session env); [| discriminate].
  destruct (api_data (common_info env)) as [[common_data |] |]; try discriminate.
  destruct (py_get common_data (lit "pt") (PStr [])) as [pt |]; [| discriminate].
  destruct (py_get common_data (lit "an") (PStr [])) as [an |]; [| discriminate].
  destruct (type_of_code pt) as [patent_type |] eqn:Ht; [| discriminate].
  destruct (api_data (base_info env)) as [[data |] |]; try discriminate.
  destruct (truthy data); cbn [negb orb]; [| discriminate].
  destruct (is_dict data) eqn:Hd; cbn [negb]; [| discriminate].
  destruct (strip_cn an) as [application_number |]; [| discriminate].
  destruct (parse_patent_json_for_details is_organization env data patent_no patent_type
              application_number) as [details |] eqn:Hp; [| discriminate].
  intros [= <-]. exists data, pt, patent_type, application_number.
  split; [exact Ht |]. split; [exact Hd | exact Hp].
Qed.

(** X11. In every record that [fetch_details_immediately] returns,
    [patent_type] is one of the four type names or the empty string, and
    [application_date] is a string without a hyphen. *)
Theorem X11_type_and_date_are_normalised (env : FetchEnv) (tokens : dict pyval)
    (patent_no : str) (r : PatentRecord) :
  fetch_details_immediately is_organization env tokens patent_no = Some r ->
  exists patent_type application_date,
    dict_get r k_patent_type = Some (PStr patent_type)
    /\ (patent_type = [] \/ In patent_type patent_type_names)
    /\ dict_get r k_application_date = Some (PStr application_date)
    /\ has_hyphen application_date = false.
Proof.
  intros H. apply fetch_inversion_type in H.
  destruct H as (data & pt & patent_type & number & Ht & _ & Hp).
  apply parse_details_steps in Hp.
  destruct Hp as (items & date & inv & app & ab & fc & other & Hdate & _ & _ & ->).
  exists patent_type, date.
  split; [reflexivity |]. split; [exact (type_of_code_names _ _ Ht) |].
  split; [reflexivity | exact (scan_axis_no_hyphen _ _ Hdate)].
Qed.

(** X12. The [first_applicant] of a record is the empty string or an
    applicant that [is_organization] accepts: an applicant the classifier
    turns down is never written to a record. *)
Theorem X12_first_applicant_is_an_organisation (env : FetchEnv) (tokens : dict pyval)
    (patent_no : str) (r : PatentRecord) :
  fetch_details_immediately is_organization env tokens patent_no = Some r ->
  exists first_applicant,
    dict_get r k_first_applicant = Some first_applicant
    /\ (first_applicant = PStr [] \/ is_organization first_applicant = Ok true).
Proof.
  intros H. apply fetch_inversion_type in H.
  destruct H as (data & pt & patent_type & number & _ & _ & Hp).
  apply parse_details_steps in Hp.
  destruct Hp as (items & date & inv & app & ab & fc & other & _ & Happ & _ & ->).
  exists app. split; [reflexivity | exact Happ].
Qed.

Lemma parse_without_pdf (env env' : FetchEnv) (data : pyval)
    (patent_no patent_type application_number : str) :
  str_eqb patent_type invention_application = false ->
  parse_patent_json_for_details is_organization env' data patent_no patent_type
    application_number
  = parse_patent_json_for_details is_organization env data patent_no patent_type
      application_number.
Proof.
  intros H. unfold parse_patent_json_for_details, find_examiner_from_pdf_files.
  rewrite H. cbn [negb]. rewrite !orb_true_r. reflexivity.
Qed.

(** X13. The documents in the [pdfs] folder matter to a record only when
    its type is 发明申请: a fetch that returns a record of any other type
    returns the same record whatever the folder holds. *)
Theorem X13_pdf_folder_is_read_for_invention_applications_only (env : FetchEnv)
    (tokens : dict pyval) (patent_no : str) (r : PatentRecord)
    (folder : str -> str) :
  fetch_details_immediately is_organization env tokens patent_no = Some r ->
  dict_get r k_patent_type <> Some (PStr invention_application) ->
  fetch_details_immediately is_organization
    (mkFetchEnv (browser_session env) (common_info env) (base_info env) folder)
    tokens patent_no = Some r.
Proof.
  intros H Htype. revert H.
  unfold fetch_details_immediately, fetch_details_body, try_except, bind.
  cbn [browser_session common_info base_info].
  destruct (truthy (get_or tokens k_pnk (PStr []))); cbn [negb]; [| discriminate].
  destruct (py_slice (get_or tokens k_pnk (PStr []))); [| discriminate].
  destruct (browser_session env); [| discriminate].
  destruct (api_data (common_info env)) as [[common_data |] |]; try discriminate.
  destruct (py_get common_data (lit "pt") (PStr [])) as [pt |]; [| discriminate].
  destruct (py_get common_data (lit "an") (PStr [])) as [an |]; [| discriminate].
  destruct (type_of_code pt) as [patent_type |]; [| discriminate].
  destruct (api_data (base_info env)) as [[data |] |]; try discriminate.
  destruct (negb (truthy data) || negb (is_dict data)); [discriminate |].
  destruct (strip_cn an) as [application_number |]; [| discriminate].
  destruct (parse_patent_json_for_details is_organization env data patent_no patent_type
              application_number) as [details |] eqn:Hp; [| discriminate].
  intros [= <-].
  assert (Hne : str_eqb patent_type invention_application = false).
  { destruct (str_eqb patent_type invention_application) eqn:E; [| reflexivity].
    apply str_eqb_eq in E. subst patent_type. exfalso. apply Htype.
    apply parse_details_shape in Hp.
    destruct Hp as (date & inv & app & ab & ex & fc & ->). reflexivity. }
  now rewrite (parse_without_pdf env _ data patent_no patent_type application_number Hne), Hp.
Qed.

End RecordFields.

Definition dated_env : FetchEnv :=
  mkFetchEnv (Ok tt)
    (answer (PDict [(lit "pt", PStr (lit "2")); (lit "an", PStr (lit "CN201020123456"))]))
    (answer (PDict [(lit "axisSortMap",
                      PDict [(lit "1", PDict [(lit "axisName", PStr (lit "申请日"));
                                              (lit "axisDate", PStr (lit "2010-03-04"))])]);
                    (lit "bibliographicItems",
                      PDict [(lit "in_or", PStr (lit "Li"));
                             (lit "apRoot", PList [PStr (lit "Li")])])]))
    (fun _ => lit "Wang").

Definition dated_record : PatentRecord :=
  [(k_patent_no, PStr sample_patent);
   (k_patent_type, PStr (lit "实用新型"));
   (k_application_date, PStr (lit "20100304"));
   (k_application_number, PStr (lit "201020123456"));
   (k_inventors, PStr (lit "Li"));
   (k_first_applicant, PStr []);
   (k_abstract, PStr []);
   (k_examiner, PStr []);
   (k_first_claim, PStr [])].

Lemma dated_fetch (folder : str -> str) :
  fetch_details_immediately (fun _ => Ok false)
    (mkFetchEnv (browser_session dated_env) (common_info dated_env) (base_info dated_env)
       folder)
    [(k_pnk, PStr (lit "PNK"))] sample_patent = Some dated_record.
Proof. vm_compute. reflexivity. Qed.

Lemma X11_type_and_date_are_normalised_witness :
  exists patent_type application_date,
    dict_get dated_record k_patent_type = Some (PStr patent_type)
    /\ (patent_type = [] \/ In patent_type patent_type_names)
    /\ dict_get dated_record k_application_date = Some (PStr application_date)
    /\ has_hyphen application_date = false.
Proof.
  apply (X11_type_and_date_are_normalised (fun _ => Ok false) dated_env
           [(k_pnk, PStr (lit "PNK"))] sample_patent).
  vm_compute. reflexivity.
Defined.

Lemma X12_first_applicant_is_an_organisation_witness :
  exists first_applicant,
    dict_get dated_record k_first_applicant = Some first_applicant
    /\ (first_applicant = PStr [] \/ (fun _ : pyval => Ok false) first_applicant = Ok true).
Proof.
  apply (X12_first_applicant_is_an_organisation (fun _ => Ok false) dated_env
           [(k_pnk, PStr (lit "PNK"))] sample_patent).
  vm_compute. reflexivity.
Defined.

Lemma X13_pdf_folder_is_read_for_invention_applications_only_witness :
  fetch_details_immediately (fun _ => Ok false)
    (mkFetchEnv (browser_session dated_env) (common_info dated_env) (base_info dated_env)
       (fun _ => lit "Zhang"))
    [(k_pnk, PStr (lit "PNK"))] sample_patent = Some dated_record.
Proof.
  apply (X13_pdf_folder_is_read_for_invention_applications_only (fun _ => Ok false)
           dated_env [(k_pnk, PStr (lit "PNK"))] sample_patent dated_record).
  - vm_compute. reflexivity.
  - vm_compute. discriminate.
Defined.

(** ** The records and the books of a run *)

(** A record with the nine names and no [None] among its values *)
Definition complete (r : PatentRecord) : Prop :=
  keys r = record_keys /\ forall k v, In (k, v) r -> v <> PNone.




Section Books.

Variable is_organization : pyval -> result bool.

Lemma single_record_complete (st : State) (env : SingleEnv) (patent_no : str)
    (skip_search : bool) (r : PatentRecord) :
  fst (process_single_patent_realtime is_organization st env patent_no skip_search) = Some r ->
  complete r.
Proof.
  assert (Hfetch : forall st' tokens,
             fst (match fetch_and_report is_organization st' env skip_search tokens patent_no
                  with
                  | (Ok x, st'') => (x, st'')
                  | (Raise, st'') =>
                      (None, if negb skip_search
                             then _update_performance_profile st'' false
                                    (last_search_used_fallback st'')
                             else st'')
                  end) = Some r ->
             complete r).
  { intros st' tokens. unfold fetch_and_report.
    destruct (fetch_details_immediately is_organization (fetch_env env) tokens patent_no)
      as [patent_data |] eqn:Hf; [| discriminate].
    destruct (py_slice (get_or patent_data k_inventors (PStr []))) as [u |] eqn:Hslice;
      [| discriminate].
    cbn [fst]. intros [= <-].
    pose proof (fetch_values_not_none is_organization _ _ _ _ Hf) as Hvalues.
    apply (fetch_inversion is_organization) in Hf.
    destruct Hf as (common_data & data & an & patent_type & number & _ & _ & _ & _ & Hp).
    apply parse_details_shape in Hp.
    destruct Hp as (date & inventors & app & ab & ex & fc & ->).
    split; [reflexivity |].
    intros k v Hin. destruct (list_eq_dec N.eq_dec k k_inventors) as [-> | Hk];
      [| exact (Hvalues k v Hin Hk)].
    change (py_slice inventors = Ok u) in Hslice.
    cbn [In] in Hin.
    repeat (destruct Hin as [Hin | Hin];
            [pose proof (f_equal fst Hin) as Hkey; pose proof (f_equal snd Hin) as Hv;
             cbn [fst snd] in Hkey, Hv; try (vm_compute in Hkey; discriminate Hkey) |]);
      try contradiction.
    subst v. intros ->. discriminate Hslice. }
  unfold process_single_patent_realtime, process_single_body.
  destruct skip_search.
  - destruct (extract_pnk env) as [pnk |]; [| discriminate].
    destruct (truthy pnk); cbn [negb]; [| discriminate]. apply Hfetch.
  - destruct (guarded_search env) as [found |]; [| discriminate].
    destruct found; cbn [negb]; [| discriminate].
    destruct (extract_tokens_from_network env); [| discriminate]. apply Hfetch.
Qed.

(** X14. Every record a run adds to the prior ones has the nine names and
    no [None] among its values, [inventors] included: a record whose
    inventors are missing makes [process_single_patent_realtime] give up on
    the patent. *)
Theorem X14_records_of_a_run_are_complete (st : State) (env : BatchEnv)
    (output : OutputFile) (patent_list : list str) (skip_unavailable skip_search : bool) :
  exists new,
    results (last (process_batch_realtime is_organization st env output patent_list
                     skip_unavailable skip_search))
    = existing_results_of output ++ new
    /\ Forall complete new.
Proof.
  apply (batch_run_keeps is_organization
           (fun l => exists new,
                results l = existing_results_of output ++ new /\ Forall complete new)).
  - intros e p l (new & Hr & Hc). unfold batch_step.
    destruct (skip_unavailable && Nat.leb 5 (consecutive_not_found l));
      [cbn [fst results]; now exists new |].
    destruct (restart_if_needed e l) as [failures | c]; [| cbn [fst]; now exists new].
    pose proof (single_record_complete (proc l) (single e) p skip_search) as Hs.
    destruct (process_single_patent_realtime is_organization (proc l) (single e) p
                skip_search) as [[r |] st']; cbn [fst record_outcome results] in *.
    + exists (new ++ [r]). split; [now rewrite Hr, app_assoc |].
      apply Forall_app. split; [exact Hc |]. constructor; [now apply Hs | constructor].
    + now exists new.
  - exists []. split; [now rewrite app_nil_r | constructor].
Qed.









(** The unavailable patents, and the failed searches in a row on the way
    to the next one *)
Definition skip_credit (l : Loop) : nat :=
  6 * List.length (unavailable_patents l) + Nat.min (consecutive_not_found l) 5.

Lemma skip_credit_step (skip_unavailable skip_search : bool) (env : IterEnv) (p : str)
    (l : Loop) :
  skip_credit (fst (batch_step is_organization skip_unavailable skip_search env p l))
  <= skip_credit l + 1.
Proof.
  unfold batch_step, skip_credit.
  destruct (skip_unavailable && Nat.leb 5 (consecutive_not_found l)) eqn:Hskip.
  - apply andb_true_iff in Hskip. destruct Hskip as [_ Hfive]. apply Nat.leb_le in Hfive.
    cbn [fst unavailable_patents consecutive_not_found]. rewrite length_app.
    cbn [List.length]. lia.
  - destruct (restart_if_needed env l) as [failures | c]; [| cbn [fst]; lia].
    destruct (process_single_patent_realtime is_organization (proc l) (single env) p
                skip_search) as [[r |] st'];
      cbn [fst record_outcome unavailable_patents consecutive_not_found]; [lia |].
    destruct (Nat.ltb (List.length (failed_patents l)) (search_fail_count st')); lia.
Qed.

Lemma skip_credit_loop (skip_unavailable skip_search : bool) (turns : nat -> IterEnv)
    (remaining : list str) :
  forall (i : nat) (l : Loop),
    skip_credit (fst (batch_loop is_organization skip_unavailable skip_search turns i
                        remaining l))
    <= skip_credit l + List.length remaining.
Proof.
  induction remaining as [| p rest IH]; intros i l; cbn [batch_loop fst List.length];
    [lia |].
  pose proof (skip_credit_step skip_unavailable skip_search (turns i) p l) as Hs.
  destruct (batch_step is_organization skip_unavailable skip_search (turns i) p l)
    as [l1 [| |]]; cbn [fst] in *; try lia.
  specialize (IH (S i) l1). lia.
Qed.

(** X16. A run marks at most one in six of the remaining patents as
    unavailable: five searches in a row have to fail before a patent is
    skipped, and the count starts again after every skip. *)
Theorem X16_at_most_one_in_six_is_skipped (st : State) (env : BatchEnv)
    (output : OutputFile) (patent_list : list str) (skip_unavailable skip_search : bool) :
  6 * List.length
        (unavailable_patents
           (last (process_batch_realtime is_organization st env output patent_list
                    skip_unavailable skip_search)))
  <= List.length (remaining_patents output patent_list).
Proof.
  unfold process_batch_realtime.
  destruct (remaining_patents output patent_list) as [| p rest]; [cbn; lia |].
  destruct (first_login env) as [[|] |]; try (cbn; lia).
  pose proof (skip_credit_loop skip_unavailable skip_search (turn env) (p :: rest) 1
                (loop_start st output)) as H.
  destruct (batch_loop is_organization skip_unavailable skip_search (turn env) 1 (p :: rest)
              (loop_start st output)) as [l c].
  unfold skip_credit in H. cbn [fst loop_start unavailable_patents consecutive_not_found
                                  List.length] in H.
  destruct c; cbn [last List.length]; lia.
Qed.

Lemma update_keeps_fail_count (st : State) (success used_fallback : bool) :
  search_fail_count (_update_performance_profile st success used_fallback)
  = search_fail_count st.
Proof.
  unfold _update_performance_profile. split_ifs; reflexivity.
Qed.

(** A patent that gives a record leaves the count of failed searches as it
    was; one that gives none adds at most one to it. *)
Lemma single_fail_count (st : State) (env : SingleEnv) (p : str) (skip_search : bool) :
  match process_single_patent_realtime is_organization st env p skip_search with
  | (Some _, st') => search_fail_count st' = search_fail_count st
  | (None, st') => search_fail_count st' <= S (search_fail_count st)
  end.
Proof.
  unfold process_single_patent_realtime, process_single_body, fetch_and_report.
  destruct skip_search; cbn [negb].
  - destruct (extract_pnk env) as [pnk |]; [| lia].
    destruct (truthy pnk); cbn [negb]; [| lia].
    destruct (fetch_details_immediately is_organization (fetch_env env) _ p)
      as [patent_data |];
      [destruct (py_slice (get_or patent_data k_inventors (PStr []))) |];
      rewrite ?update_keeps_fail_count, ?record_stage_time_keeps_counts; lia.
  - destruct (guarded_search env) as [found |];
      [| rewrite ?update_keeps_fail_count; cbn; lia].
    destruct found; cbn [negb];
      [| rewrite ?update_keeps_fail_count; cbn; lia].
    destruct (extract_tokens_from_network env) as [tokens |];
      [| rewrite ?update_keeps_fail_count, ?record_stage_time_keeps_counts; cbn; lia].
    destruct (fetch_details_immediately is_organization (fetch_env env) _ p)
      as [patent_data |];
      [destruct (py_slice (get_or patent_data k_inventors (PStr []))) |];
      rewrite ?update_keeps_fail_count, ?record_stage_time_keeps_counts,
        ?update_keeps_fail_count, ?record_stage_time_keeps_counts; cbn; lia.
Qed.

(** The test for a patent not found can no longer succeed: fewer searches
    have failed than patents. *)
Definition detection_off (l : Loop) : Prop :=
  search_fail_count (proc l) < List.length (failed_patents l)
  /\ consecutive_not_found l = 0.

Lemma detection_off_step (skip_unavailable skip_search : bool) (env : IterEnv) (p : str)
    (l : Loop) :
  detection_off l ->
  detection_off (fst (batch_step is_organization skip_unavailable skip_search env p l))
  /\ unavailable_patents (fst (batch_step is_organization skip_unavailable skip_search env
                                 p l))
     = unavailable_patents l.
Proof.
  intros [Hlt Hzero]. unfold batch_step. rewrite Hzero.
  change (Nat.leb 5 0) with false. rewrite andb_false_r.
  destruct (restart_if_needed env l) as [failures | c];
    [| cbn [fst]; split; [now split | reflexivity]].
  pose proof (single_fail_count (proc l) (single env) p skip_search) as Hs.
  destruct (process_single_patent_realtime is_organization (proc l) (single env) p
              skip_search) as [[r |] st'];
    cbn [fst record_outcome]; unfold detection_off;
    cbn [proc failed_patents consecutive_not_found unavailable_patents].
  - split; [| reflexivity]. split; [lia | reflexivity].
  - split; [| reflexivity]. rewrite length_app. cbn [List.length].
    destruct (Nat.ltb (List.length (failed_patents l)) (search_fail_count st')) eqn:E.
    + apply Nat.ltb_lt in E. lia.
    + split; [lia | reflexivity].
Qed.

Lemma detection_off_loop (skip_unavailable skip_search : bool) (turns : nat -> IterEnv)
    (remaining : list str) :
  forall (i : nat) (l : Loop),
    detection_off l ->
    unavailable_patents
      (fst (batch_loop is_organization skip_unavailable skip_search turns i remaining l))
    = unavailable_patents l.
Proof.
  induction remaining as [| p rest IH]; intros i l Hl; cbn [batch_loop fst];
    [reflexivity |].
  destruct (detection_off_step skip_unavailable skip_search (turns i) p l Hl) as [Hoff Hu].
  destruct (batch_step is_organization skip_unavailable skip_search (turns i) p l)
    as [l1 [| |]]; cbn [fst] in *; try exact Hu.
  now rewrite (IH (S i) l1 Hoff).
Qed.

(** X17. The loop tells a patent that was not found from another failure
    by comparing [search_fail_count] with the length of [failed_patents].
    Once a patent has failed without a failed search (no token, no record,
    an exception), the count is behind for good: from that turn to the end
    of the run no patent is marked unavailable, however many searches fail
    in a row. *)
Theorem X17_one_other_failure_ends_the_skipping (skip_unavailable skip_search : bool)
    (env : IterEnv) (p : str) (l l1 : Loop) :
  search_fail_count (proc l) <= List.length (failed_patents l) ->
  batch_step is_organization skip_unavailable skip_search env p l = (l1, Next) ->
  failed_patents l1 = failed_patents l ++ [p] ->
  search_fail_count (proc l1) = search_fail_count (proc l) ->
  forall (turns : nat -> IterEnv) (i : nat) (rest : list str),
    unavailable_patents
      (fst (batch_loop is_organization skip_unavailable skip_search turns i rest l1))
    = unavailable_patents l1.
Proof.
  intros Hle Hstep Hfailed Hcount turns i rest.
  apply detection_off_loop. split; [rewrite Hcount, Hfailed, length_app; cbn; lia |].
  revert Hstep. unfold batch_step.
  destruct (skip_unavailable && Nat.leb 5 (consecutive_not_found l)).
  { intros [= <-]. cbn [failed_patents] in Hfailed.
    apply (f_equal (@List.length str)) in Hfailed. rewrite length_app in Hfailed.
    cbn in Hfailed. lia. }
  destruct (restart_if_needed env l) as [failures | c]; [| intros [= <- _]].
  2: { apply (f_equal (@List.length str)) in Hfailed. rewrite length_app in Hfailed.
       cbn in Hfailed. lia. }
  destruct (process_single_patent_realtime is_organization (proc l) (single env) p
              skip_search) as [[r |] st'];
    intros [= <-]; cbn [record_outcome failed_patents proc consecutive_not_found] in *.
  - apply (f_equal (@List.length str)) in Hfailed. rewrite length_app in Hfailed.
    cbn in Hfailed. lia.
  - rewrite Hcount.
    destruct (Nat.ltb (List.length (failed_patents l)) (search_fail_count (proc l))) eqn:E;
      [| reflexivity].
    apply Nat.ltb_lt in E. lia.
Qed.

End Books.

(** A patent that is found, but whose page gives no access key *)
Definition no_token : SingleEnv :=
  mkSingleEnv (Ok PNone) (Ok true) false null_inventors_env 0 0 0.

Definition fresh_loop : Loop := loop_start (__init__ plain_base) Missing.

(** Six searches that fail in a row: the sixth patent is marked
    unavailable. *)
Example six_not_found :
  unavailable_patents
    (fst (batch_loop (fun _ => Ok false) true false (fun _ => mkIterEnv (Ok true) no_key) 1
            six_patents fresh_loop))
  = [lit "CN6A"].
Proof. vm_compute. reflexivity. Qed.

Lemma X17_one_other_failure_ends_the_skipping_witness :
  let l1 := fst (batch_step (fun _ => Ok false) true false (mkIterEnv (Ok true) no_token)
                   sample_patent fresh_loop) in
  failed_patents l1 = [sample_patent]
  /\ unavailable_patents
       (fst (batch_loop (fun _ => Ok false) true false (fun _ => mkIterEnv (Ok true) no_key) 2
               six_patents l1))
     = unavailable_patents l1.
Proof.
  cbv zeta. split; [vm_compute; reflexivity |].
  apply (X17_one_other_failure_ends_the_skipping (fun _ => Ok false) true false
           (mkIterEnv (Ok true) no_token) sample_patent fresh_loop).
  - vm_compute. lia.
  - vm_compute. reflexivity.
  - vm_compute. reflexivity.
  - vm_compute. reflexivity.
Defined.


(** ** Time-outs and pauses *)

Ltac q_case_min a b :=
  let m := fresh "m" in
  let H := fresh "Hm" in
  pose proof (Q.min_spec_le a b) as H; set (m := Qmin a b) in *; clearbody m;
  destruct H as [[? ?] | [? ?]].

Ltac q_case_max a b :=
  let m := fresh "m" in
  let H := fresh "Hm" in
  pose proof (Q.max_spec_le a b) as H; set (m := Qmax a b) in *; clearbody m;
  destruct H as [[? ?] | [? ?]].

Ltac q_cases :=
  repeat match goal with
         | |- context [Qmin ?a ?b] => q_case_min a b
         | |- context [Qmax ?a ?b] => q_case_max a b
         | H : context [Qmin ?a ?b] |- _ => q_case_min a b
         | H : context [Qmax ?a ?b] |- _ => q_case_max a b
         end.







Lemma uniform_between (a b u : Q) :
  (a <= b)%Q -> (0 <= u)%Q -> (u <= 1)%Q -> (a <= uniform a b u)%Q /\ (uniform a b u <= b)%Q.
Proof.
  intros Hab H0 H1. unfold uniform.
  assert (H : (0 <= (b - a) * u)%Q) by (apply Qmult_le_0_compat; lra).
  assert (H' : (0 <= (b - a) * (1 - u))%Q) by (apply Qmult_le_0_compat; lra).
  split; [lra |].
  assert (E : ((b - a) * (1 - u) == (b - a) - (b - a) * u)%Q) by ring.
  rewrite E in H'. lra.
Qed.

(** X19. The pause between two patents, for a draw [u] of [random()] from
    0 to 1: after a success it is between 0.3 and 1 second; after a failure
    (the loop then has at least one failure in a row on its count) between 2
    and 5 seconds.  A failure always makes the loop wait at least twice as
    long as a success does. *)
Theorem X19_pause_bounds (st : State) (success : bool) (consecutive_failures : nat) (u : Q) :
  (0 <= u)%Q -> (u <= 1)%Q ->
  let d := _get_adaptive_delay st success consecutive_failures u in
  if success then ((3 # 10) <= d)%Q /\ (d <= 1)%Q
  else if Nat.ltb 0 consecutive_failures then (2 <= d)%Q /\ (d <= 5)%Q
  else ((4 # 5) <= d)%Q /\ (d <= (8 # 5))%Q.
Proof.
  intros H0 H1 d. unfold d, _get_adaptive_delay, delay_profiles.
  destruct success.
  - destruct (performance_mode st);
      match goal with
      | |- (_ <= uniform ?a ?b u)%Q /\ _ =>
          destruct (uniform_between a b u); [lra | assumption | assumption |]
      end; split; lra.
  - destruct (Nat.ltb 0 consecutive_failures) eqn:E.
    + apply Nat.ltb_lt in E.
      assert (Hc : (1 <= inject_Z (Z.of_nat consecutive_failures))%Q)
        by (change 1%Q with (inject_Z 1); rewrite <- Zle_Qle; lia).
      set (c := inject_Z (Z.of_nat consecutive_failures)) in *. clearbody c.
      destruct (performance_mode st); q_cases;
        match goal with
        | |- (_ <= uniform ?a ?b u)%Q /\ _ =>
            destruct (uniform_between a b u); [lra | assumption | assumption |]
        end; split; lra.
    + destruct (uniform_between (4 # 5) (8 # 5) u); [lra | assumption | assumption |].
      split; assumption.
Qed.

Lemma X19_pause_bounds_witness :
  _get_adaptive_delay (__init__ plain_base) false 2 (1 # 2) == 3
  /\ (2 <= _get_adaptive_delay (__init__ plain_base) false 2 (1 # 2))%Q.
Proof.
  split; [vm_compute; reflexivity |].
  exact (proj1 (X19_pause_bounds (__init__ plain_base) false 2 (1 # 2)
                  ltac:(lra) ltac:(lra))).
Defined.

(** ** The guarded search *)

Lemma fallback_search_state (st : State) (env : FallbackEnv) (wait_timeout : Q) :
  match _fallback_search_patent st env wait_timeout with
  | (Ok true, st') => st' = set_last_search_used_fallback st true
  | (_, st') => st' = st
  end.
Proof.
  unfold _fallback_search_patent.
  destruct (negb (submit env)); [reflexivity |].
  destruct (poll_from env (polls wait_timeout) 0) as [[|] |]; reflexivity.
Qed.

(** What the loop over the fallback attempts leaves *)
Lemma fallback_attempts_end (env : SearchEnv) (n : nat) :
  forall (st : State) (attempt : Z) (tried : list (Z * Q)),
    let out := fallback_attempts st env n attempt tried in
    search_state out
    = match search_returned out with
      | Ok true => set_last_search_used_fallback st true
      | _ => st
      end
    /\ exists more,
         fallback_tried out = tried ++ more
         /\ List.length more <= n
         /\ Forall (fun a => (attempt <= fst a < attempt + Z.of_nat n)%Z
                             /\ snd a = _adaptive_wait_timeout st (fst a)) more.
Proof.
  induction n as [| n IH]; intros st attempt tried; cbn [fallback_attempts].
  - cbv zeta. cbn [search_state search_returned fallback_tried]. split; [reflexivity |].
    exists []. rewrite app_nil_r. repeat split; [cbn; lia | constructor].
  - cbv zeta.
    pose proof (fallback_search_state st (fallback env attempt)
                  (_adaptive_wait_timeout st attempt)) as Hs.
    destruct (_fallback_search_patent st (fallback env attempt)
                (_adaptive_wait_timeout st attempt)) as [[[|] |] st'];
      subst st'.
    + cbn [search_state search_returned fallback_tried]. split; [reflexivity |].
      exists [(attempt, _adaptive_wait_timeout st attempt)].
      repeat split; [cbn; lia |]. constructor; [| constructor]. cbn [fst snd].
      split; [lia | reflexivity].
    + specialize (IH st (attempt + 1)%Z
                    (tried ++ [(attempt, _adaptive_wait_timeout st attempt)])).
      cbv zeta in IH. destruct IH as (Hstate & more & Htried & Hlen & Hall).
      split; [exact Hstate |].
      exists ((attempt, _adaptive_wait_timeout st attempt) :: more).
      split; [now rewrite Htried, <- app_assoc |]. split; [cbn; lia |].
      constructor; [cbn [fst snd]; split; [lia | reflexivity] |].
      apply (Forall_impl _ (P := fun a => (attempt + 1 <= fst a < attempt + 1 + Z.of_nat n)%Z
                                          /\ snd a = _adaptive_wait_timeout st (fst a)));
        [| exact Hall].
      intros a [Hrange Htime]. split; [lia | exact Htime].
    + cbn [search_state search_returned fallback_tried]. split; [reflexivity |].
      exists [(attempt, _adaptive_wait_timeout st attempt)].
      repeat split; [cbn; lia |]. constructor; [| constructor]. cbn [fst snd].
      split; [lia | reflexivity].
Qed.

Lemma guarded_search_end (st : State) (env : SearchEnv) (max_attempts : Z) :
  let out := search_patent_with_guards st env max_attempts in
  search_state out
  = set_last_search_used_fallback st
      (match primary env, search_returned out with
       | Ok false, Ok true => true
       | _, _ => false
       end)
  /\ List.length (fallback_tried out) <= Z.to_nat (effective_attempts st max_attempts - 1)
  /\ Forall (fun a => (2 <= fst a <= effective_attempts st max_attempts)%Z
                      /\ snd a = _adaptive_wait_timeout st (fst a)) (fallback_tried out).
Proof.
  unfold search_patent_with_guards. cbv zeta.
  destruct (primary env) as [[|] |];
    try (cbn [search_state search_returned fallback_tried List.length];
         split; [reflexivity |]; split; [lia | constructor]).
  change (effective_attempts (set_last_search_used_fallback st false) max_attempts)
    with (effective_attempts st max_attempts).
  destruct (fallback_attempts_end env (Z.to_nat (effective_attempts st max_attempts - 1))
              (set_last_search_used_fallback st false) 2 [])
    as (Hstate & more & Htried & Hlen & Hall).
  cbn [app] in Htried. rewrite Htried, Hstate. split; [| split; [exact Hlen |]].
  - destruct (search_returned _) as [[|] |]; reflexivity.
  - apply (Forall_impl _ (P := fun a =>
             (2 <= fst a < 2 + Z.of_nat (Z.to_nat (effective_attempts st max_attempts - 1)))%Z
             /\ snd a = _adaptive_wait_timeout (set_last_search_used_fallback st false)
                          (fst a))); [| exact Hall].
    intros a [Hrange Htime]. split; [lia | exact Htime].
Qed.


Lemma record_stage_time_keeps_flag (st : State) (stage : str) (duration : Q) :
  last_search_used_fallback (_record_stage_time st stage duration)
  = last_search_used_fallback st.
Proof.
  unfold _record_stage_time. destruct (dict_get (speed_stats st) stage); reflexivity.
Qed.

(** X21. A patent that only a fallback attempt of the guarded search found
    leaves the processor in normal mode with a success streak of 0, whether
    or not its record is fetched: a success through the fallback does not
    count towards fast mode. *)
Theorem X21_fallback_success_ends_in_normal_mode (is_organization : pyval -> result bool)
    (st : State) (env : SearchEnv) (rest : SingleEnv) (p : str) :
  primary env = Ok false ->
  search_returned (search_patent_with_guards st env 3) = Ok true ->
  let st' := snd (process_single_patent_realtime is_organization st
                    (searched_by st env rest) p false) in
  performance_mode st' = normal /\ success_streak st' = 0.
Proof.
  intros Hprimary Hfound.
  destruct (guarded_search_end st env 3) as (Hstate & _ & _).
  rewrite Hprimary, Hfound in Hstate.
  unfold process_single_patent_realtime, process_single_body, fetch_and_report, searched_by.
  cbv zeta. cbn [guarded_search search_left_fallback extract_pnk fetch_env search_time
                   token_time fetch_time negb].
  rewrite Hfound, Hstate. cbn [negb].
  match goal with
  | |- context [match ?e with Some _ => _ | None => _ end] => destruct e as [tokens |]
  end; [| split; reflexivity].
  match goal with
  | |- context [match ?e with Some _ => _ | None => _ end] =>
      destruct e as [patent_data |]
  end; [| split; reflexivity].
  destruct (py_slice (get_or patent_data k_inventors (PStr []))); cbn [snd];
    [| split; reflexivity].
  rewrite !record_stage_time_keeps_flag. split; reflexivity.
Qed.

(** A search that the second attempt saves: the primary search finds
    nothing, the fallback finds the link at its third poll and opens it. *)
Definition saved_by_fallback : SearchEnv :=
  mkSearchEnv (Ok false)
    (fun _ => mkFallbackEnv true (fun i => Ok (if Nat.eqb i 2 then Some true else None))).

Lemma X21_fallback_success_ends_in_normal_mode_witness :
  fst (process_single_patent_realtime (fun _ => Ok false) (__init__ plain_base)
         (searched_by (__init__ plain_base) saved_by_fallback found_key) sample_patent false)
  <> None
  /\ performance_mode
       (snd (process_single_patent_realtime (fun _ => Ok false) (__init__ plain_base)
               (searched_by (__init__ plain_base) saved_by_fallback found_key)
               sample_patent false)) = normal.
Proof.
  split; [vm_compute; discriminate |].
  apply (X21_fallback_success_ends_in_normal_mode (fun _ => Ok false) (__init__ plain_base)
           saved_by_fallback found_key sample_patent).
  - reflexivity.
  - vm_compute. reflexivity.
Defined.

(** ** The examiner in the name of a document *)

Definition has_underscore (s : str) : bool := existsb (N.eqb 95) s.

Lemma split_on_nonempty (sep : N -> bool) (s : str) : split_on sep s <> [].
Proof.
  destruct s as [| c s]; cbn [split_on]; [discriminate |].
  destruct (sep c); [discriminate |]. destruct (split_on sep s); discriminate.
Qed.

(** The pieces of a text around a separator are the pieces before it
    followed by the pieces after it. *)
Lemma split_on_around (sep : N -> bool) (a b : str) (c : N) :
  sep c = true -> split_on sep (a ++ c :: b) = split_on sep a ++ split_on sep b.
Proof.
  intros Hc. induction a as [| x a IH]; cbn [app split_on].
  - now rewrite Hc.
  - destruct (sep x); [now rewrite IH |].
    rewrite IH. pose proof (split_on_nonempty sep a) as Hne.
    destruct (split_on sep a) as [| piece pieces]; [now destruct Hne | reflexivity].
Qed.

Lemma split_on_whole (sep : N -> bool) (s : str) :
  existsb sep s = false -> split_on sep s = [s].
Proof.
  induction s as [| c s IH]; cbn [existsb split_on]; [reflexivity |].
  intros H. apply orb_false_iff in H. destruct H as [Hc Hs].
  now rewrite Hc, (IH Hs).
Qed.

Lemma split_on_pieces (sep : N -> bool) (s : str) :
  Forall (fun piece => existsb sep piece = false) (split_on sep s).
Proof.
  induction s as [| c s IH]; cbn [split_on]; [now repeat constructor |].
  destruct (sep c) eqn:Hc; [now constructor |].
  destruct (split_on sep s) as [| piece pieces]; [now repeat constructor; cbn; rewrite Hc |].
  apply Forall_cons_iff in IH. destruct IH as [Hpiece Hpieces].
  constructor; [cbn [existsb]; now rewrite Hc | exact Hpieces].
Qed.

Lemma firstn_before (a b : str) : firstn (List.length (a ++ b) - List.length b) (a ++ b) = a.
Proof.
  rewrite length_app, Nat.add_sub.
  induction a as [| x a IH]; cbn [List.length firstn app]; [now destruct b | now rewrite IH].
Qed.

Lemma examiner_after_last_underscore (stem name extension : str) :
  List.length extension = 4 -> has_underscore name = false ->
  PdfFolder.examiner_of_filename (stem ++ [95%N] ++ name ++ extension) = name.
Proof.
  intros Hext Hname. unfold PdfFolder.examiner_of_filename. cbv zeta.
  replace (stem ++ [95%N] ++ name ++ extension) with ((stem ++ 95%N :: name) ++ extension)
    by (now rewrite <- app_assoc).
  rewrite <- Hext, firstn_before, (split_on_around (N.eqb 95) stem name 95 eq_refl).
  rewrite (split_on_whole (N.eqb 95) name Hname), length_app, last_last.
  pose proof (split_on_nonempty (N.eqb 95) stem) as Hne.
  destruct (split_on (N.eqb 95) stem) as [| piece pieces]; [now destruct Hne |].
  cbn [List.length]. rewrite Nat.add_1_r. reflexivity.
Qed.

(** X22. The examiner read off the name of a document is the text between
    the last underscore and the extension: for a name [stem_name.pdf] whose
    [name] has no underscore in it, it is [name], whatever underscores the
    stem has. *)
Theorem X22_examiner_is_read_after_the_last_underscore (stem name extension : str) :
  List.length extension = 4 -> has_underscore name = false ->
  PdfFolder.examiner_of_filename (stem ++ [95%N] ++ name ++ extension) = name.
Proof. apply examiner_after_last_underscore. Qed.

Lemma X22_examiner_is_read_after_the_last_underscore_witness :
  PdfFolder.examiner_of_filename (lit "CN102345678A_张三.pdf") = lit "张三".
Proof.
  apply (X22_examiner_is_read_after_the_last_underscore (lit "CN102345678A") (lit "张三")
           (lit ".pdf")); reflexivity.
Defined.

Lemma examiner_without_underscore (filename : str) :
  has_underscore (PdfFolder.examiner_of_filename filename) = false.
Proof.
  unfold PdfFolder.examiner_of_filename. cbv zeta.
  match goal with
  | |- context [split_on ?sep ?s] =>
      pose proof (split_on_pieces sep s) as H; destruct (split_on sep s) as [| piece pieces]
  end; [reflexivity |].
  destruct (Nat.leb 2 (List.length (piece :: pieces))); [| reflexivity].
  assert (Hlast : forall l : list str,
             Forall (fun piece => existsb (N.eqb 95) piece = false) l ->
             has_underscore (List.last l []) = false).
  { induction l as [| x l IHl]; [reflexivity |].
    intros Hl. apply Forall_cons_iff in Hl. destruct Hl as [Hx Hl].
    destruct l; [exact Hx | now apply IHl]. }
  now apply Hlast.
Qed.

(** X23. [find_examiner_from_pdf_files] never returns a text with an
    underscore in it, and returns the empty string for every patent type but
    发明申请, when there is no folder [pdfs], and when no file matches; of
    several matching files only the first is read. *)
Theorem X23_examiner_from_folder (folder_exists : bool) (matching_files : list str)
    (patent_type : str) :
  let examiner := PdfFolder.find_examiner_from_pdf_files folder_exists matching_files
                    patent_type in
  has_underscore examiner = false
  /\ (patent_type <> invention_application \/ folder_exists = false \/ matching_files = [] ->
      examiner = [])
  /\ examiner = PdfFolder.find_examiner_from_pdf_files folder_exists
                  (firstn 1 matching_files) patent_type.
Proof.
  cbv zeta. unfold PdfFolder.find_examiner_from_pdf_files.
  destruct (negb (nonempty patent_type) || negb (str_eqb patent_type invention_application))
    eqn:Htype; [repeat split |].
  apply orb_false_iff in Htype. destruct Htype as [_ Htype].
  apply negb_false_iff, str_eqb_eq in Htype.
  destruct folder_exists; cbn [negb]; [| repeat split].
  destruct matching_files as [| filename others]; [repeat split |].
  cbn [firstn]. split; [apply examiner_without_underscore |]. split; [| reflexivity].
  intros [H | [H | H]]; [contradiction | discriminate H | discriminate H].
Qed.

(** ** The names the renamer gives, read by the processor *)

(** A digit or a minus sign *)
Definition numeral (c : N) : bool := ((48 <=? c) && (c <=? 57) || (c =? 45))%N.

Lemma lit_of_ascii (s : string) :
  Forall (fun a => (N_of_ascii a < 128)%N) (list_ascii_of_string s) ->
  lit s = map N_of_ascii (list_ascii_of_string s).
Proof.
  intros H. unfold lit, utf8_decode_replace.
  transitivity (decode_from None (map lit_item (map N_of_ascii (list_ascii_of_string s))));
    [| apply decode_lit_items].
  f_equal. rewrite map_map. apply map_ext_Forall.
  apply (Forall_impl _ (P := fun a => (N_of_ascii a < 128)%N)); [| exact H].
  intros a Ha. unfold lit_item. apply N.ltb_lt in Ha. now rewrite Ha.
Qed.

Lemma uint_numerals (d : Decimal.uint) :
  Forall (fun a => numeral (N_of_ascii a) = true)
    (list_ascii_of_string (NilEmpty.string_of_uint d)).
Proof.
  induction d; cbn [NilEmpty.string_of_uint list_ascii_of_string]; constructor;
    solve [reflexivity | assumption].
Qed.

Lemma int_numerals (d : Decimal.signed_int) :
  Forall (fun a => numeral (N_of_ascii a) = true)
    (list_ascii_of_string (NilZero.string_of_int d)).
Proof.
  assert (H : forall u, Forall (fun a => numeral (N_of_ascii a) = true)
                          (list_ascii_of_string (NilZero.string_of_uint u))).
  { intros u. pose proof (uint_numerals u) as Hu.
    destruct u; try exact Hu. now repeat constructor. }
  destruct d as [u | u]; cbn [NilZero.string_of_int list_ascii_of_string];
    [apply H | constructor; [reflexivity | apply H]].
Qed.

Lemma decimal_numerals (z : Z) : forallb numeral (decimal z) = true.
Proof.
  unfold decimal. pose proof (int_numerals (Z.to_int z)) as H.
  rewrite lit_of_ascii.
  - apply forallb_forall. intros c Hc. apply in_map_iff in Hc.
    destruct Hc as (a & <- & Ha). rewrite Forall_forall in H. now apply H.
  - apply (Forall_impl _ (P := fun a => numeral (N_of_ascii a) = true)); [| exact H].
    intros a Ha. unfold numeral in Ha.
    apply orb_true_iff in Ha. destruct Ha as [Ha | Ha].
    + apply andb_true_iff in Ha. destruct Ha as [_ Ha]. apply N.leb_le in Ha. lia.
    + apply N.eqb_eq in Ha. lia.
Qed.

Lemma numeral_is_kept (c : N) :
  numeral c = true -> Renamer.illegal c = false /\ N.eqb 95 c = false.
Proof.
  unfold numeral. intros H. apply orb_true_iff in H. destruct H as [H | H].
  - apply andb_true_iff in H. destruct H as [Hlow Hhigh].
    apply N.leb_le in Hlow, Hhigh. unfold Renamer.illegal. cbn [existsb].
    repeat match goal with
           | |- context [N.eqb ?a ?b] =>
               let E := fresh "E" in
               destruct (N.eqb a b) eqn:E; [apply N.eqb_eq in E; lia |]
           end.
    split; reflexivity.
  - apply N.eqb_eq in H. subst c. split; reflexivity.
Qed.

Definition sanitize_char (c : N) : N := if Renamer.illegal c then 95%N else c.

Lemma sanitize_short (filename : str) :
  List.length filename <= 200 -> Renamer.sanitize_filename filename = map sanitize_char filename.
Proof.
  intros H. unfold Renamer.sanitize_filename. cbv zeta. fold sanitize_char.
  rewrite length_map.
  destruct (Nat.ltb 200 (List.length filename)) eqn:E; [| reflexivity].
  apply Nat.ltb_lt in E. lia.
Qed.

Lemma sanitize_kept (s : str) :
  existsb Renamer.illegal s = false -> map sanitize_char s = s.
Proof.
  induction s as [| c s IH]; cbn [existsb map]; [reflexivity |].
  intros H. apply orb_false_iff in H. destruct H as [Hc Hs].
  unfold sanitize_char at 1. now rewrite Hc, (IH Hs).
Qed.

Lemma numerals_kept (s : str) :
  forallb numeral s = true -> map sanitize_char s = s /\ has_underscore s = false.
Proof.
  unfold has_underscore.
  induction s as [| c s IH]; cbn [forallb map existsb]; [now split |].
  intros H. apply andb_true_iff in H. destruct H as [Hc Hs].
  destruct (numeral_is_kept c Hc) as [Hlegal Hnot]. destruct (IH Hs) as [-> ->].
  unfold sanitize_char. now rewrite Hlegal, Hnot.
Qed.

(** X24. The renamer and the processor agree on the name of a document
    only in the plain case: the name [rename_pdfs] gives to the document of
    a patent, read by [find_examiner_from_pdf_files], gives the examiner
    back when the examiner's name has no underscore and none of the
    characters that [sanitize_filename] replaces, and the name is not cut
    at 200 characters. *)
Theorem X24_renamed_document_gives_the_examiner_back (patent_number examiner : str) :
  has_underscore examiner = false ->
  existsb Renamer.illegal examiner = false ->
  List.length (patent_number ++ [95%N] ++ examiner ++ lit ".pdf") <= 200 ->
  PdfFolder.examiner_of_filename (Renamer.new_filename patent_number examiner) = examiner.
Proof.
  intros Hunder Hlegal Hlen. unfold Renamer.new_filename.
  rewrite (sanitize_short _ Hlen), !map_app, (sanitize_kept examiner Hlegal).
  change (map sanitize_char [95%N]) with [95%N].
  apply examiner_after_last_underscore; [reflexivity | exact Hunder].
Qed.

Lemma X24_renamed_document_gives_the_examiner_back_witness :
  Renamer.new_filename (lit "CN102345678A") (lit "张三") = lit "CN102345678A_张三.pdf"
  /\ PdfFolder.examiner_of_filename (Renamer.new_filename (lit "CN102345678A") (lit "张三"))
     = lit "张三".
Proof.
  split; [vm_compute; reflexivity |].
  apply (X24_renamed_document_gives_the_examiner_back (lit "CN102345678A") (lit "张三"));
    vm_compute; first [reflexivity | lia | discriminate].
Defined.

(** X25. When the name is taken, [rename_pdfs] tries the name with a
    counter at its end; from a document so named
    [find_examiner_from_pdf_files] reads the counter, not the examiner. *)
Theorem X25_conflict_counter_is_read_as_examiner (patent_number examiner : str)
    (counter : Z) :
  List.length (patent_number ++ [95%N] ++ examiner ++ [95%N] ++ decimal counter
               ++ lit ".pdf") <= 200 ->
  PdfFolder.examiner_of_filename (Renamer.conflict_filename patent_number examiner counter)
  = decimal counter.
Proof.
  intros Hlen. unfold Renamer.conflict_filename.
  destruct (numerals_kept (decimal counter) (decimal_numerals counter)) as [Hkept Hunder].
  rewrite (sanitize_short _ Hlen), !map_app, Hkept.
  change (map sanitize_char [95%N]) with [95%N].
  rewrite (app_assoc (map sanitize_char patent_number)),
    (app_assoc (map sanitize_char patent_number ++ [95%N])).
  apply examiner_after_last_underscore; [reflexivity | exact Hunder].
Qed.

Lemma X25_conflict_counter_is_read_as_examiner_witness :
  Renamer.conflict_filename (lit "CN102345678A") (lit "张三") 1
  = lit "CN102345678A_张三_1.pdf"
  /\ PdfFolder.examiner_of_filename
       (Renamer.conflict_filename (lit "CN102345678A") (lit "张三") 1) = lit "1".
Proof.
  split; [vm_compute; reflexivity |].
  apply (X25_conflict_counter_is_read_as_examiner (lit "CN102345678A") (lit "张三") 1).
  vm_compute. lia.
Defined.

(** ** The two ways to process a patent without the search *)

(** [v[:50]] goes through *)
Definition sliceable (v : pyval) : bool :=
  match py_slice v with
  | Ok _ => true
  | Raise => false
  end.

(** X26. [process_single_patent_realtime] with [skip_search=True] and
    [process_single_patent_no_search] return the same record for a patent,
    except when the [inventors] of the record cannot be sliced (they are
    [None], say): then the latter returns the record and the former
    returns [None]. *)
Theorem X26_the_two_ways_without_search (is_organization : pyval -> result bool)
    (st : State) (env : SingleEnv) (p : str) :
  fst (process_single_patent_realtime is_organization st env p true)
  = match process_single_patent_no_search is_organization env p with
    | Some r => if sliceable (get_or r k_inventors (PStr [])) then Some r else None
    | None => None
    end.
Proof.
  unfold process_single_patent_realtime, process_single_body, fetch_and_report,
    process_single_patent_no_search, sliceable.
  destruct (extract_pnk env) as [pnk |]; [| reflexivity].
  destruct (truthy pnk); cbn [negb]; [| reflexivity]. cbv zeta.
  destruct (fetch_details_immediately is_organization (fetch_env env) _ p)
    as [patent_data |]; [| reflexivity].
  destruct (py_slice (get_or patent_data k_inventors (PStr []))); reflexivity.
Qed.

(** A patent whose record has no inventors *)
Definition null_inventors : SingleEnv :=
  mkSingleEnv (Ok (PStr (lit "PNK"))) (Ok true) false null_inventors_env 0 0 0.

Example the_two_ways_differ :
  fst (process_single_patent_realtime (fun _ => Ok false) (__init__ plain_base)
         null_inventors sample_patent true) = None
  /\ option_map (fun r => dict_get r k_inventors)
       (process_single_patent_no_search (fun _ => Ok false) null_inventors sample_patent)
     = Some (Some PNone).
Proof. split; vm_compute; reflexivity. Qed.

(** ** The names [sanitize_filename] gives *)

Lemma sanitize_char_legal (c : N) : Renamer.illegal (sanitize_char c) = false.
Proof.
  unfold sanitize_char. destruct (Renamer.illegal c) eqn:E; [reflexivity | exact E].
Qed.

Lemma firstn_legal (n : nat) (s : str) :
  existsb Renamer.illegal s = false -> existsb Renamer.illegal (firstn n s) = false.
Proof.
  revert n. induction s as [| c s IH]; intros [| n]; cbn [firstn existsb]; try reflexivity.
  intros H. apply orb_false_iff in H. destruct H as [Hc Hs]. now rewrite Hc, (IH n Hs).
Qed.

Lemma sanitized_chars_legal (s : str) : existsb Renamer.illegal (map sanitize_char s) = false.
Proof.
  induction s as [| c s IH]; cbn [map existsb]; [reflexivity |].
  now rewrite sanitize_char_legal, IH.
Qed.

(** X27. [sanitize_filename] gives a name of at most 200 characters with
    none of the nine characters it replaces; the name is as long as the
    one it was given, or 200 characters if that was longer; and
    sanitizing a sanitized name changes nothing. *)
Theorem X27_sanitized_names (filename : str) :
  let name := Renamer.sanitize_filename filename in
  existsb Renamer.illegal name = false
  /\ List.length name = Nat.min (List.length filename) 200
  /\ Renamer.sanitize_filename name = name.
Proof.
  cbv zeta.
  assert (Hname : Renamer.sanitize_filename filename
                  = firstn 200 (map sanitize_char filename)).
  { unfold Renamer.sanitize_filename. cbv zeta. fold sanitize_char.
    destruct (Nat.ltb 200 (List.length (map sanitize_char filename))) eqn:E;
      [reflexivity |].
    apply Nat.ltb_ge in E. now rewrite firstn_all2. }
  assert (Hlegal : existsb Renamer.illegal (Renamer.sanitize_filename filename) = false).
  { rewrite Hname. apply firstn_legal, sanitized_chars_legal. }
  assert (Hlen : List.length (Renamer.sanitize_filename filename)
                 = Nat.min (List.length filename) 200).
  { rewrite Hname, length_firstn, length_map. lia. }
  split; [exact Hlegal |]. split; [exact Hlen |].
  rewrite sanitize_short by lia. now apply sanitize_kept.
Qed.
